(** * meval.ai: record sources and evaluators

    A shallow embedding of [pkg/sources/json_source.go] and
    [pkg/evaluators/gemini.go], of the two factories ([pkg/sources/factory.go],
    [pkg/evaluators/factory.go]) and of the configuration validator
    ([pkg/config/validator.go]), with the parts of Go's standard library they
    call ([encoding/json], [bufio.Scanner], [strings], [fmt]) modelled as
    executable functions over byte strings.

    Conventions.
    - A Go [string] or [[]byte] is a Rocq [string] (a list of bytes).
    - A Go [error] is its message ([error := string]); [nil] is [None].
    - A Go map is an association list with distinct keys; a [nil] map and an
      empty map are both [[]], and so are a [nil] slice and an empty one (the
      code only looks keys up, ranges and takes [len], which do not tell them
      apart; [encoding/json] writes [null] for the [nil] ones, the model
      writes the empty object and the empty array).  The order of the list
      is the order in which [range] visits the entries, which Go leaves
      unspecified: statements that depend on it quantify over permutations.
    - Floating point is outside the embedding: the type of float payloads and
      their text forms are the fields of the class [FloatCodec]. *)

From Stdlib Require Import String Ascii List ZArith NArith Bool Arith Lia.
From Stdlib Require Import Permutation DecimalString.
Import ListNotations.

Set Warnings "-register-all".
Local Open Scope string_scope.
Local Open Scope list_scope.

Infix "+++" := String.append (right associativity, at level 60).

(** ** Bytes and strings *)

Definition error := string.

(** The double quote and the control characters the code writes. *)
Definition DQ : ascii := "034"%char.
Definition LF : ascii := "010"%char.
Definition CR : ascii := "013"%char.
Definition TAB : ascii := "009"%char.
Definition BS : ascii := "008"%char.
Definition FF : ascii := "012"%char.

Definition str (c : ascii) : string := String c EmptyString.
Definition dq : string := str DQ.
Definition nl : string := str LF.

Definition code (c : ascii) : nat := nat_of_ascii c.

(** [strings.HasPrefix s p] with the arguments in the order of [String.prefix]. *)
Definition HasPrefix (s p : string) : bool := String.prefix p s.

Fixpoint drop (n : nat) (s : string) : string :=
  match n, s with
  | O, _ => s
  | S n', String _ r => drop n' r
  | S _, EmptyString => EmptyString
  end.

Fixpoint join (sep : string) (l : list string) : string :=
  match l with
  | [] => ""
  | [x] => x
  | x :: r => x +++ sep +++ join sep r
  end.

Fixpoint repeat_string (s : string) (n : nat) : string :=
  match n with
  | O => ""
  | S n' => s +++ repeat_string s n'
  end.

(** Decimal text of an integer ([strconv.Itoa], [%d]). *)
Definition itoa (z : Z) : string := NilEmpty.string_of_int (Z.to_int z).

Definition hexdigit (n : nat) : ascii :=
  ascii_of_nat (if (n <? 10)%nat then (48 + n)%nat else (87 + n)%nat).

(** [strings.ReplaceAll s old new] for a non-empty [old]: the occurrences of
    [old] are found left to right and do not overlap.  [skip] counts the bytes
    of a matched occurrence still to be dropped.  (For an empty [old] Go
    inserts [new] around every rune; [applyPromptTemplate] never passes one,
    its [old] starts with two braces.) *)
Fixpoint replace_from (old new : string) (skip : nat) (s : string) : string :=
  match s with
  | EmptyString => EmptyString
  | String c r =>
      match skip with
      | S k => replace_from old new k r
      | O =>
          if String.prefix old s
          then new +++ replace_from old new (String.length old - 1) r
          else String c (replace_from old new 0 r)
      end
  end.

Definition ReplaceAll (s old new : string) : string := replace_from old new 0 s.

(** Insertion sort of keyed items by key, bytewise ([strings.Compare]), as
    [encoding/json] and [fmt] order the keys of a map. *)
Fixpoint insert_by_key {A : Type} (x : string * A) (l : list (string * A)) : list (string * A) :=
  match l with
  | [] => [x]
  | y :: r => if String.leb (fst x) (fst y) then x :: l else y :: insert_by_key x r
  end.

Definition sort_by_key {A : Type} (l : list (string * A)) : list (string * A) :=
  fold_right insert_by_key [] l.

Fixpoint sequence {A : Type} (l : list (option A)) : option (list A) :=
  match l with
  | [] => Some []
  | None :: _ => None
  | Some x :: r => match sequence r with Some xs => Some (x :: xs) | None => None end
  end.

(** UTF-8 as [utf8.DecodeRune] reads it: the number of bytes of the valid
    sequence that starts with the byte [c] (from 0x80 up) followed by [r],
    and [0] when there is none (the rune is then U+FFFD, of width one). *)
Definition between (lo hi : nat) (c : ascii) : bool :=
  (lo <=? code c)%nat && (code c <=? hi)%nat.

Definition is_cont (c : ascii) : bool := between 128 191 c.

Definition utf8_width (c : ascii) (r : string) : nat :=
  match r with
  | EmptyString => 0
  | String c2 r2 =>
      if between 194 223 c then (if is_cont c2 then 2 else 0)
      else
        match r2 with
        | EmptyString => 0
        | String c3 r3 =>
            if (between 224 224 c && between 160 191 c2
                || between 225 236 c && is_cont c2
                || between 237 237 c && between 128 159 c2
                || between 238 239 c && is_cont c2)
               && is_cont c3
            then 3
            else
              match r3 with
              | EmptyString => 0
              | String c4 _ =>
                  if (between 240 240 c && between 144 191 c2
                      || between 241 243 c && is_cont c2
                      || between 244 244 c && between 128 143 c2)
                     && is_cont c3 && is_cont c4
                  then 4
                  else 0
              end
        end
  end.

(** The bytes of the valid sequence at the head of [String c r], and what
    follows them. *)
Definition utf8_head (c : ascii) (r : string) : option (string * string) :=
  match utf8_width c r, r with
  | 2, String c2 r2 => Some (String c (str c2), r2)
  | 3, String c2 (String c3 r3) => Some (String c (String c2 (str c3)), r3)
  | 4, String c2 (String c3 (String c4 r4)) =>
      Some (String c (String c2 (String c3 (str c4))), r4)
  | _, _ => None
  end.

(** ** Dynamically typed values *)

(** What Go's floating point contributes: the payload types and their text
    forms.  [ParseFloat] is [strconv.ParseFloat (lit, 64)] on a JSON number
    literal ([None]: out of range); [json_float64] is the float encoder of
    [encoding/json] ([None] for NaN and the infinities, which it refuses);
    [fmt_float64] is the [%v] form. *)
Class FloatCodec := {
  float64 : Type;
  float32 : Type;
  ParseFloat : string -> option float64;
  json_float64 : float64 -> option string;
  json_float32 : float32 -> option string;
  fmt_float64 : float64 -> string;
  fmt_float32 : float32 -> string
}.

Section Values.
Context `{FC : FloatCodec}.

(** An [interface{}] value, by dynamic type: [nil], the types
    [validateFieldType] switches on, and [VOther] for a value of any other
    dynamic type (uint, int8, json.Number, []string, map[string]string, a
    named type such as sources.Record, a struct, ...).  Such a value is
    given by what the code can observe of it: the name [%T] prints, the
    text [%v] prints, and what [encoding/json] writes for it at an
    indentation ([None]: the encoder refuses it).  No type switch and no
    type assertion of the code matches it. *)
Inductive value :=
| VNil
| VString (s : string)
| VFloat64 (f : float64)
| VFloat32 (f : float32)
| VInt (n : Z)
| VInt32 (n : Z)
| VInt64 (n : Z)
| VBool (b : bool)
| VSlice (l : list value)               (* []interface{} *)
| VMap (m : list (string * value))      (* map[string]interface{} *)
| VOther (T : string) (text : string) (encoding : option nat -> option string).

(** [type Record map[string]interface{}] *)
Definition Record := list (string * value).

(** [value, exists := record[key]] *)
Fixpoint lookup (key : string) (m : list (string * value)) : option value :=
  match m with
  | [] => None
  | (k, v) :: r => if String.eqb k key then Some v else lookup key r
  end.

(** [m[key] = v] *)
Fixpoint map_set (key : string) (v : value) (m : list (string * value)) : list (string * value) :=
  match m with
  | [] => [(key, v)]
  | (k, w) :: r => if String.eqb k key then (k, v) :: r else (k, w) :: map_set key v r
  end.

Definition keys (m : list (string * value)) : list string := map fst m.

(** [fmt.Sprintf ("%T", v)] *)
Definition Sprint_T (v : value) : string :=
  match v with
  | VNil => "<nil>"
  | VString _ => "string"
  | VFloat64 _ => "float64"
  | VFloat32 _ => "float32"
  | VInt _ => "int"
  | VInt32 _ => "int32"
  | VInt64 _ => "int64"
  | VBool _ => "bool"
  | VSlice _ => "[]interface {}"
  | VMap _ => "map[string]interface {}"
  | VOther T _ _ => T
  end.

(** [fmt.Sprintf ("%v", v)]: strings verbatim, maps with sorted keys. *)
Fixpoint Sprint_v (v : value) : string :=
  match v with
  | VNil => "<nil>"
  | VString s => s
  | VFloat64 f => fmt_float64 f
  | VFloat32 f => fmt_float32 f
  | VInt n | VInt32 n | VInt64 n => itoa n
  | VBool b => if b then "true" else "false"
  | VSlice l => "[" +++ join " " (map Sprint_v l) +++ "]"
  | VMap m =>
      let items := map (fun kv => (fst kv, Sprint_v (snd kv))) m in
      "map[" +++ join " " (map (fun kv => fst kv +++ ":" +++ snd kv) (sort_by_key items)) +++ "]"
  | VOther _ text _ => text
  end.

End Values.

(** ** [encoding/json]: encoding *)

Section JSONEncode.
Context `{FC : FloatCodec}.

(** The six-byte escape (backslash, u, 0, 0, two hex digits) of a byte below 0x80. *)
Definition u00 (c : ascii) : string :=
  "\" +++ "u00" +++ str (hexdigit (code c / 16)) +++ str (hexdigit (code c mod 16)).

(** The string encoder with HTML escaping on, the default of [json.Marshal]
    and of [json.NewEncoder]: a byte below 0x80 by [escape_byte]; a valid
    UTF-8 sequence copied, except U+2028 and U+2029, which are escaped; a
    byte from 0x80 up that starts no valid sequence as the escape of
    U+FFFD. *)
Definition escape_byte (c : ascii) : string :=
  if Ascii.eqb c DQ then "\" +++ dq
  else if Ascii.eqb c "\" then "\\"
  else if Ascii.eqb c BS then "\b"
  else if Ascii.eqb c FF then "\f"
  else if Ascii.eqb c LF then "\n"
  else if Ascii.eqb c CR then "\r"
  else if Ascii.eqb c TAB then "\t"
  else if (code c <? 32)%nat then u00 c
  else if Ascii.eqb c "<" || Ascii.eqb c ">" || Ascii.eqb c "&" then u00 c
  else str c.

Definition escape_rune3 (c c2 c3 : ascii) : string :=
  if between 226 226 c && between 128 128 c2 && between 168 168 c3 then "\" +++ "u2028"
  else if between 226 226 c && between 128 128 c2 && between 169 169 c3 then "\" +++ "u2029"
  else String c (String c2 (str c3)).

Fixpoint escape_string (s : string) : string :=
  match s with
  | EmptyString => EmptyString
  | String c r =>
      if (code c <? 128)%nat then escape_byte c +++ escape_string r
      else
        match utf8_width c r, r with
        | 2, String c2 r2 => String c (String c2 (escape_string r2))
        | 3, String c2 (String c3 r3) => escape_rune3 c c2 c3 +++ escape_string r3
        | 4, String c2 (String c3 (String c4 r4)) =>
            String c (String c2 (String c3 (String c4 (escape_string r4))))
        | _, _ => "\" +++ "ufffd" +++ escape_string r
        end
  end.

Definition quote (s : string) : string := dq +++ escape_string s +++ dq.

(** [ind = None]: the compact form of [json.Marshal].  [ind = Some d]: the
    form [Encoder.SetIndent ("", "  ")] gives at nesting depth [d], two
    spaces a level, empty arrays and objects kept closed.  [None] as a
    result: a value the encoder refuses. *)
Definition newline_indent (ind : option nat) : string :=
  match ind with
  | None => ""
  | Some d => nl +++ repeat_string "  " d
  end.

Definition deeper (ind : option nat) : option nat := option_map S ind.

Definition colon (ind : option nat) : string :=
  match ind with None => ":" | Some _ => ": " end.

Definition bracket (ind : option nat) (open close : string) (items : list string) : string :=
  match items with
  | [] => open +++ close
  | _ => open +++ newline_indent (deeper ind)
         +++ join ("," +++ newline_indent (deeper ind)) items
         +++ newline_indent ind +++ close
  end.

Fixpoint encode (ind : option nat) (v : value) : option string :=
  match v with
  | VNil => Some "null"
  | VString s => Some (quote s)
  | VFloat64 f => json_float64 f
  | VFloat32 f => json_float32 f
  | VInt n | VInt32 n | VInt64 n => Some (itoa n)
  | VBool b => Some (if b then "true" else "false")
  | VSlice l =>
      match sequence (map (encode (deeper ind)) l) with
      | Some items => Some (bracket ind "[" "]" items)
      | None => None
      end
  | VMap m =>
      let members := sort_by_key (map (fun kv => (fst kv, encode (deeper ind) (snd kv))) m) in
      match sequence (map (fun kv => option_map (fun t => quote (fst kv) +++ colon ind +++ t) (snd kv)) members) with
      | Some items => Some (bracket ind "{" "}" items)
      | None => None
      end
  | VOther _ _ encoding => encoding ind
  end.

(** [json.Marshal v] *)
Definition Marshal (v : value) : option string := encode None v.

(** [encoder.Encode (record)] after [encoder.SetIndent ("", "  ")]: the
    indented text and a final newline. *)
Definition Encode_indent (record : Record) : option string :=
  option_map (fun t => t +++ nl) (encode (Some 0) (VMap record)).

End JSONEncode.

(** ** [encoding/json]: decoding *)

(** The outcome of reading a prefix of the input: a result and the rest of
    the input, the end of the input inside a value, an error, or the
    recursion bound used up ([PFuel], not a Go outcome: the entry points
    give a bound the input cannot use up, see [parse_json_total]). *)
Inductive presult (A : Type) :=
| POk (a : A) (rest : string)
| PEnd
| PErr (msg : error)
| PFuel.
Arguments POk {A} a rest.
Arguments PEnd {A}.
Arguments PErr {A} msg.
Arguments PFuel {A}.

Definition pbind {A B : Type} (r : presult A) (k : A -> string -> presult B) : presult B :=
  match r with
  | POk a rest => k a rest
  | PEnd => PEnd
  | PErr m => PErr m
  | PFuel => PFuel
  end.

Definition pmap {A B : Type} (f : A -> B) (r : presult A) : presult B :=
  pbind r (fun a rest => POk (f a) rest).

(** [r] is a Go outcome, and a result leaves at most [n] bytes unread. *)
Definition within {A : Type} (n : nat) (r : presult A) : Prop :=
  match r with
  | POk _ rest => String.length rest <= n
  | PFuel => False
  | _ => True
  end.

Definition codeN (c : ascii) : N := N_of_ascii c.

Definition is_space (c : ascii) : bool :=
  Ascii.eqb c " " || Ascii.eqb c TAB || Ascii.eqb c CR || Ascii.eqb c LF.

Fixpoint skip_space (s : string) : string :=
  match s with
  | String c r => if is_space c then skip_space r else s
  | EmptyString => EmptyString
  end.

Definition is_digit (c : ascii) : bool := (48 <=? codeN c)%N && (codeN c <=? 57)%N.

Definition byte (n : N) : string := str (ascii_of_N n).

(** The UTF-8 encoding of a code point. *)
Definition utf8 (n : N) : string :=
  (if n <? 128 then byte n
   else if n <? 2048 then byte (192 + n / 64) +++ byte (128 + n mod 64)
   else if n <? 65536 then
     byte (224 + n / 4096) +++ byte (128 + (n / 64) mod 64) +++ byte (128 + n mod 64)
   else
     byte (240 + n / 262144) +++ byte (128 + (n / 4096) mod 64)
     +++ byte (128 + (n / 64) mod 64) +++ byte (128 + n mod 64))%N.

(** [quoteChar]: the byte as a SyntaxError shows it, between single
    quotes.  The two quotes are special cases; every other byte is shown as
    [strconv.Quote] shows the rune of that number: a printable rune as
    itself (in UTF-8 from 0xA1 up), the backslash doubled, the control
    characters by their letter or in hexadecimal, the runes from 0x80 to
    0xA0 and 0xAD by their number. *)
Definition hex2 (c : ascii) : string :=
  str (hexdigit (code c / 16)) +++ str (hexdigit (code c mod 16)).

Definition quoteChar (c : ascii) : string :=
  "'"
  +++ (if Ascii.eqb c "'" then "\'"
       else if Ascii.eqb c DQ then dq
       else if Ascii.eqb c "\" then "\\"
       else if between 32 126 c then str c
       else if between 161 255 c && negb (code c =? 173)%nat then utf8 (codeN c)
       else if (code c =? 7)%nat then "\a"
       else if Ascii.eqb c BS then "\b"
       else if Ascii.eqb c FF then "\f"
       else if Ascii.eqb c LF then "\n"
       else if Ascii.eqb c CR then "\r"
       else if Ascii.eqb c TAB then "\t"
       else if (code c =? 11)%nat then "\v"
       else if (code c <? 32)%nat || (code c =? 127)%nat then "\x" +++ hex2 c
       else "\" +++ "u00" +++ hex2 c)
  +++ "'".

Definition invalid (c : ascii) (context : string) : error :=
  "invalid character " +++ quoteChar c +++ " " +++ context.

Definition unexpected_end : error := "unexpected end of JSON input".

Fixpoint span_digits (s : string) : string * string :=
  match s with
  | String c r =>
      if is_digit c then let (d, r') := span_digits r in (String c d, r') else (EmptyString, s)
  | EmptyString => (EmptyString, EmptyString)
  end.

Definition scan_digits1 (context : string) (s : string) : presult string :=
  match s with
  | EmptyString => PEnd
  | String c _ =>
      if is_digit c then let (d, r) := span_digits s in POk d r else PErr (invalid c context)
  end.

Definition scan_int (s : string) : presult string :=
  match s with
  | EmptyString => PEnd
  | String c r =>
      if Ascii.eqb c "0" then POk "0" r
      else if is_digit c then let (d, r') := span_digits r in POk (String c d) r'
      else PErr (invalid c "in numeric literal")
  end.

Definition scan_frac (s : string) : presult string :=
  match s with
  | String c r =>
      if Ascii.eqb c "."
      then pmap (fun d => "." +++ d) (scan_digits1 "after decimal point in numeric literal" r)
      else POk "" s
  | EmptyString => POk "" s
  end.

Definition scan_exp (s : string) : presult string :=
  match s with
  | String c r =>
      if Ascii.eqb c "e" || Ascii.eqb c "E" then
        let (sign, r1) :=
          match r with
          | String c2 r2 => if Ascii.eqb c2 "+" || Ascii.eqb c2 "-" then (str c2, r2) else ("", r)
          | EmptyString => ("", r)
          end in
        pmap (fun d => str c +++ sign +++ d) (scan_digits1 "in exponent of numeric literal" r1)
      else POk "" s
  | EmptyString => POk "" s
  end.

(** The text of a number literal of the JSON grammar at the head of [s]. *)
Definition scan_number (s : string) : presult string :=
  let (sign, s1) :=
    match s with
    | String c r => if Ascii.eqb c "-" then ("-", r) else ("", s)
    | EmptyString => ("", s)
    end in
  pbind (scan_int s1) (fun i r1 =>
  pbind (scan_frac r1) (fun f r2 =>
  pbind (scan_exp r2) (fun e r3 => POk (sign +++ i +++ f +++ e) r3))).

Fixpoint scan_literal (name tail : string) (s : string) : presult unit :=
  match tail with
  | EmptyString => POk tt s
  | String e t =>
      match s with
      | EmptyString => PEnd
      | String c r =>
          if Ascii.eqb c e then scan_literal name t r
          else PErr (invalid c ("in literal " +++ name +++ " (expecting '" +++ str e +++ "')"))
      end
  end.

Definition hexval (c : ascii) : option N :=
  let n := codeN c in
  if is_digit c then Some (n - 48)%N
  else if (97 <=? n)%N && (n <=? 102)%N then Some (n - 87)%N
  else if (65 <=? n)%N && (n <=? 70)%N then Some (n - 55)%N
  else None.

Fixpoint hexn (n : nat) (acc : N) (s : string) : presult N :=
  match n with
  | O => POk acc s
  | S n' =>
      match s with
      | EmptyString => PEnd
      | String c r =>
          match hexval c with
          | Some h => hexn n' (acc * 16 + h)%N r
          | None => PErr (invalid c ("in \" +++ "u hexadecimal character escape"))
          end
      end
  end.

Definition replacement_char : N := 65533.

Definition is_surrogate (n : N) : bool := (55296 <=? n)%N && (n <? 57344)%N.

(** [utf16.DecodeRune] *)
Definition decode_surrogates (r1 r2 : N) : N :=
  if (55296 <=? r1)%N && (r1 <? 56320)%N && (56320 <=? r2)%N && (r2 <? 57344)%N
  then ((r1 - 55296) * 1024 + (r2 - 56320) + 65536)%N
  else replacement_char.

Definition simple_escape (e : ascii) : option ascii :=
  if Ascii.eqb e DQ then Some DQ
  else if Ascii.eqb e "\" then Some "\"%char
  else if Ascii.eqb e "/" then Some "/"%char
  else if Ascii.eqb e "b" then Some BS
  else if Ascii.eqb e "f" then Some FF
  else if Ascii.eqb e "n" then Some LF
  else if Ascii.eqb e "r" then Some CR
  else if Ascii.eqb e "t" then Some TAB
  else None.

(** [getu4]: the code unit of a [u] escape at the head of [s], if one stands
    there, and what follows it. *)
Definition next_u4 (s : string) : option (N * string) :=
  match s with
  | String c1 (String c2 r) =>
      if Ascii.eqb c1 "\" && Ascii.eqb c2 "u" then
        match hexn 4 0 r with
        | POk rr rest => Some (rr, rest)
        | _ => None
        end
      else None
  | _ => None
  end.

Definition pcons (prefix : string) (r : presult string) : presult string :=
  pmap (fun t => prefix +++ t) r.

(** The body of a string literal after its opening quote, unquoted.  A
    valid UTF-8 sequence is copied; a byte from 0x80 up that starts none
    becomes U+FFFD. *)
Fixpoint parse_chars (fuel : nat) (s : string) : presult string :=
  match fuel with
  | O => PFuel
  | S f =>
      match s with
      | EmptyString => PEnd
      | String c r =>
          if Ascii.eqb c DQ then POk "" r
          else if Ascii.eqb c "\" then
            match r with
            | EmptyString => PEnd
            | String e r' =>
                if Ascii.eqb e "u" then
                  pbind (hexn 4 0 r') (fun rr r2 =>
                    if is_surrogate rr then
                      match next_u4 r2 with
                      | Some (rr1, r4) =>
                          if (decode_surrogates rr rr1 =? replacement_char)%N
                          then pcons (utf8 replacement_char) (parse_chars f r2)
                          else pcons (utf8 (decode_surrogates rr rr1)) (parse_chars f r4)
                      | None => pcons (utf8 replacement_char) (parse_chars f r2)
                      end
                    else pcons (utf8 rr) (parse_chars f r2))
                else
                  match simple_escape e with
                  | Some b => pcons (str b) (parse_chars f r')
                  | None => PErr (invalid e "in string escape code")
                  end
            end
          else if (codeN c <? 32)%N then PErr (invalid c "in string literal")
          else if (codeN c <? 128)%N then pcons (str c) (parse_chars f r)
          else
            match utf8_head c r with
            | Some (bytes, rest) => pcons bytes (parse_chars f rest)
            | None => pcons (utf8 replacement_char) (parse_chars f r)
            end
      end
  end.

Definition parse_string (s : string) : presult string :=
  parse_chars (S (String.length s)) s.

(** A JSON text the scanner of [encoding/json] accepts, as a tree.  Numbers
    are kept as their literals: they are converted when a value is stored.
    The members of an object are in the order of the text, repeated keys
    included. *)
Inductive json :=
| JNull
| JBool (b : bool)
| JNumber (lit : string)
| JString (s : string)
| JArray (l : list json)
| JObject (m : list (string * json)).

(** One JSON value at the head of the input, as the scanner reads it. *)
Fixpoint parse_value (fuel : nat) (s : string) : presult json :=
  match fuel with
  | O => PFuel
  | S f =>
      match skip_space s with
      | EmptyString => PEnd
      | String c r =>
          if Ascii.eqb c "{" then
            match skip_space r with
            | String c' r' =>
                if Ascii.eqb c' "}" then POk (JObject []) r' else parse_members f r []
            | EmptyString => PEnd
            end
          else if Ascii.eqb c "[" then
            match skip_space r with
            | String c' r' =>
                if Ascii.eqb c' "]" then POk (JArray []) r' else parse_elements f r []
            | EmptyString => PEnd
            end
          else if Ascii.eqb c DQ then pmap JString (parse_string r)
          else if Ascii.eqb c "-" || is_digit c then pmap JNumber (scan_number (String c r))
          else if Ascii.eqb c "t" then pmap (fun _ => JBool true) (scan_literal "true" "rue" r)
          else if Ascii.eqb c "f" then pmap (fun _ => JBool false) (scan_literal "false" "alse" r)
          else if Ascii.eqb c "n" then pmap (fun _ => JNull) (scan_literal "null" "ull" r)
          else PErr (invalid c "looking for beginning of value")
      end
  end
with parse_elements (fuel : nat) (s : string) (acc : list json) : presult json :=
  match fuel with
  | O => PFuel
  | S f =>
      pbind (parse_value f s) (fun v r =>
        match skip_space r with
        | EmptyString => PEnd
        | String c r' =>
            if Ascii.eqb c "," then parse_elements f r' (acc ++ [v])
            else if Ascii.eqb c "]" then POk (JArray (acc ++ [v])) r'
            else PErr (invalid c "after array element")
        end)
  end
with parse_members (fuel : nat) (s : string) (acc : list (string * json)) : presult json :=
  match fuel with
  | O => PFuel
  | S f =>
      match skip_space s with
      | EmptyString => PEnd
      | String c r =>
          if Ascii.eqb c DQ then
            pbind (parse_string r) (fun key r1 =>
              match skip_space r1 with
              | EmptyString => PEnd
              | String c1 r2 =>
                  if Ascii.eqb c1 ":" then
                    pbind (parse_value f r2) (fun v r3 =>
                      match skip_space r3 with
                      | EmptyString => PEnd
                      | String c3 r4 =>
                          if Ascii.eqb c3 "," then parse_members f r4 (acc ++ [(key, v)])
                          else if Ascii.eqb c3 "}" then POk (JObject (acc ++ [(key, v)])) r4
                          else PErr (invalid c3 "after object key:value pair")
                      end)
                  else PErr (invalid c1 "after object key")
              end)
          else PErr (invalid c "looking for beginning of object key string")
      end
  end.

Definition parse_json (data : string) : presult json :=
  parse_value (S (2 * String.length data)) data.

(** The JSON kind named in an UnmarshalTypeError. *)
Definition json_kind (t : json) : string :=
  match t with
  | JArray _ => "array"
  | JObject _ => "object"
  | JString _ => "string"
  | JBool _ => "bool"
  | JNull => "null"
  | JNumber _ => "number"
  end.

Definition fuel_error : error := "model: recursion bound reached".

(** The first JSON value of a stream ([Decoder.Decode]: what follows the
    value is not read), and the one value of a text ([json.Unmarshal]: only
    white space may follow).  Both check the syntax of the whole value
    before anything is stored. *)
Definition scan_stream (data : string) : error + json :=
  match parse_json data with
  | POk t _ => inr t
  | PEnd => inl (match skip_space data with EmptyString => "EOF" | _ => "unexpected EOF" end)
  | PErr m => inl m
  | PFuel => inl fuel_error
  end.

Definition scan_text (data : string) : error + json :=
  match parse_json data with
  | POk t rest =>
      match skip_space rest with
      | EmptyString => inr t
      | String c _ => inl (invalid c "after top-level value")
      end
  | PEnd => inl unexpected_end
  | PErr m => inl m
  | PFuel => inl fuel_error
  end.

(** [json.RawMessage]: the bytes of one value the scanner accepted, held as
    the tree of these bytes ([json.Unmarshal] of the bytes reads this
    tree). *)
Definition RawMessage := json.

Section JSONDecode.
Context `{FC : FloatCodec}.

(** Storing a scanned value into an [interface{}]: objects to maps (a
    repeated key keeps its last value), arrays to slices, numbers to
    float64.  A number out of the range of float64 is an
    UnmarshalTypeError; the decoder goes on and returns the first such
    error, in the order of the text. *)
Fixpoint to_value (t : json) : error + value :=
  match t with
  | JNull => inr VNil
  | JBool b => inr (VBool b)
  | JNumber lit =>
      match ParseFloat lit with
      | Some x => inr (VFloat64 x)
      | None => inl ("json: cannot unmarshal number " +++ lit +++ " into Go value of type float64")
      end
  | JString s => inr (VString s)
  | JArray l =>
      (fix elements (l : list json) (acc : list value) : error + value :=
         match l with
         | [] => inr (VSlice acc)
         | t :: r =>
             match to_value t with
             | inl e => inl e
             | inr v => elements r (acc ++ [v])
             end
         end) l []
  | JObject m =>
      (fix members (m : list (string * json)) (acc : list (string * value)) : error + value :=
         match m with
         | [] => inr (VMap acc)
         | (k, t) :: r =>
             match to_value t with
             | inl e => inl e
             | inr v => members r (map_set k v acc)
             end
         end) m []
  end.

(** The members of an object stored one after the other into a map. *)
Fixpoint store_members (m : list (string * json)) (acc : list (string * value))
  : error + list (string * value) :=
  match m with
  | [] => inr acc
  | (k, t) :: r =>
      match to_value t with
      | inl e => inl e
      | inr v => store_members r (map_set k v acc)
      end
  end.

(** [json.Unmarshal (data, &v)] for [v interface{}]. *)
Definition Unmarshal (data : string) : error + value :=
  match scan_text data with
  | inr t => to_value t
  | inl e => inl e
  end.

(** Storing a scanned value in a [Record] variable that is [nil]: an object
    gives the map, [null] leaves the record [nil], anything else is an
    UnmarshalTypeError. *)
Definition as_Record (t : json) : error + Record :=
  match t with
  | JObject m => store_members m []
  | JNull => inr []
  | _ => inl ("json: cannot unmarshal " +++ json_kind t +++ " into Go value of type sources.Record")
  end.

(** [var record Record; json.Unmarshal (data, &record)] *)
Definition Unmarshal_Record (data : string) : error + Record :=
  match scan_text data with
  | inr t => as_Record t
  | inl e => inl e
  end.

(** [var raw []json.RawMessage; json.NewDecoder (reader).Decode (&raw)] on a
    reader that holds [data]: the first JSON value of the stream is scanned
    and the elements of the array are kept raw, nothing of them is
    converted. *)
Definition Decode_RawMessages (data : string) : error + list RawMessage :=
  match scan_stream data with
  | inr (JArray l) => inr l
  | inr JNull => inr []
  | inr t => inl ("json: cannot unmarshal " +++ json_kind t
                  +++ " into Go value of type []json.RawMessage")
  | inl e => inl e
  end.

End JSONDecode.

(** ** [bufio.Scanner] with the default split function [ScanLines] *)

Definition MaxScanTokenSize : N := 65536.

(** The bytes before the first newline, and what follows it ([None]: there is
    no newline). *)
Fixpoint cut_line (s : string) : string * option string :=
  match s with
  | EmptyString => (EmptyString, None)
  | String c r =>
      if Ascii.eqb c LF then (EmptyString, Some r)
      else let (l, t) := cut_line r in (String c l, t)
  end.

(** [dropCR]: one trailing carriage return is not part of the line. *)
Fixpoint dropCR (s : string) : string :=
  match s with
  | EmptyString => EmptyString
  | String c EmptyString => if Ascii.eqb c CR then EmptyString else s
  | String c r => String c (dropCR r)
  end.

(** The tokens [scanner.Scan ()] yields over [data] and what [scanner.Err ()]
    is once it returns false.  A last line without newline is a token when
    it is not empty; a line that does not fit the buffer with its newline
    stops the scan with ErrTooLong. *)
Fixpoint scan_lines (fuel : nat) (data : string) : list string * option error :=
  match fuel with
  | O => ([], None)
  | S f =>
      match data with
      | EmptyString => ([], None)
      | _ =>
          let (line, tail) := cut_line data in
          if (MaxScanTokenSize <=? N.of_nat (String.length line))%N
          then ([], Some "bufio.Scanner: token too long")
          else match tail with
               | None => ([dropCR line], None)
               | Some r => let (ls, e) := scan_lines f r in (dropCR line :: ls, e)
               end
      end
  end.

Definition Scanner (data : string) : list string * option error :=
  scan_lines (S (String.length data)) data.

(** ** The environment *)

(** [context.Context] as the loops see it: what the [n]-th poll of
    [ctx.Done ()] in a call finds, [Some e] when the context is done with
    [ctx.Err () = e]. *)
Definition Ctx := nat -> option error.

Definition Background : Ctx := fun _ => None.

(** The path functions and the file system calls of [findFiles], [readFile]
    and [Write].  [os_Stat] gives [IsDir ()]; [os_Open] gives the bytes that
    reading the opened file to its end yields. *)
Record OS := {
  filepath_IsAbs : string -> bool;
  filepath_Base : string -> string;
  filepath_Dir : string -> string;
  filepath_Glob : string -> error + list string;
  os_Stat : string -> error + bool;
  os_Open : string -> error + string;
  os_MkdirAll : string -> option error;
  os_Create : string -> option error
}.

(** The file [os.Create] returns: its name, the bytes written to it since
    it was truncated, and whether it has been closed.  Writing to a closed
    file and closing it again are PathErrors with [os.ErrClosed]. *)
Record File := { file_name : string; file_data : string; file_closed : bool }.

Definition file_Write (f : File) (bytes : string) : File * option error :=
  if file_closed f then (f, Some ("write " +++ file_name f +++ ": file already closed"))
  else ({| file_name := file_name f; file_data := file_data f +++ bytes;
           file_closed := false |}, None).

Definition file_Close (f : File) : File * option error :=
  if file_closed f then (f, Some ("close " +++ file_name f +++ ": file already closed"))
  else ({| file_name := file_name f; file_data := file_data f; file_closed := true |}, None).

(** ** [pkg/config]: the types the sources and evaluators use *)

Record FieldConfig := { Name : string; Type_ : string }.

Record SchemaConfig := { Fields : list FieldConfig }.

Record ControlsConfig := { Concurrency : Z; OnError : string }.

(** ** [pkg/sources/json_source.go] *)

Section Sources.
Context `{FC : FloatCodec}.

Record JSONSource := {
  path : string;
  mode : string;
  schema : SchemaConfig;
  isWritable : bool;
  writer : option File
}.

(** [NewJSONSource]: [cfg ("path")] must hold a string; [cfg ("mode")] is
    read as a string, and what is absent, not a string or empty is "array". *)
Definition NewJSONSource (cfg : list (string * value)) (schema : SchemaConfig) : error + JSONSource :=
  match lookup "path" cfg with
  | Some (VString path) =>
      let mode := match lookup "mode" cfg with Some (VString m) => m | _ => "" end in
      let mode := if String.eqb mode "" then "array" else mode in
      if negb (String.eqb mode "array") && negb (String.eqb mode "lines")
      then inl ("unsupported mode: " +++ mode +++ " (must be 'array' or 'lines')")
      else inr {| path := path; mode := mode; schema := schema;
                  isWritable := false; writer := None |}
  | _ => inl "path is required for JSON source"
  end.

(** [validateFieldType] *)
Definition validateFieldType (value : value) (expectedType : string) : option error :=
  if String.eqb expectedType "string" then
    match value with
    | VString _ => None
    | _ => Some ("expected string, got " +++ Sprint_T value)
    end
  else if String.eqb expectedType "number" then
    match value with
    | VFloat64 _ | VFloat32 _ | VInt _ | VInt32 _ | VInt64 _ => None
    | _ => Some ("expected number, got " +++ Sprint_T value)
    end
  else if String.eqb expectedType "boolean" then
    match value with
    | VBool _ => None
    | _ => Some ("expected boolean, got " +++ Sprint_T value)
    end
  else if String.eqb expectedType "array" then
    match value with
    | VSlice _ => None
    | _ => Some ("expected array, got " +++ Sprint_T value)
    end
  else if String.eqb expectedType "object" then
    match value with
    | VMap _ => None
    | _ => Some ("expected object, got " +++ Sprint_T value)
    end
  else Some ("unsupported type: " +++ expectedType).

(** The loop of [validateRecord] over [j.schema.Fields]. *)
Fixpoint validateFields (fields : list FieldConfig) (record : Record) : option error :=
  match fields with
  | [] => None
  | field :: rest =>
      match lookup (Name field) record with
      | None => Some ("missing required field: " +++ Name field)
      | Some value =>
          match validateFieldType value (Type_ field) with
          | Some err => Some ("field " +++ Name field +++ ": " +++ err)
          | None => validateFields rest record
          end
      end
  end.

Definition validateRecord (j : JSONSource) (record : Record) : option error :=
  validateFields (Fields (schema j)) record.

(** [containsAny] *)
Fixpoint contains_char (s : string) (char : ascii) : bool :=
  match s with
  | EmptyString => false
  | String c r => Ascii.eqb c char || contains_char r char
  end.

Fixpoint containsAny (s : string) (chars : string) : bool :=
  match chars with
  | EmptyString => false
  | String char rest => contains_char s char || containsAny s rest
  end.

(** [containsWildcard] *)
Definition containsWildcard (os : OS) (path : string) : bool :=
  negb (String.eqb (filepath_Base os path) path)
  || String.eqb (filepath_Dir os path) "."
  || containsAny path "*?[".

(** [findFiles] *)
Definition findFiles (os : OS) (j : JSONSource) : error + list string :=
  if filepath_IsAbs os (path j) && negb (containsWildcard os (path j)) then
    match os_Stat os (path j) with
    | inl err => inl err
    | inr _ => inr [path j]
    end
  else
    match filepath_Glob os (path j) with
    | inl err => inl err
    | inr matches =>
        inr (filter (fun m => match os_Stat os m with
                              | inl _ => false
                              | inr isDir => negb isDir
                              end) matches)
    end.

(** The loop of [readJSONArray] over the raw elements. *)
Fixpoint readJSONArray_loop (j : JSONSource) (i : nat) (rawRecords : list RawMessage) (records : list Record)
  : list Record * option error :=
  match rawRecords with
  | [] => (records, None)
  | raw :: rest =>
      match as_Record raw with
      | inl err => ([], Some ("failed to unmarshal record " +++ itoa (Z.of_nat i) +++ ": " +++ err))
      | inr record =>
          match validateRecord j record with
          | Some err => ([], Some ("record " +++ itoa (Z.of_nat i) +++ " validation failed: " +++ err))
          | None => readJSONArray_loop j (S i) rest (records ++ [record])
          end
      end
  end.

(** [readJSONArray] on a reader that holds [data]. *)
Definition readJSONArray (j : JSONSource) (data : string) : list Record * option error :=
  match Decode_RawMessages data with
  | inl err => ([], Some ("failed to decode JSON array: " +++ err))
  | inr rawRecords => readJSONArray_loop j 0 rawRecords []
  end.

(** The loop of [readJSONLines] over the scanned lines; [lineNum] is the
    number of lines scanned before this one. *)
Fixpoint readJSONLines_loop (j : JSONSource) (lineNum : nat) (lines : list string) (records : list Record)
  : list Record * option error :=
  match lines with
  | [] => (records, None)
  | line :: rest =>
      let lineNum := S lineNum in
      if (String.length line =? 0)%nat then readJSONLines_loop j lineNum rest records
      else
        match Unmarshal_Record line with
        | inl err => ([], Some ("failed to unmarshal line " +++ itoa (Z.of_nat lineNum) +++ ": " +++ err))
        | inr record =>
            match validateRecord j record with
            | Some err => ([], Some ("line " +++ itoa (Z.of_nat lineNum) +++ " validation failed: " +++ err))
            | None => readJSONLines_loop j lineNum rest (records ++ [record])
            end
        end
  end.

(** [readJSONLines] on a reader that holds [data]. *)
Definition readJSONLines (j : JSONSource) (data : string) : list Record * option error :=
  let (lines, scanErr) := Scanner data in
  match readJSONLines_loop j 0 lines [] with
  | (_, Some err) => ([], Some err)
  | (records, None) =>
      match scanErr with
      | Some err => ([], Some ("error reading file: " +++ err))
      | None => (records, None)
      end
  end.

(** [readFile] *)
Definition readFile (os : OS) (j : JSONSource) (path : string) : list Record * option error :=
  match os_Open os path with
  | inl err => ([], Some err)
  | inr data =>
      if String.eqb (mode j) "array" then readJSONArray j data else readJSONLines j data
  end.

(** The loop of [Read] over the resolved files; [i] counts the iterations. *)
Fixpoint Read_loop (os : OS) (j : JSONSource) (ctx : Ctx) (i : nat) (files : list string)
    (allRecords : list Record) : list Record * option error :=
  match files with
  | [] => (allRecords, None)
  | file :: rest =>
      match ctx i with
      | Some err => (allRecords, Some err)
      | None =>
          match readFile os j file with
          | (_, Some err) => ([], Some ("failed to read file " +++ file +++ ": " +++ err))
          | (records, None) => Read_loop os j ctx (S i) rest (allRecords ++ records)
          end
      end
  end.

(** [Read] *)
Definition Read (os : OS) (j : JSONSource) (ctx : Ctx) : list Record * option error :=
  match findFiles os j with
  | inl err => ([], Some ("failed to find files: " +++ err))
  | inr files =>
      if (List.length files =? 0)%nat
      then ([], Some ("no files found matching pattern: " +++ path j))
      else Read_loop os j ctx 0 files []
  end.

Definition set_writer (j : JSONSource) (w : File) (writable : bool) : JSONSource :=
  {| path := path j; mode := mode j; schema := schema j;
     isWritable := writable; writer := Some w |}.

(** [j.writer.Write (bytes)] on a source whose writer is [w]. *)
Definition writer_Write (j : JSONSource) (w : File) (bytes : string) : JSONSource * option error :=
  let (w', err) := file_Write w bytes in (set_writer j w' (isWritable j), err).

(** The loop of [Write] over the records of the call; [i] is the index in
    this call's slice. *)
Fixpoint Write_loop (j : JSONSource) (w : File) (ctx : Ctx) (i : nat) (records : list Record)
  : JSONSource * option error :=
  match records with
  | [] => (j, None)
  | record :: rest =>
      match ctx i with
      | Some err => (j, Some err)
      | None =>
          let sep := if String.eqb (mode j) "array" && (0 <? i)%nat
                     then file_Write w ("," +++ nl) else (w, None) in
          match sep with
          | (w1, Some err) => (set_writer j w1 (isWritable j), Some err)
          | (w1, None) =>
              let j1 := set_writer j w1 (isWritable j) in
              match validateRecord j record with
              | Some err => (j1, Some ("record validation failed: " +++ err))
              | None =>
                  match Encode_indent record with
                  | None => (j1, Some "failed to encode record: json: unsupported value")
                  | Some text =>
                      match file_Write w1 text with
                      | (w2, Some err) =>
                          (set_writer j w2 (isWritable j), Some ("failed to encode record: " +++ err))
                      | (w2, None) => Write_loop (set_writer j w2 (isWritable j)) w2 ctx (S i) rest
                      end
                  end
              end
          end
      end
  end.

(** [Write] *)
Definition Write (os : OS) (j : JSONSource) (ctx : Ctx) (records : list Record) : JSONSource * option error :=
  match writer j with
  | Some w => Write_loop j w ctx 0 records
  | None =>
      match os_MkdirAll os (filepath_Dir os (path j)) with
      | Some err => (j, Some ("failed to create directory: " +++ err))
      | None =>
          match os_Create os (path j) with
          | Some err => (j, Some ("failed to create file: " +++ err))
          | None =>
              let file := {| file_name := path j; file_data := ""; file_closed := false |} in
              let j1 := set_writer j file true in
              if String.eqb (mode j) "array" then
                match file_Write file ("[" +++ nl) with
                | (w1, Some err) => (set_writer j1 w1 true, Some err)
                | (w1, None) => Write_loop (set_writer j1 w1 true) w1 ctx 0 records
                end
              else Write_loop j1 file ctx 0 records
          end
      end
  end.

(** [Close] *)
Definition Close (j : JSONSource) : JSONSource * option error :=
  match writer j with
  | Some w =>
      if String.eqb (mode j) "array" then
        match file_Write w (nl +++ "]") with
        | (w1, Some err) => (set_writer j w1 (isWritable j), Some err)
        | (w1, None) =>
            let (w2, err) := file_Close w1 in (set_writer j w2 (isWritable j), err)
        end
      else let (w2, err) := file_Close w in (set_writer j w2 (isWritable j), err)
  | None => (j, None)
  end.

(** The bytes the loop of [Write] adds in array mode for records whose
    encoded texts are [texts], the first of them at index [i] of the call:
    a comma and a newline before every record but the one at index 0. *)
Fixpoint framed (i : nat) (texts : list string) : string :=
  match texts with
  | [] => ""
  | t :: ts => (if (0 <? i)%nat then "," +++ nl else "") +++ t +++ framed (S i) ts
  end.

(** The bytes of the file a source has written. *)
Definition written (j : JSONSource) : string :=
  match writer j with
  | Some w => file_data w
  | None => ""
  end.

End Sources.

(** ** [pkg/evaluators] *)

(** The network as [makeAPICall] meets it: [http.NewRequestWithContext]
    (which refuses a URL it cannot parse) and [httpClient.Do], whose answer
    may depend on the requests sent before.  The context of a call is part
    of what [http_Do] stands for. *)
Record Request := { req_url : string; req_body : string }.

Record Response := { StatusCode : Z; Body : string }.

Record Network := {
  http_NewRequest : string -> option error;
  http_Do : list Request -> Request -> error + Response
}.

(** The state the evaluator threads: the network and the requests sent. *)
Record World := { net : Network; sent : list Request }.

(** [strings.TrimSpace]: the leading and the trailing white space of
    Unicode is cut off.  The ASCII white space is one byte; the other white
    space ([unicode.IsSpace]: U+0085, U+00A0, U+1680, U+2000 to U+200A,
    U+2028, U+2029, U+202F, U+205F, U+3000) is met as its UTF-8 form, of two
    or three bytes.  Bytes that are no valid UTF-8 decode as U+FFFD, which is
    no white space, and stop the cut. *)
Definition is_go_space (c : ascii) : bool :=
  is_space c || Ascii.eqb c "011" || Ascii.eqb c FF.

Definition space2 (c1 c2 : ascii) : bool :=
  ((codeN c1 =? 194) && ((codeN c2 =? 133) || (codeN c2 =? 160)))%N.

Definition space3 (c1 c2 c3 : ascii) : bool :=
  ((codeN c1 =? 225) && (codeN c2 =? 154) && (codeN c3 =? 128)
   || (codeN c1 =? 226) && (codeN c2 =? 128)
      && ((128 <=? codeN c3) && (codeN c3 <=? 138)
          || (codeN c3 =? 168) || (codeN c3 =? 169) || (codeN c3 =? 175))
   || (codeN c1 =? 226) && (codeN c2 =? 129) && (codeN c3 =? 159)
   || (codeN c1 =? 227) && (codeN c2 =? 128) && (codeN c3 =? 128))%N.

(** The white space at the head of [s] cut off, one rune after the other;
    [sp2] and [sp3] tell the two-byte and the three-byte forms. *)
Fixpoint trim_runes (sp2 : ascii -> ascii -> bool) (sp3 : ascii -> ascii -> ascii -> bool)
    (s : string) : string :=
  match s with
  | EmptyString => EmptyString
  | String c1 r1 =>
      if is_go_space c1 then trim_runes sp2 sp3 r1
      else
        match r1 with
        | EmptyString => s
        | String c2 r2 =>
            if sp2 c1 c2 then trim_runes sp2 sp3 r2
            else
              match r2 with
              | EmptyString => s
              | String c3 r3 => if sp3 c1 c2 c3 then trim_runes sp2 sp3 r3 else s
              end
        end
  end.

Fixpoint reverse (s : string) : string :=
  match s with
  | EmptyString => EmptyString
  | String c r => reverse r +++ str c
  end.

Definition trim_left (s : string) : string := trim_runes space2 space3 s.

(** From the end the bytes of a rune are met last byte first. *)
Definition trim_right (s : string) : string :=
  reverse (trim_runes (fun c2 c1 => space2 c1 c2) (fun c3 c2 c1 => space3 c1 c2 c3) (reverse s)).

Definition TrimSpace (s : string) : string := trim_right (trim_left s).

Fixpoint set_nth {A : Type} (i : nat) (x : A) (l : list A) : list A :=
  match l, i with
  | [], _ => []
  | _ :: r, O => x :: r
  | y :: r, S i' => y :: set_nth i' x r
  end.

Section Evaluators.
Context `{FC : FloatCodec}.

(** [type Result struct] *)
Record Result := {
  Input : Record;
  Output : list (string * value);
  Metadata : list (string * value);
  Error : option error
}.

(** The zero [Result], what [make ([]Result, n)] holds. *)
Definition zeroResult : Result :=
  {| Input := []; Output := []; Metadata := []; Error := None |}.

(** [Result{Input: record, Error: err}] *)
Definition failure (record : Record) (err : error) : Result :=
  {| Input := record; Output := []; Metadata := []; Error := Some err |}.

(** [GeminiEvaluator], without its HTTP client (see [World]); [params] may
    be [nil], which reads as the empty map. *)
Record GeminiEvaluator := {
  apiKey : string;
  model : string;
  params : list (string * value)
}.

(** [applyPromptTemplate]: the list order of [record] is the order of the
    [range] over the map. *)
Definition applyPromptTemplate (prompt : string) (record : Record) : string :=
  fold_left
    (fun processedPrompt kv =>
       let placeholder := "{{" +++ fst kv +++ "}}" in
       let valueStr := Sprint_v (snd kv) in
       ReplaceAll processedPrompt placeholder valueStr)
    record prompt.

(** [buildRequestBody] *)
Definition buildRequestBody (g : GeminiEvaluator) (prompt : string) : list (string * value) :=
  let requestBody :=
    [("contents", VSlice [VMap [("parts", VSlice [VMap [("text", VString prompt)]])]])] in
  let generationConfig := [] in
  let generationConfig :=
    match lookup "temperature" (params g) with
    | Some temp => map_set "temperature" temp generationConfig
    | None => generationConfig
    end in
  let generationConfig :=
    match lookup "max_tokens" (params g) with
    | Some maxTokens => map_set "maxOutputTokens" maxTokens generationConfig
    | None => generationConfig
    end in
  if (0 <? List.length generationConfig)%nat
  then map_set "generationConfig" (VMap generationConfig) requestBody
  else requestBody.

(** [json.NewDecoder (body).Decode (&m)] for [m map[string]interface{}]. *)
Definition Decode_map (data : string) : error + list (string * value) :=
  match scan_stream data with
  | inr (JObject m) => store_members m []
  | inr JNull => inr []
  | inr t => inl ("json: cannot unmarshal " +++ json_kind t
                  +++ " into Go value of type map[string]interface {}")
  | inl e => inl e
  end.

(** [makeAPICall] *)
Definition makeAPICall (g : GeminiEvaluator) (w : World) (requestBody : list (string * value))
  : (error + list (string * value)) * World :=
  let url := "https://generativelanguage.googleapis.com/v1beta/models/" +++ model g
             +++ ":generateContent?key=" +++ apiKey g in
  match Marshal (VMap requestBody) with
  | None => (inl "failed to marshal request body: json: unsupported value", w)
  | Some jsonBody =>
      match http_NewRequest (net w) url with
      | Some err => (inl ("failed to create request: " +++ err), w)
      | None =>
          let req := {| req_url := url; req_body := jsonBody |} in
          let w' := {| net := net w; sent := sent w ++ [req] |} in
          match http_Do (net w) (sent w) req with
          | inl err => (inl ("API request failed: " +++ err), w')
          | inr resp =>
              if negb (StatusCode resp =? 200)%Z then
                match Decode_map (Body resp) with
                | inl _ => (inl ("API returned status " +++ itoa (StatusCode resp)), w')
                | inr errorResponse => (inl ("API error: " +++ Sprint_v (VMap errorResponse)), w')
                end
              else
                match Decode_map (Body resp) with
                | inl err => (inl ("failed to decode response: " +++ err), w')
                | inr response => (inr response, w')
                end
          end
      end
  end.

Definition copy_key (from : list (string * value)) (key : string) (as_ : string)
    (to : list (string * value)) : list (string * value) :=
  match lookup key from with
  | Some v => map_set as_ v to
  | None => to
  end.

(** [parseResponse] *)
Definition parseResponse (response : list (string * value))
  : error + (list (string * value) * list (string * value)) :=
  match lookup "candidates" response with
  | Some (VSlice (candidate0 :: _)) =>
      match candidate0 with
      | VMap candidate =>
          match lookup "content" candidate with
          | Some (VMap content) =>
              match lookup "parts" content with
              | Some (VSlice (part0 :: _)) =>
                  match part0 with
                  | VMap part =>
                      match lookup "text" part with
                      | Some (VString text) =>
                          let output := map_set "response" (VString text) [] in
                          let trimmedText := TrimSpace text in
                          let output :=
                            if HasPrefix trimmedText "{" || HasPrefix trimmedText "[" then
                              match Unmarshal trimmedText with
                              | inr jsonOutput => map_set "parsed" jsonOutput output
                              | inl _ => output
                              end
                            else output in
                          let metadata := copy_key candidate "safetyRatings" "safetyRatings" [] in
                          let metadata := copy_key candidate "finishReason" "finishReason" metadata in
                          let metadata := copy_key response "usageMetadata" "usage" metadata in
                          inr (output, metadata)
                      | _ => inl "no text in part"
                      end
                  | _ => inl "invalid part format"
                  end
              | _ => inl "no parts in content"
              end
          | _ => inl "no content in candidate"
          end
      | _ => inl "invalid candidate format"
      end
  | _ => inl "no candidates in response"
  end.

(** [Evaluate] *)
Definition Evaluate (g : GeminiEvaluator) (w : World) (record : Record) (prompt : string)
  : (Result * option error) * World :=
  let processedPrompt := applyPromptTemplate prompt record in
  let requestBody := buildRequestBody g processedPrompt in
  match makeAPICall g w requestBody with
  | (inl err, w') => ((failure record err, Some err), w')
  | (inr response, w') =>
      match parseResponse response with
      | inl err => ((failure record err, Some err), w')
      | inr (output, metadata) =>
          (({| Input := record; Output := output; Metadata := metadata; Error := None |}, None), w')
      end
  end.

(** The loop of [BatchEvaluate]: [i] is the index of the head of [records]
    in the slice of the call, [results] the slice made before the loop.
    (An index out of range would panic in Go; [i] is always in range.) *)
Fixpoint BatchEvaluate_loop (g : GeminiEvaluator) (prompt : string) (i : nat)
    (records : list Record) (results : list Result) (w : World) : list Result * World :=
  match records with
  | [] => (results, w)
  | record :: rest =>
      match Evaluate g w record prompt with
      | ((_, Some err), w') =>
          BatchEvaluate_loop g prompt (S i) rest (set_nth i (failure record err) results) w'
      | ((result, None), w') =>
          BatchEvaluate_loop g prompt (S i) rest (set_nth i result results) w'
      end
  end.

(** [BatchEvaluate] *)
Definition BatchEvaluate (g : GeminiEvaluator) (w : World) (records : list Record) (prompt : string)
  : (list Result * option error) * World :=
  let results := repeat zeroResult (List.length records) in
  let (results', w') := BatchEvaluate_loop g prompt 0 records results w in
  ((results', None), w').

End Evaluators.

(** ** The batch loop, record by record *)

Section Dispatch.
Context `{FC : FloatCodec}.

(** The world in which the record after [records] is evaluated. *)
Fixpoint world_after (g : GeminiEvaluator) (prompt : string) (w : World) (records : list Record) : World :=
  match records with
  | [] => w
  | record :: rest => world_after g prompt (snd (Evaluate g w record prompt)) rest
  end.

(** The results [Evaluate] returns for the records in turn. *)
Fixpoint evals (g : GeminiEvaluator) (prompt : string) (w : World) (records : list Record) : list Result :=
  match records with
  | [] => []
  | record :: rest =>
      fst (fst (Evaluate g w record prompt))
      :: evals g prompt (snd (Evaluate g w record prompt)) rest
  end.







End Dispatch.

(** ** Kinds and templates, as the specification words them *)

Section Specification.
Context `{FC : FloatCodec}.

Inductive Kind := KString | KNumber | KBoolean | KArray | KObject.

Definition kind_of_name (name : string) : option Kind :=
  if String.eqb name "string" then Some KString
  else if String.eqb name "number" then Some KNumber
  else if String.eqb name "boolean" then Some KBoolean
  else if String.eqb name "array" then Some KArray
  else if String.eqb name "object" then Some KObject
  else None.

(** The dynamic types a kind takes in the code: the cases of the type
    switches of [validateFieldType]. *)
Inductive has_kind : value -> Kind -> Prop :=
| text_is_string s : has_kind (VString s) KString
| float64_is_number f : has_kind (VFloat64 f) KNumber
| float32_is_number f : has_kind (VFloat32 f) KNumber
| int_is_number n : has_kind (VInt n) KNumber
| int32_is_number n : has_kind (VInt32 n) KNumber
| int64_is_number n : has_kind (VInt64 n) KNumber
| bool_is_boolean b : has_kind (VBool b) KBoolean
| slice_is_array l : has_kind (VSlice l) KArray
| map_is_object m : has_kind (VMap m) KObject.

(** The acceptance rule as the specification words it: string accepts only
    textual values, number any numeric representation, integer or floating,
    boolean only true and false, array any ordered sequence, object any
    nested mapping.  Beyond the types of [has_kind], the integers of the
    other widths and the unsigned integers are numeric representations, a
    value of a slice or array type is an ordered sequence, and a value of a
    map type is a mapping; they are told by the name of the type. *)
Definition go_integer_types : list string :=
  ["int8"; "int16"; "uint"; "uint8"; "uint16"; "uint32"; "uint64"; "uintptr"].

Inductive spec_kind : value -> Kind -> Prop :=
| switch_type v k : has_kind v k -> spec_kind v k
| integer_is_numeric T text encoding :
    In T go_integer_types -> spec_kind (VOther T text encoding) KNumber
| slice_is_sequence T text encoding :
    HasPrefix T "[" = true -> spec_kind (VOther T text encoding) KArray
| map_is_mapping T text encoding :
    HasPrefix T "map[" = true -> spec_kind (VOther T text encoding) KObject.

Definition spec_conforms (record : Record) (schema : SchemaConfig) : Prop :=
  Forall (fun field =>
            exists v k, lookup (Name field) record = Some v
                        /\ kind_of_name (Type_ field) = Some k /\ spec_kind v k)
         (Fields schema).

(** [record] holds the field with a value of a dynamic type the code takes
    for the declared kind. *)
Definition field_ok (record : Record) (field : FieldConfig) : Prop :=
  exists v k, lookup (Name field) record = Some v
              /\ kind_of_name (Type_ field) = Some k /\ has_kind v k.

Definition conforms (record : Record) (schema : SchemaConfig) : Prop :=
  Forall (field_ok record) (Fields schema).

(** A document that is the empty array, white space around and inside the
    brackets allowed. *)
Fixpoint blank (s : string) : bool :=
  match s with
  | EmptyString => true
  | String c r => is_space c && blank r
  end.

Definition empty_array_document (data : string) : Prop :=
  exists a b c,
    blank a = true /\ blank b = true /\ blank c = true
    /\ data = a +++ "[" +++ b +++ "]" +++ c.

(** A value a configuration map holds under [key] as a string. *)
Definition configured_string (key : string) (cfg : list (string * value)) : option string :=
  match lookup key cfg with
  | Some (VString s) => Some s
  | _ => None
  end.

(** A template as literal text and placeholders. *)
Inductive token := Lit (text : string) | Hole (name : string).

Definition placeholder (name : string) : string := "{{" +++ name +++ "}}".

Definition token_text (t : token) : string :=
  match t with
  | Lit s => s
  | Hole n => placeholder n
  end.

Definition template_text (toks : list token) : string := String.concat "" (map token_text toks).

(** Rendering as the specification words it: each placeholder of a field
    the record has becomes the value's text, every other placeholder and all
    literal text stay. *)
Definition render_token (record : Record) (t : token) : string :=
  match t with
  | Lit s => s
  | Hole n =>
      match lookup n record with
      | Some v => Sprint_v v
      | None => placeholder n
      end
  end.

Definition render (toks : list token) (record : Record) : string :=
  String.concat "" (map (render_token record) toks).

(** The placeholder of [k] filled with the text [v], in one token and in a
    token under the entries of a record taken in turn. *)
Definition fill (k v : string) (t : token) : token :=
  match t with
  | Hole n => if String.eqb n k then Lit v else t
  | Lit _ => t
  end.

Definition fill_all (entries : list (string * value)) (t : token) : token :=
  fold_left (fun t kv => fill (fst kv) (Sprint_v (snd kv)) t) entries t.

Definition no_open_brace (s : string) : bool := negb (contains_char s "{").

Definition brace_free (s : string) : bool :=
  negb (contains_char s "{") && negb (contains_char s "}").

(** Braces occur in the template only as the delimiters of placeholders. *)
Definition plain_token (t : token) : Prop :=
  match t with
  | Lit s => no_open_brace s = true
  | Hole n => brace_free n = true
  end.

Definition plain_entry (kv : string * value) : Prop :=
  brace_free (fst kv) = true /\ no_open_brace (Sprint_v (snd kv)) = true.

End Specification.

(** ** Concrete inputs *)

(** Texts are written with ['] for the double quote and [~] for the newline. *)
Definition txt (s : string) : string := ReplaceAll (ReplaceAll s "'" dq) "~" nl.

(** [strings.Contains] *)
Fixpoint Contains (s substr : string) : bool :=
  String.prefix substr s
  || match s with
     | String _ r => Contains r substr
     | EmptyString => false
     end.

Fixpoint after_last_slash (s : string) : string :=
  match s with
  | EmptyString => EmptyString
  | String c r =>
      if contains_char r "/" then after_last_slash r
      else if Ascii.eqb c "/" then r else s
  end.

Fixpoint before_last_slash (s : string) : string :=
  match s with
  | EmptyString => EmptyString
  | String c r => if contains_char r "/" then String c (before_last_slash r) else EmptyString
  end.

(** A file system of clean slash-separated paths that holds the regular
    files of [files] and nothing else, and in which every directory can be
    made and every file created. *)
Definition find_file (files : list (string * string)) (p : string) : option string :=
  option_map snd (find (fun f => String.eqb (fst f) p) files).

Definition os_of (files : list (string * string)) : OS :=
  {| filepath_IsAbs := fun p => HasPrefix p "/";
     filepath_Base := after_last_slash;
     filepath_Dir := fun p =>
       match before_last_slash p with
       | EmptyString => if HasPrefix p "/" then "/" else "."
       | d => d
       end;
     filepath_Glob := fun pattern =>
       inr (map fst (filter (fun f => String.eqb (fst f) pattern) files));
     os_Stat := fun p =>
       match find_file files p with
       | Some _ => inr false
       | None => inl ("stat " +++ p +++ ": no such file or directory")
       end;
     os_Open := fun p =>
       match find_file files p with
       | Some data => inr data
       | None => inl ("open " +++ p +++ ": no such file or directory")
       end;
     os_MkdirAll := fun _ => None;
     os_Create := fun _ => None |}.

(** A codec for the examples: the integral floats, in decimal. *)
Definition IntFloats : FloatCodec :=
  {| float64 := Z; float32 := Z;
     ParseFloat := fun lit => option_map Z.of_int (NilEmpty.int_of_string lit);
     json_float64 := fun z => Some (itoa z);
     json_float32 := fun z => Some (itoa z);
     fmt_float64 := itoa;
     fmt_float32 := itoa |}.

Definition text_schema : SchemaConfig := {| Fields := [{| Name := "text"; Type_ := "string" |}] |}.

Definition out_path : string := "/data/out.json".

Definition cfg_of (p m : string) : list (string * value (FC := IntFloats)) :=
  [("path", VString p); ("mode", VString m)].

(** The source [NewJSONSource] gives for [out_path] and a mode. *)
Definition source_of (m : string) : JSONSource :=
  {| path := out_path; mode := m; schema := text_schema; isWritable := false; writer := None |}.

Definition rec_a : Record (FC := IntFloats) := [("text", VString "a")].
Definition rec_b : Record (FC := IntFloats) := [("text", VString "b")].
Definition rec_hi : Record (FC := IntFloats) := [("text", VString "hi")].

(** The source after the given [Write] calls, each with a live context, and
    a [Close]. *)
Definition write_all (j : JSONSource) (calls : list (list (Record (FC := IntFloats)))) : JSONSource :=
  fst (Close (fold_left (fun j records => fst (Write (os_of []) j Background records)) calls j)).

(** Two records that name each other's placeholder. *)
Definition crossed : Record (FC := IntFloats) :=
  [("a", VString "{{b}}"); ("b", VString "{{a}}")].

Definition crossed_template : list token := [Hole "a"; Lit " "; Hole "b"].

Definition nested : Record (FC := IntFloats) := [("a", VString ""); ("b", VString "x")].

Definition text_template : list token := [Lit "Text: "; Hole "text"].

Definition labelled : Record (FC := IntFloats) := [("text", VString "hi"); ("label", VString "x")].

(** An evaluator, and a network that refuses every request whose body
    mentions "boom" and answers every other with one candidate. *)
Definition gemini : GeminiEvaluator (FC := IntFloats) :=
  {| apiKey := "key"; model := "gemini-pro"; params := [] |}.

Definition ok_body : string :=
  txt "{'candidates':[{'content':{'parts':[{'text':'positive'}]},'finishReason':'STOP'}]}".

Definition moody_net : Network :=
  {| http_NewRequest := fun _ => None;
     http_Do := fun _ req =>
       if Contains (req_body req) "boom" then inl "connection refused"
       else inr {| StatusCode := 200; Body := ok_body |} |}.

Definition rec_boom : Record (FC := IntFloats) := [("text", VString "boom")].
Definition rec_fine : Record (FC := IntFloats) := [("text", VString "fine")].

Definition fresh_world : World := {| net := moody_net; sent := [] |}.

Definition text_prompt : string := "Text: {{text}}".

(** The inputs of the tests of the package ([json_source_test.go]). *)
Definition sentiment_schema : SchemaConfig :=
  {| Fields := [{| Name := "text"; Type_ := "string" |};
                {| Name := "predicted_sentiment"; Type_ := "string" |}] |}.

Definition result_schema : SchemaConfig :=
  {| Fields := [{| Name := "text"; Type_ := "string" |};
                {| Name := "result"; Type_ := "string" |}] |}.

Definition test_source (p m : string) (schema : SchemaConfig) : JSONSource :=
  {| path := p; mode := m; schema := schema; isWritable := false; writer := None |}.

Definition lines_test_data : string :=
  txt "{'text': 'Line 1', 'predicted_sentiment': 'positive'}~{'text': 'Line 2', 'predicted_sentiment': 'negative'}~{'text': 'Line 3', 'predicted_sentiment': 'neutral'}".

Definition array_test_data : string :=
  txt "[~  {~    'predicted_sentiment': 'positive',~    'text': 'This is positive'~  },~  {~    'predicted_sentiment': 'negative',~    'text': 'This is negative'~  }~]".

Definition invalid_test_data : string :=
  txt "[~  {~    'text': 'This is text'~  }~]".

Definition write_test_records : list (Record (FC := IntFloats)) :=
  [[("text", VString "Test 1"); ("result", VString "positive")];
   [("text", VString "Test 2"); ("result", VString "negative")]].

Definition boom_batch : list (Record (FC := IntFloats)) := [rec_boom; rec_fine].


(** ** The factories and the configuration validator *)

Section Configuration.
Context `{FC : FloatCodec}.

(** [sources/factory.go]: [CreateSource] *)
Definition CreateSource (cfg : list (string * value)) (format : string) (schema : SchemaConfig)
  : error + JSONSource :=
  if String.eqb format "json" then NewJSONSource cfg schema
  else if String.eqb format "csv" then inl "CSV source not yet implemented"
  else if String.eqb format "parquet" then inl "Parquet source not yet implemented"
  else inl ("unsupported format: " +++ format).

(** [config/types.go], with the name of the struct before the names that
    several structs share. *)
Record ExperimentConfig := {
  ExperimentName : string;
  ExperimentVersion : string;
  ExperimentMetadata : list (string * value)
}.

Record InputConfig := {
  InputID : string;
  InputFormat : string;
  InputConfig_Config : list (string * value);
  InputSchema : SchemaConfig
}.

Record OutputConfig := {
  OutputID : string;
  OutputFormat : string;
  OutputConfig_Config : list (string * value);
  OutputSchema : SchemaConfig
}.

Record AuthConfig := { APIKeyEnv : string }.

Record MappingsConfig := {
  MappingsInput : list (string * string);
  MappingsOutput : list (string * string)
}.

Record EvaluationConfig := {
  Provider : string;
  Model : string;
  Params : list (string * value);
  Auth : AuthConfig;
  Strategy : string;
  Prompt : string;
  Mappings : MappingsConfig
}.

Record Config := {
  Experiment : ExperimentConfig;
  Inputs : list InputConfig;
  Outputs : list OutputConfig;
  Evaluation : EvaluationConfig;
  Controls : ControlsConfig
}.

(** [NewGeminiEvaluator]; [getenv] is [os.Getenv], the empty string for a
    variable that is not set. *)
Definition NewGeminiEvaluator (getenv : string -> string) (cfg : EvaluationConfig)
  : error + GeminiEvaluator :=
  let apiKey := getenv (APIKeyEnv (Auth cfg)) in
  if String.eqb apiKey ""
  then inl ("API key environment variable " +++ APIKeyEnv (Auth cfg) +++ " is not set")
  else inr {| apiKey := apiKey; model := Model cfg; params := Params cfg |}.

(** [evaluators/factory.go]: [CreateEvaluator] *)
Definition CreateEvaluator (getenv : string -> string) (provider : string) (cfg : EvaluationConfig)
  : error + GeminiEvaluator :=
  if String.eqb provider "gemini" then NewGeminiEvaluator getenv cfg
  else if String.eqb provider "openai" then inl "OpenAI evaluator not yet implemented"
  else if String.eqb provider "anthropic" then inl "Anthropic evaluator not yet implemented"
  else if String.eqb provider "bedrock" then inl "Bedrock evaluator not yet implemented"
  else inl ("unsupported provider: " +++ provider).

(** [config/validator.go]: [contains] *)
Fixpoint contains (slice : list string) (item : string) : bool :=
  match slice with
  | [] => false
  | s :: rest => if String.eqb s item then true else contains rest item
  end.

Definition validateExperiment (exp : ExperimentConfig) : option error :=
  if String.eqb (ExperimentName exp) "" then Some "experiment.name is required"
  else if String.eqb (ExperimentVersion exp) "" then Some "experiment.version is required"
  else None.

(** The loop of [validateSchema] over the fields; [i] is the index. *)
Fixpoint validateSchema_loop (prefix : string) (i : nat) (fields : list FieldConfig) : option error :=
  match fields with
  | [] => None
  | field :: rest =>
      let at_i := prefix +++ ".schema.fields[" +++ itoa (Z.of_nat i) +++ "]: " in
      if String.eqb (Name field) "" then Some (at_i +++ "name is required")
      else if String.eqb (Type_ field) "" then Some (at_i +++ "type is required")
      else if negb (contains ["string"; "number"; "boolean"; "array"; "object"] (Type_ field))
      then Some (at_i +++ "unsupported type " +++ Type_ field)
      else validateSchema_loop prefix (S i) rest
  end.

Definition validateSchema (schema : SchemaConfig) (prefix : string) : option error :=
  if (List.length (Fields schema) =? 0)%nat
  then Some (prefix +++ ": schema must have at least one field")
  else validateSchema_loop prefix 0 (Fields schema).

Definition validateInput (input : InputConfig) (index : nat) : option error :=
  let at_i := "input[" +++ itoa (Z.of_nat index) +++ "]" in
  if String.eqb (InputID input) "" then Some (at_i +++ ": id is required")
  else if String.eqb (InputFormat input) "" then Some (at_i +++ ": format is required")
  else if negb (contains ["json"; "csv"; "parquet"] (InputFormat input))
  then Some (at_i +++ ": unsupported format " +++ InputFormat input)
  else if (List.length (InputConfig_Config input) =? 0)%nat
  then Some (at_i +++ ": config is required")
  else match lookup "path" (InputConfig_Config input) with
       | None => Some (at_i +++ ": config.path is required")
       | Some _ => validateSchema (InputSchema input) at_i
       end.

Definition validateOutput (output : OutputConfig) (index : nat) : option error :=
  let at_i := "output[" +++ itoa (Z.of_nat index) +++ "]" in
  if String.eqb (OutputID output) "" then Some (at_i +++ ": id is required")
  else if String.eqb (OutputFormat output) "" then Some (at_i +++ ": format is required")
  else if negb (contains ["json"; "csv"; "parquet"] (OutputFormat output))
  then Some (at_i +++ ": unsupported format " +++ OutputFormat output)
  else if (List.length (OutputConfig_Config output) =? 0)%nat
  then Some (at_i +++ ": config is required")
  else match lookup "path" (OutputConfig_Config output) with
       | None => Some (at_i +++ ": config.path is required")
       | Some _ => validateSchema (OutputSchema output) at_i
       end.

Definition validateEvaluation (eval : EvaluationConfig) : option error :=
  if String.eqb (Provider eval) "" then Some "evaluation.provider is required"
  else if negb (contains ["openai"; "anthropic"; "gemini"; "bedrock"] (Provider eval))
  then Some ("evaluation: unsupported provider " +++ Provider eval)
  else if String.eqb (Model eval) "" then Some "evaluation.model is required"
  else if String.eqb (APIKeyEnv (Auth eval)) "" then Some "evaluation.auth.api_key_env is required"
  else if String.eqb (Strategy eval) "" then Some "evaluation.strategy is required"
  else if negb (contains ["classification"; "extraction"; "generation"] (Strategy eval))
  then Some ("evaluation: unsupported strategy " +++ Strategy eval)
  else if String.eqb (Prompt eval) "" then Some "evaluation.prompt is required"
  else if negb (Contains (Prompt eval) "{{")
  then Some "evaluation.prompt must contain at least one template variable"
  else None.

Definition validateControls (controls : ControlsConfig) : option error :=
  if (Concurrency controls <=? 0)%Z then Some "controls.concurrency must be greater than 0"
  else if String.eqb (OnError controls) "" then Some "controls.on_error is required"
  else if negb (contains ["retry"; "skip"; "fail"] (OnError controls))
  then Some ("controls: unsupported on_error value " +++ OnError controls)
  else None.

(** The loops of [Validate] over the inputs and the outputs. *)
Fixpoint validateInputs (i : nat) (inputs : list InputConfig) : option error :=
  match inputs with
  | [] => None
  | input :: rest =>
      match validateInput input i with
      | Some err => Some err
      | None => validateInputs (S i) rest
      end
  end.

Fixpoint validateOutputs (i : nat) (outputs : list OutputConfig) : option error :=
  match outputs with
  | [] => None
  | output :: rest =>
      match validateOutput output i with
      | Some err => Some err
      | None => validateOutputs (S i) rest
      end
  end.

(** [Validate]; [None] as the argument is the [nil] pointer. *)
Definition Validate (config : option Config) : option error :=
  match config with
  | None => Some "config is nil"
  | Some config =>
      match validateExperiment (Experiment config) with
      | Some err => Some err
      | None =>
          if (List.length (Inputs config) =? 0)%nat then Some "at least one input is required"
          else match validateInputs 0 (Inputs config) with
               | Some err => Some err
               | None =>
                   if (List.length (Outputs config) =? 0)%nat
                   then Some "at least one output is required"
                   else match validateOutputs 0 (Outputs config) with
                        | Some err => Some err
                        | None =>
                            match validateEvaluation (Evaluation config) with
                            | Some err => Some err
                            | None => validateControls (Controls config)
                            end
                        end
               end
      end
  end.

End Configuration.

(** ** Records of plain text *)

(** Text of bytes below 0x80. *)
Fixpoint ascii_text (s : string) : bool :=
  match s with
  | EmptyString => true
  | String c r => (code c <? 128)%nat && ascii_text r
  end.

Section TextRecords.
Context `{FC : FloatCodec}.

(** An entry whose key and value are such text, and a record of such
    entries under distinct keys. *)
Definition text_entry (kv : string * value) : bool :=
  ascii_text (fst kv) && match snd kv with VString s => ascii_text s | _ => false end.

Definition text_record (record : Record) : Prop :=
  NoDup (keys record) /\ forallb text_entry record = true.

(** The tree of the text the encoder writes for such a record: the
    entries in the order of the keys. *)
Definition entry_tree (kv : string * value) : string * json :=
  (fst kv, match snd kv with VString s => JString s | _ => JNull end).

Definition record_tree (record : Record) : json :=
  JObject (map entry_tree (sort_by_key record)).

End TextRecords.

(** ** Further concrete inputs *)

(** A file system in which every pattern matches the names of [names] in
    that order, the names of [dirs] are directories and [files] are the
    regular files. *)
Definition tree_os (names dirs : list string) (files : list (string * string)) : OS :=
  {| filepath_IsAbs := filepath_IsAbs (os_of files);
     filepath_Base := filepath_Base (os_of files);
     filepath_Dir := filepath_Dir (os_of files);
     filepath_Glob := fun _ => inr names;
     os_Stat := fun p =>
       if existsb (String.eqb p) dirs then inr true else os_Stat (os_of files) p;
     os_Open := os_Open (os_of files);
     os_MkdirAll := os_MkdirAll (os_of files);
     os_Create := os_Create (os_of files) |}.

Definition pattern_source : JSONSource := test_source "data/*.json" "array" text_schema.

Definition a_file : string := txt "[{'text': 'a'}]".
Definition b_file : string := txt "[{'text': 'b'}]".

Definition data_os : OS :=
  tree_os ["data/a.json"; "data/b.json"] []
          [("data/a.json", a_file); ("data/b.json", b_file)].

Definition broken_os : OS :=
  tree_os ["data/a.json"; "data/c.json"; "data/b.json"] []
          [("data/a.json", a_file); ("data/c.json", "oops"); ("data/b.json", b_file)].

Definition mixed_os : OS :=
  tree_os ["data/a.json"; "data/sub"; "data/gone.json"] ["data/sub"] [("data/a.json", a_file)].

(** A context that is done from the second poll on. *)
Definition cancelled_after_one : Ctx :=
  fun i => if (i =? 0)%nat then None else Some "context canceled".

Definition rec_unlabelled : Record (FC := IntFloats) := [("label", VString "x")].

Definition a_text : string := txt "{~  'text': 'a'~}~".
Definition b_text : string := txt "{~  'text': 'b'~}~".

(** A source in array mode whose file is open. *)
Definition open_source : JSONSource :=
  {| path := out_path; mode := "array"; schema := text_schema; isWritable := true;
     writer := Some {| file_name := out_path; file_data := "[" +++ nl;
                       file_closed := false |} |}.





(** A configuration the validator accepts, with formats and a provider
    the factories do not make. *)
Definition csv_config : Config (FC := IntFloats) :=
  {| Experiment := {| ExperimentName := "sentiment"; ExperimentVersion := "1";
                      ExperimentMetadata := [] |};
     Inputs := [{| InputID := "in"; InputFormat := "csv";
                   InputConfig_Config := [("path", VString "in.csv")];
                   InputSchema := text_schema |}];
     Outputs := [{| OutputID := "out"; OutputFormat := "parquet";
                    OutputConfig_Config := [("path", VString "out.parquet")];
                    OutputSchema := text_schema |}];
     Evaluation := {| Provider := "openai"; Model := "gpt"; Params := [];
                      Auth := {| APIKeyEnv := "API_KEY" |};
                      Strategy := "classification"; Prompt := text_prompt;
                      Mappings := {| MappingsInput := []; MappingsOutput := [] |} |};
     Controls := {| Concurrency := 2; OnError := "skip" |} |}.

(** The file system after [rec_a] and [rec_b] were written to [out_path]
    in array mode. *)
Definition round_os : OS :=
  os_of [(out_path, written (write_all (source_of "array") [[rec_a; rec_b]]))].

(** A record that holds [uint (3)] under a number field. *)
Definition count_schema : SchemaConfig :=
  {| Fields := [{| Name := "count"; Type_ := "number" |}] |}.

Definition uint_3 : value (FC := IntFloats) := VOther "uint" "3" (fun _ => Some "3").

Definition rec_count : Record (FC := IntFloats) := [("count", uint_3)].

(** A text with a no-break space (U+00A0) before an object and a line
    separator (U+2028) after it. *)
Definition nbsp_object : string :=
  String (ascii_of_nat 194) (String (ascii_of_nat 160) (txt "{'a':true}"))
  +++ String (ascii_of_nat 226) (String (ascii_of_nat 128) (str (ascii_of_nat 168))).

(** A line of 64 KiB. *)
Definition long_line : string := repeat_string "x" (N.to_nat 65536).

(** * Properties *)

(** ** The decoder's recursion bound *)

Lemma within_weaken {A : Type} (n m : nat) (r : presult A) :
  n <= m -> within n r -> within m r.
Proof. destruct r; simpl; intros; try assumption. lia. Qed.

Lemma within_pbind {A B : Type} (n m : nat) (r : presult A) (k : A -> string -> presult B) :
  within n r ->
  (forall a rest, String.length rest <= n -> within m (k a rest)) ->
  within m (pbind r k).
Proof. destruct r; simpl; intros H Hk; try assumption; try exact I. apply Hk. exact H. Qed.

Lemma within_pmap {A B : Type} (n : nat) (f : A -> B) (r : presult A) :
  within n r -> within n (pmap f r).
Proof. destruct r; simpl; intros H; assumption. Qed.

Lemma skip_space_length (s : string) : String.length (skip_space s) <= String.length s.
Proof.
  induction s as [| c s IH]; simpl; [lia |].
  destruct (is_space c); simpl; lia.
Qed.

Lemma span_digits_length (s : string) :
  String.length (snd (span_digits s)) <= String.length s.
Proof.
  induction s as [| c s IH]; simpl; [lia |].
  destruct (is_digit c); [| simpl; lia].
  destruct (span_digits s) as [d r]. simpl in *. lia.
Qed.

Lemma scan_digits1_within (context s : string) :
  within (String.length s) (scan_digits1 context s).
Proof.
  unfold scan_digits1. destruct s as [| c r]; [exact I |].
  destruct (is_digit c); [| exact I].
  pose proof (span_digits_length (String c r)) as H.
  destruct (span_digits (String c r)) as [d r']. exact H.
Qed.

Lemma scan_int_within (s : string) : within (pred (String.length s)) (scan_int s).
Proof.
  unfold scan_int. destruct s as [| c r]; [exact I |].
  destruct (Ascii.eqb c "0"); [simpl; lia |].
  destruct (is_digit c); [| exact I].
  pose proof (span_digits_length r) as H.
  destruct (span_digits r) as [d r']. exact H.
Qed.

Lemma scan_frac_within (s : string) : within (String.length s) (scan_frac s).
Proof.
  unfold scan_frac. destruct s as [| c r]; [simpl; lia |].
  destruct (Ascii.eqb c "."); [| simpl; lia].
  apply within_pmap. eapply within_weaken; [| apply scan_digits1_within]. simpl. lia.
Qed.

Lemma scan_exp_within (s : string) : within (String.length s) (scan_exp s).
Proof.
  unfold scan_exp. destruct s as [| c r]; [simpl; lia |].
  destruct (Ascii.eqb c "e" || Ascii.eqb c "E"); [| simpl; lia].
  destruct r as [| c2 r2].
  - apply within_pmap. exact I.
  - destruct (Ascii.eqb c2 "+" || Ascii.eqb c2 "-"); apply within_pmap;
      (eapply within_weaken; [| apply scan_digits1_within]); simpl; lia.
Qed.

Lemma scan_number_within (c : ascii) (r : string) :
  within (String.length r) (scan_number (String c r)).
Proof.
  unfold scan_number.
  assert (forall sign s1, String.length s1 <= S (String.length r) ->
            within (String.length r)
              (pbind (scan_int s1) (fun i r1 =>
               pbind (scan_frac r1) (fun f r2 =>
               pbind (scan_exp r2) (fun e r3 => POk (sign +++ i +++ f +++ e) r3))))) as H.
  { intros sign s1 Hs1.
    eapply within_pbind; [apply scan_int_within |]. intros i r1 H1.
    eapply within_pbind; [apply scan_frac_within |]. intros f r2 H2.
    eapply within_pbind; [apply scan_exp_within |]. intros e r3 H3.
    simpl. lia. }
  destruct (Ascii.eqb c "-"); apply H; simpl; lia.
Qed.

Lemma scan_literal_within (name tail s : string) :
  within (String.length s) (scan_literal name tail s).
Proof.
  revert s. induction tail as [| e t IH]; intros s; simpl; [lia |].
  destruct s as [| c r]; [exact I |].
  destruct (Ascii.eqb c e); [| exact I].
  eapply within_weaken; [| apply IH]. simpl. lia.
Qed.

Lemma hexn_within (n : nat) (acc : N) (s : string) :
  within (String.length s) (hexn n acc s).
Proof.
  revert acc s. induction n as [| n IH]; intros acc s; simpl; [lia |].
  destruct s as [| c r]; [exact I |].
  destruct (hexval c); [| exact I].
  eapply within_weaken; [| apply IH]. simpl. lia.
Qed.

Lemma next_u4_length (s : string) (rr : N) (rest : string) :
  next_u4 s = Some (rr, rest) -> String.length rest <= String.length s.
Proof.
  unfold next_u4. destruct s as [| c1 [| c2 r]]; try discriminate.
  destruct (Ascii.eqb c1 "\" && Ascii.eqb c2 "u"); [| discriminate].
  pose proof (hexn_within 4 0 r) as H.
  destruct (hexn 4 0 r); try discriminate.
  intros [= <- <-]. simpl in *. lia.
Qed.

Lemma utf8_head_length (c : ascii) (r bytes rest : string) :
  utf8_head c r = Some (bytes, rest) -> String.length rest <= String.length r.
Proof.
  unfold utf8_head.
  destruct (utf8_width c r) as [| [| [| [| [| n]]]]]; try discriminate;
    destruct r as [| c2 [| c3 [| c4 r4]]]; try discriminate;
    intros [= _ <-]; simpl; lia.
Qed.

Lemma parse_chars_within (fuel : nat) :
  forall s, String.length s < fuel -> within (pred (String.length s)) (parse_chars fuel s).
Proof.
  induction fuel as [| f IH]; intros s Hs; [lia |].
  cbn [parse_chars]. destruct s as [| c r]; [exact I |]. simpl in Hs.
  assert (forall p t, String.length t <= String.length r ->
            within (pred (String.length (String c r))) (pcons p (parse_chars f t))) as Hstep.
  { intros p t Ht. apply within_pmap.
    eapply within_weaken; [| apply IH]; simpl; lia. }
  destruct (Ascii.eqb c DQ); [simpl; lia |].
  destruct (Ascii.eqb c "\").
  - destruct r as [| e r']; [exact I |].
    destruct (Ascii.eqb e "u").
    + eapply within_pbind; [apply hexn_within |]. intros rr r2 H2.
      destruct (is_surrogate rr).
      * destruct (next_u4 r2) as [[rr1 r4] |] eqn:E.
        -- apply next_u4_length in E.
           destruct (decode_surrogates rr rr1 =? replacement_char)%N;
             apply Hstep; simpl; lia.
        -- apply Hstep. simpl. lia.
      * apply Hstep. simpl. lia.
    + destruct (simple_escape e); [| exact I]. apply Hstep. simpl. lia.
  - destruct (codeN c <? 32)%N; [exact I |].
    destruct (codeN c <? 128)%N; [apply Hstep; lia |].
    destruct (utf8_head c r) as [[bytes rest] |] eqn:E; [| apply Hstep; lia].
    apply Hstep. apply utf8_head_length in E. exact E.
Qed.

Lemma parse_string_within (s : string) :
  within (pred (String.length s)) (parse_string s).
Proof. apply parse_chars_within. lia. Qed.

Section DecodeTotal.
Context `{FC : FloatCodec}.

Lemma parse_within (fuel : nat) :
  (forall s, 2 * String.length s < fuel ->
             within (pred (String.length s)) (parse_value fuel s))
  /\ (forall s acc, 2 * String.length s + 1 < fuel ->
                    within (pred (String.length s)) (parse_elements fuel s acc))
  /\ (forall s acc, 2 * String.length s + 1 < fuel ->
                    within (pred (String.length s)) (parse_members fuel s acc)).
Proof.
  induction fuel as [| f [IHv [IHe IHm]]]; [repeat split; intros; lia |].
  split; [| split].
  - intros s Hs. cbn [parse_value].
    pose proof (skip_space_length s) as Hsk.
    destruct (skip_space s) as [| c r]; [exact I |]. simpl in Hsk.
    destruct (Ascii.eqb c "{").
    { pose proof (skip_space_length r) as Hr.
      destruct (skip_space r) as [| c' r']; [exact I |]. simpl in Hr.
      destruct (Ascii.eqb c' "}"); [simpl; lia |].
      eapply within_weaken; [| apply IHm]; lia. }
    destruct (Ascii.eqb c "[").
    { pose proof (skip_space_length r) as Hr.
      destruct (skip_space r) as [| c' r']; [exact I |]. simpl in Hr.
      destruct (Ascii.eqb c' "]"); [simpl; lia |].
      eapply within_weaken; [| apply IHe]; lia. }
    destruct (Ascii.eqb c DQ).
    { apply within_pmap. eapply within_weaken; [| apply parse_string_within]. lia. }
    destruct (Ascii.eqb c "-" || is_digit c).
    { apply within_pmap. eapply within_weaken; [| apply scan_number_within]. simpl. lia. }
    destruct (Ascii.eqb c "t").
    { apply within_pmap. eapply within_weaken; [| apply scan_literal_within]. lia. }
    destruct (Ascii.eqb c "f").
    { apply within_pmap. eapply within_weaken; [| apply scan_literal_within]. lia. }
    destruct (Ascii.eqb c "n").
    { apply within_pmap. eapply within_weaken; [| apply scan_literal_within]. lia. }
    exact I.
  - intros s acc Hs. cbn [parse_elements].
    eapply within_pbind; [apply IHv; lia |]. intros v r Hr.
    pose proof (skip_space_length r) as Hsk.
    destruct (skip_space r) as [| c r']; [exact I |]. simpl in Hsk.
    destruct (Ascii.eqb c ","); [eapply within_weaken; [| apply IHe]; lia |].
    destruct (Ascii.eqb c "]"); [simpl; lia | exact I].
  - intros s acc Hs. cbn [parse_members].
    pose proof (skip_space_length s) as Hsk.
    destruct (skip_space s) as [| c r]; [exact I |]. simpl in Hsk.
    destruct (Ascii.eqb c DQ); [| exact I].
    eapply within_pbind; [apply parse_string_within |]. intros key r1 H1.
    pose proof (skip_space_length r1) as Hsk1.
    destruct (skip_space r1) as [| c1 r2]; [exact I |]. simpl in Hsk1.
    destruct (Ascii.eqb c1 ":"); [| exact I].
    eapply within_pbind; [apply IHv; lia |]. intros v r3 H3.
    pose proof (skip_space_length r3) as Hsk3.
    destruct (skip_space r3) as [| c3 r4]; [exact I |]. simpl in Hsk3.
    destruct (Ascii.eqb c3 ","); [eapply within_weaken; [| apply IHm]; lia |].
    destruct (Ascii.eqb c3 "}"); [simpl; lia | exact I].
Qed.

(** The decoder never uses up its recursion bound: on every input it gives
    a value and the rest of the input, or a Go error. *)
Lemma parse_json_total (data : string) : parse_json data <> PFuel.
Proof.
  unfold parse_json. intros H.
  pose proof (proj1 (parse_within (S (2 * String.length data))) data) as Hw.
  rewrite H in Hw. apply Hw. lia.
Qed.

End DecodeTotal.

(** The scanner's recursion bound: any bound beyond the length of the data
    gives the same tokens. *)
Lemma cut_line_tail (data line r : string) :
  cut_line data = (line, Some r) -> String.length r < String.length data.
Proof.
  revert line. induction data as [| c data IH]; simpl; intros line H; [discriminate H |].
  destruct (Ascii.eqb c LF).
  - injection H as _ <-. lia.
  - destruct (cut_line data) as [l [t |]] eqn:E; [| discriminate H].
    injection H as _ <-. specialize (IH l eq_refl). lia.
Qed.

Lemma scan_lines_bound (f : nat) :
  forall g data,
    String.length data < f -> String.length data < g ->
    scan_lines f data = scan_lines g data.
Proof.
  induction f as [| f IH]; intros g data Hf Hg; [lia |].
  destruct g as [| g]; [lia |]. cbn [scan_lines].
  destruct data as [| c data]; [reflexivity |].
  destruct (cut_line (String c data)) as [line [r |]] eqn:E; [| reflexivity].
  apply cut_line_tail in E.
  rewrite (IH g r) by lia. reflexivity.
Qed.

(** ** Record validation *)

Section ValidationProperties.
Context `{FC : FloatCodec}.

Lemma validateFieldType_ok (v : value) (name : string) :
  validateFieldType v name = None <-> exists k, kind_of_name name = Some k /\ has_kind v k.
Proof.
  unfold validateFieldType, kind_of_name.
  destruct (String.eqb name "string");
    [| destruct (String.eqb name "number");
       [| destruct (String.eqb name "boolean");
          [| destruct (String.eqb name "array");
             [| destruct (String.eqb name "object") ]]]].
  all: split.
  all: try (intros [k [Hk Hv]]; try discriminate Hk; injection Hk as <-; inversion Hv; reflexivity).
  all: intros H; destruct v; try discriminate H; eexists; (split; [reflexivity | constructor]).
Qed.

Lemma validateFields_ok (fields : list FieldConfig) (record : Record) :
  validateFields fields record = None <-> Forall (field_ok record) fields.
Proof.
  induction fields as [| field rest IH]; simpl.
  - split; [constructor | reflexivity].
  - destruct (lookup (Name field) record) as [v |] eqn:Hl.
    + destruct (validateFieldType v (Type_ field)) as [err |] eqn:Hv.
      * split; [discriminate |].
        intros H. inversion H as [| ? ? [v' [k [Hl' Hk]]] _]; subst.
        rewrite Hl in Hl'. injection Hl' as <-.
        assert (validateFieldType v (Type_ field) = None) as Hn
            by (apply validateFieldType_ok; exists k; exact Hk).
        congruence.
      * rewrite IH. split.
        -- intros H. constructor; [| exact H].
           apply validateFieldType_ok in Hv. destruct Hv as [k Hk].
           exists v, k. split; [exact Hl | exact Hk].
        -- intros H. inversion H; assumption.
    + split; [discriminate |].
      intros H. inversion H as [| ? ? [v' [k [Hl' _]]] _]; subst. congruence.
Qed.

Lemma lookup_map_set_other (k key : string) (v : value) (m : list (string * value)) :
  k <> key -> lookup key (map_set k v m) = lookup key m.
Proof.
  intros Hne. induction m as [| [k' w] r IH]; simpl.
  - destruct (String.eqb k key) eqn:E; [apply String.eqb_eq in E; contradiction | reflexivity].
  - destruct (String.eqb k' k) eqn:E; simpl.
    + apply String.eqb_eq in E; subst k'.
      destruct (String.eqb k key) eqn:E'; [apply String.eqb_eq in E'; contradiction | reflexivity].
    + destruct (String.eqb k' key); [reflexivity | exact IH].
Qed.

Lemma validateFields_extra_key (fields : list FieldConfig) (record : Record) (k : string) (v : value) :
  ~ In k (map Name fields) ->
  validateFields fields (map_set k v record) = validateFields fields record.
Proof.
  induction fields as [| field rest IH]; simpl; intros Hk; [reflexivity |].
  rewrite lookup_map_set_other by (intros ->; apply Hk; left; reflexivity).
  destruct (lookup (Name field) record); [| reflexivity].
  destruct (validateFieldType _ _); [reflexivity |].
  apply IH. intros Hin. apply Hk. right. exact Hin.
Qed.

(** C5: validation succeeds exactly when the record holds every declared
    field with a value whose dynamic type is one the type switch names for
    the declared kind (string; float64, float32, int, int32, int64; bool;
    []interface{}; map[string]interface{}); keys the schema does not declare
    do not change the verdict; nothing is coerced (the string "true" is not
    a boolean); and [nil] and the values of every other dynamic type fail
    every kind. *)
Theorem validateRecord_schema_completeness :
  (forall (j : JSONSource) (record : Record),
      validateRecord j record = None <-> conforms record (schema j))
  /\ (forall (j : JSONSource) (record : Record) (k : string) (v : value),
         ~ In k (map Name (Fields (schema j))) ->
         validateRecord j (map_set k v record) = validateRecord j record)
  /\ (exists err, validateFieldType (VString "true") "boolean" = Some err)
  /\ (forall n f g,
         validateFieldType (VInt n) "number" = None
         /\ validateFieldType (VInt32 n) "number" = None
         /\ validateFieldType (VInt64 n) "number" = None
         /\ validateFieldType (VFloat64 f) "number" = None
         /\ validateFieldType (VFloat32 g) "number" = None)
  /\ (forall T text encoding name,
         validateFieldType (VOther T text encoding) name <> None
         /\ validateFieldType VNil name <> None).
Proof.
  split; [| split; [| split; [| split]]].
  - intros j record. apply validateFields_ok.
  - intros j record k v Hk. apply validateFields_extra_key. exact Hk.
  - eexists. reflexivity.
  - intros n f g. repeat split.
  - intros T text encoding name. unfold validateFieldType.
    destruct (String.eqb name "string"); [split; discriminate |].
    destruct (String.eqb name "number"); [split; discriminate |].
    destruct (String.eqb name "boolean"); [split; discriminate |].
    destruct (String.eqb name "array"); [split; discriminate |].
    destruct (String.eqb name "object"); split; discriminate.
Qed.

End ValidationProperties.

(** ** Construction and reading *)

Section SourceProperties.
Context `{FC : FloatCodec}.

(** C8, as the code has it: construction fails when the path is absent or
    not a string, and when the mode is a non-empty string other than
    "array" and "lines"; with a string path, the empty one included, it
    succeeds in mode "array" or "lines" as configured, and in mode "array"
    when the mode is absent, not a string or empty. *)
Theorem NewJSONSource_construction (cfg : list (string * value)) (schema : SchemaConfig) :
  (configured_string "path" cfg = None -> exists err, NewJSONSource cfg schema = inl err)
  /\ (forall m, configured_string "mode" cfg = Some m ->
                m <> "" -> m <> "array" -> m <> "lines" ->
                exists err, NewJSONSource cfg schema = inl err)
  /\ (forall p m, configured_string "path" cfg = Some p ->
                  configured_string "mode" cfg = Some m ->
                  m = "array" \/ m = "lines" ->
                  NewJSONSource cfg schema
                  = inr {| path := p; mode := m; schema := schema;
                           isWritable := false; writer := None |})
  /\ (forall p, configured_string "path" cfg = Some p ->
                configured_string "mode" cfg = None \/ configured_string "mode" cfg = Some "" ->
                NewJSONSource cfg schema
                = inr {| path := p; mode := "array"; schema := schema;
                         isWritable := false; writer := None |}).
Proof.
  unfold configured_string, NewJSONSource.
  repeat split.
  - intros H. destruct (lookup "path" cfg) as [[] |]; try discriminate H; eexists; reflexivity.
  - intros m Hm Hne Ha Hl.
    assert (match lookup "mode" cfg with Some (VString m0) => m0 | _ => "" end = m) as ->
        by (destruct (lookup "mode" cfg) as [[] |]; congruence).
    apply String.eqb_neq in Hne, Ha, Hl. rewrite Hne, Ha, Hl. simpl.
    destruct (lookup "path" cfg) as [[] |]; eexists; reflexivity.
  - intros p m Hp Hm Hmode.
    assert (lookup "path" cfg = Some (VString p)) as ->
        by (destruct (lookup "path" cfg) as [[] |]; congruence).
    assert (match lookup "mode" cfg with Some (VString m0) => m0 | _ => "" end = m) as ->
        by (destruct (lookup "mode" cfg) as [[] |]; congruence).
    destruct Hmode as [-> | ->]; reflexivity.
  - intros p Hp Hmode.
    assert (lookup "path" cfg = Some (VString p)) as ->
        by (destruct (lookup "path" cfg) as [[] |]; congruence).
    assert (match lookup "mode" cfg with Some (VString m0) => m0 | _ => "" end = "") as ->
        by (destruct Hmode as [H | H]; destruct (lookup "mode" cfg) as [[] |]; congruence).
    reflexivity.
Qed.

Lemma skip_space_blank (a s : string) :
  blank a = true -> skip_space (a +++ s) = skip_space s.
Proof.
  induction a as [| c a IH]; simpl; intros H; [reflexivity |].
  apply andb_true_iff in H. destruct H as [Hc Ha]. rewrite Hc. apply IH. exact Ha.
Qed.

Lemma skip_space_bracket (c : ascii) (s : string) :
  is_space c = false -> skip_space (String c s) = String c s.
Proof. intros H. simpl. rewrite H. reflexivity. Qed.

Lemma readJSONArray_empty_document (j : JSONSource) (data : string) :
  empty_array_document data -> readJSONArray j data = ([], None).
Proof.
  intros [a [b [c [Ha [Hb [Hc ->]]]]]].
  unfold readJSONArray, Decode_RawMessages, scan_stream, parse_json. cbn [parse_value].
  rewrite skip_space_blank by exact Ha.
  change ("[" +++ b +++ "]" +++ c) with (String "[" (b +++ String "]" c)).
  rewrite skip_space_bracket by reflexivity.
  change (Ascii.eqb "[" "{") with false. change (Ascii.eqb "[" "[") with true. cbn iota.
  rewrite skip_space_blank by exact Hb.
  rewrite skip_space_bracket by reflexivity.
  change (Ascii.eqb "]" "]") with true. reflexivity.
Qed.

Lemma readJSONLines_empty_file (j : JSONSource) : readJSONLines j "" = ([], None).
Proof. reflexivity. Qed.

Lemma Read_loop_empty_files (os : OS) (j : JSONSource) (ctx : Ctx) (files : list string) :
  (forall i, ctx i = None) ->
  (forall f, In f files -> readFile os j f = ([], None)) ->
  forall i, Read_loop os j ctx i files [] = ([], None).
Proof.
  intros Hctx. induction files as [| file rest IH]; intros Hfiles i; simpl; [reflexivity |].
  rewrite Hctx, (Hfiles file) by (left; reflexivity). simpl.
  apply IH. intros f Hf. apply Hfiles. right. exact Hf.
Qed.

(** C7: when the path resolves to no file, [Read] returns the "no files
    found" error; when every resolved file is an empty array document in
    array mode, or has no byte in lines mode, [Read] with a live context
    returns no record and no error, whatever the schema. *)
Theorem Read_empty_results (os : OS) (j : JSONSource) (ctx : Ctx) :
  (findFiles os j = inr [] ->
   Read os j ctx = ([], Some ("no files found matching pattern: " +++ path j)))
  /\ (forall files,
         findFiles os j = inr files -> files <> [] ->
         (forall i, ctx i = None) ->
         (mode j = "array"
          /\ forall f, In f files ->
                       exists data, os_Open os f = inr data /\ empty_array_document data)
         \/ (mode j = "lines" /\ forall f, In f files -> os_Open os f = inr "") ->
         Read os j ctx = ([], None)).
Proof.
  split.
  - intros H. unfold Read. rewrite H. reflexivity.
  - intros files Hfind Hne Hctx Hfiles. unfold Read. rewrite Hfind.
    destruct files as [| f0 rest]; [contradiction |].
    cbn [List.length Nat.eqb].
    apply Read_loop_empty_files; [exact Hctx |].
    intros f Hf. unfold readFile.
    destruct Hfiles as [[Hm Hopen] | [Hm Hopen]].
    + destruct (Hopen f Hf) as [data [-> Hdata]]. rewrite Hm.
      apply readJSONArray_empty_document. exact Hdata.
    + rewrite (Hopen f Hf), Hm. apply readJSONLines_empty_file.
Qed.

End SourceProperties.

(** The rule of the specification takes [uint (3)] for a number field;
    the code refuses it. *)
Lemma validateRecord_refuses_uint :
  validateRecord (test_source out_path "array" count_schema) rec_count
  = Some "field count: expected number, got uint"
  /\ spec_conforms rec_count (schema (test_source out_path "array" count_schema))
  /\ ~ (validateRecord (test_source out_path "array" count_schema) rec_count = None
        <-> spec_conforms rec_count (schema (test_source out_path "array" count_schema))).
Proof.
  assert (spec_conforms rec_count (schema (test_source out_path "array" count_schema))) as Hs.
  { constructor; [| constructor]. exists uint_3, KNumber.
    repeat split. apply integer_is_numeric. simpl. tauto. }
  split; [reflexivity |]. split; [exact Hs |].
  intros [_ H]. specialize (H Hs). discriminate H.
Qed.

Lemma validateRecord_schema_completeness_witness :
  validateRecord (FC := IntFloats) (source_of "array") (map_set "score" (VInt 3) rec_hi)
  = validateRecord (source_of "array") rec_hi.
Proof.
  apply (proj1 (proj2 (validateRecord_schema_completeness (FC := IntFloats)))).
  simpl. intros [H | []]. discriminate H.
Defined.

(** With the empty path and mode "array" construction succeeds, and so it
    does with a path and the empty mode. *)
Lemma NewJSONSource_accepts_empty_path :
  NewJSONSource (cfg_of "" "array") text_schema
  = inr {| path := ""; mode := "array"; schema := text_schema;
           isWritable := false; writer := None |}
  /\ NewJSONSource (cfg_of out_path "") text_schema = inr (source_of "array").
Proof. split; reflexivity. Qed.

Lemma NewJSONSource_construction_witness :
  NewJSONSource (cfg_of out_path "lines") text_schema = inr (source_of "lines").
Proof.
  apply (proj1 (proj2 (proj2 (NewJSONSource_construction (cfg_of out_path "lines") text_schema)))).
  - reflexivity.
  - reflexivity.
  - right. reflexivity.
Defined.

Lemma Read_empty_results_witness :
  Read (FC := IntFloats) (os_of [(out_path, txt "[ ]~")]) (source_of "array") Background
  = ([], None).
Proof.
  apply (proj2 (Read_empty_results (os_of [(out_path, txt "[ ]~")]) (source_of "array") Background)
               [out_path]).
  - reflexivity.
  - discriminate.
  - reflexivity.
  - left. split; [reflexivity |].
    intros f [<- | []]. exists (txt "[ ]~"). split; [reflexivity |].
    exists "", " ", nl. repeat split.
Defined.

(** ** Batch evaluation *)

Section BatchProperties.
Context `{FC : FloatCodec}.

Lemma Evaluate_result (g : GeminiEvaluator) (w : World) (record : Record) (prompt : string) :
  Input (fst (fst (Evaluate g w record prompt))) = record
  /\ Error (fst (fst (Evaluate g w record prompt))) = snd (fst (Evaluate g w record prompt))
  /\ (forall err, snd (fst (Evaluate g w record prompt)) = Some err ->
                  fst (fst (Evaluate g w record prompt)) = failure record err).
Proof.
  unfold Evaluate.
  destruct (makeAPICall g w _) as [[err | response] w']; simpl.
  - repeat split. intros e [= <-]. reflexivity.
  - destruct (parseResponse response) as [err | [output metadata]]; simpl.
    + repeat split. intros e [= <-]. reflexivity.
    + repeat split. discriminate.
Qed.

Lemma Evaluate_net (g : GeminiEvaluator) (w : World) (record : Record) (prompt : string) :
  net (snd (Evaluate g w record prompt)) = net w.
Proof.
  unfold Evaluate, makeAPICall.
  destruct (Marshal _); [| reflexivity].
  destruct (http_NewRequest _ _); [reflexivity |].
  destruct (http_Do _ _ _) as [err | resp]; [reflexivity |].
  destruct (negb _); destruct (Decode_map _); try reflexivity.
  destruct (parseResponse _) as [err | [output metadata]]; reflexivity.
Qed.

Lemma set_nth_app {A : Type} (done : list A) (x y : A) (tail : list A) :
  set_nth (List.length done) x (done ++ y :: tail) = done ++ x :: tail.
Proof.
  induction done as [| d done IH]; simpl; [reflexivity |]. rewrite IH. reflexivity.
Qed.

Lemma BatchEvaluate_loop_evals (g : GeminiEvaluator) (prompt : string) (records : list Record) :
  forall (done : list Result) (w : World),
    BatchEvaluate_loop g prompt (List.length done) records
      (done ++ repeat zeroResult (List.length records)) w
    = (done ++ evals g prompt w records, world_after g prompt w records).
Proof.
  induction records as [| record rest IH]; intros done w; simpl.
  - reflexivity.
  - pose proof (Evaluate_result g w record prompt) as [_ [_ Hfail]].
    destruct (Evaluate g w record prompt) as [[result [err |]] w'] eqn:E; simpl in *.
    + rewrite (Hfail err eq_refl), set_nth_app.
      replace (S (List.length done)) with (List.length (done ++ [failure record err]))
        by (rewrite length_app; simpl; lia).
      replace (done ++ failure record err :: repeat zeroResult (List.length rest))
        with ((done ++ [failure record err]) ++ repeat zeroResult (List.length rest))
        by (rewrite <- app_assoc; reflexivity).
      rewrite IH, <- app_assoc. reflexivity.
    + rewrite set_nth_app.
      replace (S (List.length done)) with (List.length (done ++ [result]))
        by (rewrite length_app; simpl; lia).
      replace (done ++ result :: repeat zeroResult (List.length rest))
        with ((done ++ [result]) ++ repeat zeroResult (List.length rest))
        by (rewrite <- app_assoc; reflexivity).
      rewrite IH, <- app_assoc. reflexivity.
Qed.

Lemma BatchEvaluate_evals (g : GeminiEvaluator) (w : World) (records : list Record) (prompt : string) :
  BatchEvaluate g w records prompt
  = ((evals g prompt w records, None), world_after g prompt w records).
Proof.
  unfold BatchEvaluate.
  pose proof (BatchEvaluate_loop_evals g prompt records [] w) as H. simpl in H.
  rewrite H. reflexivity.
Qed.

Lemma evals_length (g : GeminiEvaluator) (prompt : string) (records : list Record) :
  forall w, List.length (evals g prompt w records) = List.length records.
Proof.
  induction records as [| record rest IH]; intros w; simpl; [reflexivity |].
  rewrite IH. reflexivity.
Qed.

Lemma evals_nth (g : GeminiEvaluator) (prompt : string) (records : list Record) :
  forall w i record,
    nth_error records i = Some record ->
    nth_error (evals g prompt w records) i
    = Some (fst (fst (Evaluate g (world_after g prompt w (firstn i records)) record prompt))).
Proof.
  induction records as [| r rest IH]; intros w i record Hi.
  - destruct i; discriminate Hi.
  - destruct i as [| i]; simpl in *.
    + injection Hi as <-. reflexivity.
    + apply IH. exact Hi.
Qed.

(** C4: [BatchEvaluate] returns one result for each record, at the record's
    index and with the record as its [Input]; the result at an index is the
    one [Evaluate] returns for that record in the world the records before
    it left, whether or not any of them failed. *)
Theorem BatchEvaluate_aligned (g : GeminiEvaluator) (w : World) (records : list Record)
    (prompt : string) :
  List.length (fst (fst (BatchEvaluate g w records prompt))) = List.length records
  /\ forall i record,
       nth_error records i = Some record ->
       exists result,
         nth_error (fst (fst (BatchEvaluate g w records prompt))) i = Some result
         /\ Input result = record
         /\ result = fst (fst (Evaluate g (world_after g prompt w (firstn i records)) record prompt)).
Proof.
  rewrite BatchEvaluate_evals. simpl. split.
  - apply evals_length.
  - intros i record Hi. eexists. split; [apply evals_nth; exact Hi |].
    split; [apply Evaluate_result | reflexivity].
Qed.

(** C10: the error [BatchEvaluate] returns is nil; the error [Evaluate]
    returns for a record is the [Error] of the result at the record's
    index. *)
Theorem BatchEvaluate_error_nil (g : GeminiEvaluator) (w : World) (records : list Record)
    (prompt : string) :
  snd (fst (BatchEvaluate g w records prompt)) = None
  /\ forall i record,
       nth_error records i = Some record ->
       exists result,
         nth_error (fst (fst (BatchEvaluate g w records prompt))) i = Some result
         /\ Error result
            = snd (fst (Evaluate g (world_after g prompt w (firstn i records)) record prompt)).
Proof.
  rewrite BatchEvaluate_evals. simpl. split; [reflexivity |].
  intros i record Hi. eexists. split; [apply evals_nth; exact Hi |].
  apply Evaluate_result.
Qed.

End BatchProperties.

Section PolicyProperties.
Context `{FC : FloatCodec}.

Lemma world_after_net (g : GeminiEvaluator) (prompt : string) (records : list Record) :
  forall w, net (world_after g prompt w records) = net w.
Proof.
  induction records as [| record rest IH]; intros w; simpl; [reflexivity |].
  rewrite IH. apply Evaluate_net.
Qed.







End PolicyProperties.






Lemma BatchEvaluate_aligned_witness :
  exists result,
    nth_error (fst (fst (BatchEvaluate gemini fresh_world boom_batch text_prompt))) 1 = Some result
    /\ Input result = rec_fine.
Proof.
  destruct (proj2 (BatchEvaluate_aligned gemini fresh_world boom_batch text_prompt) 1 rec_fine eq_refl)
    as [result [H1 [H2 _]]].
  exists result. split; assumption.
Defined.

Lemma BatchEvaluate_error_nil_witness :
  exists result,
    nth_error (fst (fst (BatchEvaluate gemini fresh_world boom_batch text_prompt))) 0 = Some result
    /\ Error result = Some "API request failed: connection refused".
Proof.
  destruct (proj2 (BatchEvaluate_error_nil gemini fresh_world boom_batch text_prompt) 0 rec_boom eq_refl)
    as [result [H1 H2]].
  exists result. split; [exact H1 | exact H2].
Defined.

(** ** Template rendering *)

Lemma append_empty_r (s : string) : s +++ "" = s.
Proof. induction s as [| c s IH]; simpl; [reflexivity | rewrite IH; reflexivity]. Qed.

Lemma append_assoc (a b c : string) : (a +++ b) +++ c = a +++ b +++ c.
Proof. induction a as [| x a IH]; simpl; [reflexivity | rewrite IH; reflexivity]. Qed.

Lemma concat_cons (x : string) (l : list string) :
  String.concat "" (x :: l) = x +++ String.concat "" l.
Proof. destruct l; simpl; [rewrite append_empty_r |]; reflexivity. Qed.

Lemma prefix_head_differs (c d : ascii) (p s : string) :
  c <> d -> String.prefix (String c p) (String d s) = false.
Proof. intros H. simpl. destruct (ascii_dec c d); [contradiction | reflexivity]. Qed.

Lemma prefix_same_head (c : ascii) (p s : string) :
  String.prefix (String c p) (String c s) = String.prefix p s.
Proof. simpl. destruct (ascii_dec c c); [reflexivity | contradiction]. Qed.

Lemma prefix_append (p s : string) : String.prefix p (p +++ s) = true.
Proof.
  induction p as [| c p IH]; simpl; [destruct s; reflexivity |].
  destruct (ascii_dec c c); [exact IH | contradiction].
Qed.

Lemma no_open_brace_cons (c : ascii) (s : string) :
  no_open_brace (String c s) = true -> c <> "{"%char /\ no_open_brace s = true.
Proof.
  unfold no_open_brace. simpl. intros H.
  apply negb_true_iff, orb_false_iff in H. destruct H as [Hc Hs].
  split; [apply Ascii.eqb_neq; exact Hc | rewrite Hs; reflexivity].
Qed.

Lemma brace_free_cons (c : ascii) (s : string) :
  brace_free (String c s) = true ->
  c <> "{"%char /\ c <> "}"%char /\ brace_free s = true.
Proof.
  unfold brace_free. simpl. intros H.
  apply andb_true_iff in H. destruct H as [H1 H2].
  apply negb_true_iff, orb_false_iff in H1, H2.
  destruct H1 as [Hc1 Hs1], H2 as [Hc2 Hs2].
  repeat split; [apply Ascii.eqb_neq; exact Hc1 | apply Ascii.eqb_neq; exact Hc2 |].
  rewrite Hs1, Hs2. reflexivity.
Qed.

Lemma brace_free_no_open (s : string) : brace_free s = true -> no_open_brace s = true.
Proof. unfold brace_free, no_open_brace. intros H. apply andb_true_iff in H. apply H. Qed.

Section ReplaceAll.
Variables (o new : string).

Lemma replace_from_no_open (lit rest : string) :
  no_open_brace lit = true ->
  replace_from (String "{" o) new 0 (lit +++ rest)
  = lit +++ replace_from (String "{" o) new 0 rest.
Proof.
  induction lit as [| c lit IH]; intros H; [reflexivity |].
  apply no_open_brace_cons in H. destruct H as [Hc Hlit].
  cbn [String.append replace_from].
  rewrite prefix_head_differs by congruence.
  rewrite IH by exact Hlit. reflexivity.
Qed.

Lemma replace_from_skip (s rest : string) :
  replace_from (String "{" o) new (String.length s) (s +++ rest)
  = replace_from (String "{" o) new 0 rest.
Proof. induction s as [| c s IH]; simpl; [reflexivity | exact IH]. Qed.

Lemma replace_from_match (rest : string) :
  replace_from (String "{" o) new 0 (String "{" o +++ rest)
  = new +++ replace_from (String "{" o) new 0 rest.
Proof.
  change (String "{" o +++ rest) with (String "{" (o +++ rest)).
  cbn [replace_from].
  change (String "{" (o +++ rest)) with (String "{" o +++ rest).
  rewrite prefix_append.
  replace (String.length (String "{" o) - 1) with (String.length o) by (simpl; lia).
  rewrite replace_from_skip. reflexivity.
Qed.

Lemma ReplaceAll_no_open (s : string) :
  no_open_brace s = true -> ReplaceAll s (String "{" o) new = s.
Proof.
  intros H. unfold ReplaceAll.
  rewrite <- (append_empty_r s) at 1. rewrite replace_from_no_open by exact H.
  simpl. apply append_empty_r.
Qed.

End ReplaceAll.

Lemma placeholder_eq (k : string) : placeholder k = String "{" (String "{" (k +++ "}}")).
Proof. reflexivity. Qed.

Lemma placeholder_eq_text (k : string) : "{{" +++ k +++ "}}" = String "{" (String "{" (k +++ "}}")).
Proof. reflexivity. Qed.

(** Between brace-free names, the placeholder of one begins the text of
    the placeholder of another only if the names are equal. *)
Lemma prefix_names (k n rest : string) :
  brace_free k = true -> brace_free n = true ->
  String.prefix (k +++ "}}") ((n +++ "}}") +++ rest) = true -> k = n.
Proof.
  revert n. induction k as [| c k IH]; intros n Hk Hn H.
  - destruct n as [| d n]; [reflexivity |].
    apply brace_free_cons in Hn. destruct Hn as [_ [Hd _]].
    cbn [String.append String.prefix] in H. destruct (ascii_dec "}" d); [congruence | discriminate H].
  - apply brace_free_cons in Hk. destruct Hk as [_ [Hc Hk]].
    destruct n as [| d n].
    + cbn [String.append String.prefix] in H. destruct (ascii_dec c "}"); [congruence | discriminate H].
    + apply brace_free_cons in Hn. destruct Hn as [_ [_ Hn]].
      cbn [String.append String.prefix] in H. destruct (ascii_dec c d); [| discriminate H].
      subst d. f_equal. apply (IH n Hk Hn H).
Qed.

Lemma name_closed_no_open (n : string) :
  brace_free n = true -> no_open_brace (n +++ "}}") = true.
Proof.
  induction n as [| c n IH]; intros H; [reflexivity |].
  apply brace_free_cons in H. destruct H as [Hc [_ Hn]].
  unfold no_open_brace in *. simpl.
  apply Ascii.eqb_neq in Hc. rewrite Hc. simpl. apply IH. exact Hn.
Qed.

Lemma replace_from_other_hole (k n new rest : string) :
  brace_free k = true -> brace_free n = true -> k <> n ->
  replace_from (placeholder k) new 0 (placeholder n +++ rest)
  = placeholder n +++ replace_from (placeholder k) new 0 rest.
Proof.
  intros Hk Hn Hne. rewrite !placeholder_eq.
  cbn [String.append replace_from].
  assert (String.prefix (String "{" (String "{" (k +++ "}}")))
                        (String "{" (String "{" ((n +++ "}}") +++ rest))) = false) as ->.
  { cbn [String.prefix]. destruct (ascii_dec "{" "{"); [| contradiction].
    destruct (String.prefix (k +++ "}}") ((n +++ "}}") +++ rest)) eqn:E; [| reflexivity].
    exfalso. apply Hne. apply (prefix_names k n rest Hk Hn E). }
  f_equal.
  assert (String.prefix (String "{" (String "{" (k +++ "}}")))
                        (String "{" ((n +++ "}}") +++ rest)) = false) as ->.
  { cbn [String.prefix]. destruct (ascii_dec "{" "{"); [| contradiction].
    pose proof (name_closed_no_open n Hn) as Hno.
    destruct (n +++ "}}") as [| d m] eqn:E.
    - destruct n; discriminate E.
    - apply no_open_brace_cons in Hno. destruct Hno as [Hd _].
      cbn [String.append]. apply prefix_head_differs. congruence. }
  f_equal.
  apply (replace_from_no_open (String "{" (k +++ "}}")) new (n +++ "}}") rest).
  apply name_closed_no_open. exact Hn.
Qed.

Section TemplateProperties.
Context `{FC : FloatCodec}.

Lemma template_text_cons (t : token) (toks : list token) :
  template_text (t :: toks) = token_text t +++ template_text toks.
Proof. unfold template_text. simpl map. apply concat_cons. Qed.

Lemma render_cons (record : Record) (t : token) (toks : list token) :
  render (t :: toks) record = render_token record t +++ render toks record.
Proof. unfold render. simpl map. apply concat_cons. Qed.

(** One replacement pass over the text of a plain template fills the holes
    of its key and touches nothing else. *)
Lemma ReplaceAll_template (k v : string) (toks : list token) :
  brace_free k = true -> Forall plain_token toks ->
  ReplaceAll (template_text toks) (placeholder k) v = template_text (map (fill k v) toks).
Proof.
  intros Hk. unfold ReplaceAll.
  induction 1 as [| t toks Ht _ IH]; [reflexivity |].
  simpl map. rewrite !template_text_cons.
  destruct t as [s | n]; simpl in Ht; simpl token_text.
  - rewrite placeholder_eq at 1. rewrite replace_from_no_open by exact Ht.
    rewrite <- placeholder_eq, IH. reflexivity.
  - simpl fill. destruct (String.eqb n k) eqn:E.
    + apply String.eqb_eq in E. subst n. simpl token_text.
      rewrite placeholder_eq at 1 2. rewrite replace_from_match.
      rewrite <- placeholder_eq, IH. reflexivity.
    + apply String.eqb_neq in E. simpl token_text.
      rewrite replace_from_other_hole by (try assumption; congruence).
      rewrite IH. reflexivity.
Qed.

Lemma fill_plain (k v : string) (t : token) :
  no_open_brace v = true -> plain_token t -> plain_token (fill k v t).
Proof.
  intros Hv Ht. destruct t as [s | n]; simpl; [exact Ht |].
  destruct (String.eqb n k); [exact Hv | exact Ht].
Qed.

Lemma applyPromptTemplate_fill (entries : list (string * value)) :
  Forall plain_entry entries ->
  forall toks, Forall plain_token toks ->
    applyPromptTemplate (template_text toks) entries
    = template_text (map (fill_all entries) toks).
Proof.
  unfold applyPromptTemplate, fill_all.
  induction 1 as [| [k v] rest [Hk Hv] _ IH]; intros toks Htoks.
  - simpl. rewrite map_id. reflexivity.
  - cbn [fold_left fst snd map] in *.
    change ("{{" +++ k +++ "}}") with (placeholder k).
    rewrite ReplaceAll_template by assumption.
    rewrite IH.
    + rewrite map_map. reflexivity.
    + rewrite Forall_map. eapply Forall_impl; [| exact Htoks].
      intros t Ht. apply fill_plain; assumption.
Qed.

Lemma fill_all_Lit (entries : list (string * value)) (s : string) :
  fill_all entries (Lit s) = Lit s.
Proof. unfold fill_all. induction entries as [| kv rest IH]; simpl; [reflexivity | exact IH]. Qed.

Lemma fill_all_text (entries : list (string * value)) (t : token) :
  token_text (fill_all entries t) = render_token entries t.
Proof.
  destruct t as [s | n]; [rewrite fill_all_Lit; reflexivity |].
  induction entries as [| [k v] rest IH]; [reflexivity |].
  unfold fill_all in *. simpl. rewrite String.eqb_sym.
  destruct (String.eqb k n); [| exact IH].
  apply (f_equal token_text (fill_all_Lit rest (Sprint_v v))).
Qed.

Lemma lookup_Permutation (l l' : list (string * value)) :
  Permutation l l' -> NoDup (keys l) -> forall n, lookup n l = lookup n l'.
Proof.
  unfold keys. induction 1 as [| [k v] l l' _ IH | [k1 v1] [k2 v2] l | l l' l'' H1 IH1 H2 IH2];
    intros Hnd n.
  - reflexivity.
  - simpl. destruct (String.eqb k n); [reflexivity |].
    apply IH. inversion Hnd; assumption.
  - simpl. destruct (String.eqb k2 n) eqn:E2, (String.eqb k1 n) eqn:E1; try reflexivity.
    apply String.eqb_eq in E1, E2. subst k1 k2.
    inversion Hnd as [| ? ? Hnotin _]. exfalso. apply Hnotin. left. reflexivity.
  - rewrite IH1 by exact Hnd. apply IH2.
    eapply Permutation_NoDup; [| exact Hnd]. apply Permutation_map. exact H1.
Qed.

Lemma render_Permutation (order record : Record) (toks : list token) :
  Permutation order record -> NoDup (keys order) -> render toks order = render toks record.
Proof.
  intros Hp Hnd. unfold render. f_equal. apply map_ext.
  intros [s | n]; simpl; [reflexivity |].
  rewrite (lookup_Permutation order record Hp Hnd). reflexivity.
Qed.

Lemma applyPromptTemplate_no_open (entries : Record) (s : string) :
  no_open_brace s = true -> applyPromptTemplate s entries = s.
Proof.
  intros H. unfold applyPromptTemplate.
  induction entries as [| [k v] rest IH]; cbn [fold_left fst snd]; [reflexivity |].
  rewrite placeholder_eq_text, ReplaceAll_no_open by exact H. exact IH.
Qed.

End TemplateProperties.

Lemma prefix_text_name (k : string) :
  String.prefix (k +++ "}}") "text}}" = true -> k = "text".
Proof.
  intros H.
  destruct k as [| c1 k]; [discriminate H |].
  cbn [String.append String.prefix] in H. destruct (ascii_dec c1 "t"); [subst c1 | discriminate H].
  destruct k as [| c2 k]; [discriminate H |].
  cbn [String.append String.prefix] in H. destruct (ascii_dec c2 "e"); [subst c2 | discriminate H].
  destruct k as [| c3 k]; [discriminate H |].
  cbn [String.append String.prefix] in H. destruct (ascii_dec c3 "x"); [subst c3 | discriminate H].
  destruct k as [| c4 k]; [discriminate H |].
  cbn [String.append String.prefix] in H. destruct (ascii_dec c4 "t"); [subst c4 | discriminate H].
  destruct k as [| c5 k]; [reflexivity |].
  cbn [String.append String.prefix] in H. destruct (ascii_dec c5 "}"); [subst c5 | discriminate H].
  destruct k as [| c6 k]; [discriminate H |].
  cbn [String.append String.prefix] in H. destruct (ascii_dec c6 "}"); [subst c6 | discriminate H].
  destruct k; discriminate H.
Qed.

Lemma replace_from_no_match (old new : string) (c : ascii) (r : string) :
  String.prefix old (String c r) = false ->
  replace_from old new 0 (String c r) = String c (replace_from old new 0 r).
Proof. intros H. cbn [replace_from]. rewrite H. reflexivity. Qed.

Lemma ReplaceAll_text_other (k v : string) :
  k <> "text" -> ReplaceAll "Text: {{text}}" (placeholder k) v = "Text: {{text}}".
Proof.
  intros Hk. unfold ReplaceAll. rewrite placeholder_eq.
  change "Text: {{text}}" with ("Text: " +++ "{{text}}") at 1.
  rewrite replace_from_no_open by reflexivity.
  change "Text: {{text}}" with ("Text: " +++ "{{text}}"). f_equal.
  rewrite (replace_from_no_match _ _ "{" "{text}}").
  2:{ rewrite !prefix_same_head.
      destruct (String.prefix (k +++ "}}") "text}}") eqn:E; [| reflexivity].
      exfalso. apply Hk. apply prefix_text_name. exact E. }
  rewrite (replace_from_no_match _ _ "{" "text}}").
  2:{ rewrite prefix_same_head. apply prefix_head_differs. discriminate. }
  pose proof (ReplaceAll_no_open (String "{" (k +++ "}}")) v "text}}" eq_refl) as H.
  unfold ReplaceAll in H. rewrite H. reflexivity.
Qed.

Section RenderingTheorem.
Context `{FC : FloatCodec}.

(** C6, as the code has it: the placeholders are replaced one field after
    the other, in the order of the [range] over the record.  When braces
    occur in the template only around brace-free placeholder names, the
    field names are brace-free and no value's text holds an opening brace,
    the outcome in every order is the template with each placeholder of a
    present field replaced by the value's text and every other placeholder
    left as it is.  "Text: {{text}}" gives "Text: hi" on every record that
    maps text to "hi", and itself on every record without text. *)
Theorem applyPromptTemplate_renders :
  (forall (toks : list token) (record order : Record),
      Forall plain_token toks -> Forall plain_entry record -> NoDup (keys record) ->
      Permutation order record ->
      applyPromptTemplate (template_text toks) order = render toks record)
  /\ (forall record : Record,
         lookup "text" record = Some (VString "hi") ->
         applyPromptTemplate "Text: {{text}}" record = "Text: hi")
  /\ (forall record : Record,
         lookup "text" record = None ->
         applyPromptTemplate "Text: {{text}}" record = "Text: {{text}}").
Proof.
  split; [| split].
  - intros toks record order Htoks Hrec Hnd Hperm.
    assert (Forall plain_entry order) as Hord
        by (eapply Permutation_Forall; [apply Permutation_sym; exact Hperm | exact Hrec]).
    assert (NoDup (keys order)) as Hnd'
        by (unfold keys; eapply Permutation_NoDup;
            [apply Permutation_map, Permutation_sym; exact Hperm | exact Hnd]).
    rewrite applyPromptTemplate_fill by assumption.
    rewrite <- (render_Permutation order record toks Hperm Hnd').
    unfold template_text, render. rewrite map_map. f_equal.
    apply map_ext. intros t. apply fill_all_text.
  - intros record. induction record as [| [k v] rest IH]; intros H; [discriminate H |].
    simpl in H. unfold applyPromptTemplate in *. cbn [fold_left fst snd].
    change ("{{" +++ k +++ "}}") with (placeholder k).
    destruct (String.eqb k "text") eqn:E.
    + apply String.eqb_eq in E. subst k. injection H as ->.
      change (ReplaceAll "Text: {{text}}" (placeholder "text") (Sprint_v (VString "hi")))
        with "Text: hi".
      apply (applyPromptTemplate_no_open rest "Text: hi"). reflexivity.
    + apply String.eqb_neq in E. rewrite ReplaceAll_text_other by exact E. apply IH. exact H.
  - intros record. induction record as [| [k v] rest IH]; intros H; [reflexivity |].
    simpl in H. unfold applyPromptTemplate in *. cbn [fold_left fst snd].
    change ("{{" +++ k +++ "}}") with (placeholder k).
    destruct (String.eqb k "text") eqn:E; [discriminate H |].
    apply String.eqb_neq in E. rewrite ReplaceAll_text_other by exact E. apply IH. exact H.
Qed.

End RenderingTheorem.

(** Two fields whose values are each other's placeholder: whichever is
    replaced first, the outcome is not the template with each placeholder
    replaced by its field's value.  And a template with braces around a
    placeholder: an empty value closes them into the placeholder of another
    field, which is replaced or not with the order of the passes. *)
Lemma applyPromptTemplate_crossed :
  template_text crossed_template = "{{a}} {{b}}"
  /\ render crossed_template crossed = "{{b}} {{a}}"
  /\ applyPromptTemplate "{{a}} {{b}}" crossed = "{{a}} {{a}}"
  /\ applyPromptTemplate "{{a}} {{b}}" (rev crossed) = "{{b}} {{b}}"
  /\ applyPromptTemplate (template_text crossed_template) crossed <> render crossed_template crossed
  /\ applyPromptTemplate (template_text crossed_template) (rev crossed)
     <> render crossed_template crossed
  /\ applyPromptTemplate "{{{{a}}b}}" nested = "x"
  /\ applyPromptTemplate "{{{{a}}b}}" (rev nested) = "{{b}}".
Proof. repeat split; try reflexivity; vm_compute; discriminate. Qed.

Lemma applyPromptTemplate_renders_witness :
  applyPromptTemplate (template_text text_template) (rev labelled) = render text_template labelled.
Proof.
  apply (proj1 (applyPromptTemplate_renders (FC := IntFloats))).
  - repeat constructor.
  - repeat constructor.
  - repeat constructor; simpl; intuition discriminate.
  - apply perm_swap.
Defined.

(** ** Writing and reading back *)

(** C1 at one record in lines mode: [Write] and [Close] succeed and leave
    the record on three lines, and [Read] of that file fails on its first
    line; in array mode the same record comes back. *)
Theorem lines_mode_round_trip_fails :
  exists j1 j2,
    Write (os_of []) (source_of "lines") Background [rec_hi] = (j1, None)
    /\ Close j1 = (j2, None)
    /\ written j2 = txt "{~  'text': 'hi'~}~"
    /\ Read (FC := IntFloats) (os_of [(out_path, written j2)]) (source_of "lines") Background
       = ([], Some "failed to read file /data/out.json: failed to unmarshal line 1: unexpected end of JSON input")
    /\ Read (os_of [(out_path, written (write_all (source_of "array") [[rec_hi]]))])
            (source_of "array") Background
       = ([rec_hi], None).
Proof. do 2 eexists. repeat split; vm_compute; reflexivity. Qed.

(** C9 at two [Write] calls of one record each in array mode: the calls and
    [Close] succeed, no comma stands between the two records, and the file
    is not a JSON array; one call with both records gives one. *)
Theorem array_mode_second_write_has_no_separator :
  exists j1 j2 j3,
    Write (os_of []) (source_of "array") Background [rec_a] = (j1, None)
    /\ Write (os_of []) j1 Background [rec_b] = (j2, None)
    /\ Close j2 = (j3, None)
    /\ written j3 = txt "[~{~  'text': 'a'~}~{~  'text': 'b'~}~~]"
    /\ Unmarshal (FC := IntFloats) (written j3) = inl "invalid character '{' after array element"
    /\ Read (FC := IntFloats) (os_of [(out_path, written j3)]) (source_of "array") Background
       = ([], Some "failed to read file /data/out.json: failed to decode JSON array: invalid character '{' after array element")
    /\ written (write_all (source_of "array") [[rec_a; rec_b]])
       = txt "[~{~  'text': 'a'~}~,~{~  'text': 'b'~}~~]"
    /\ Read (os_of [(out_path, written (write_all (source_of "array") [[rec_a; rec_b]]))])
            (source_of "array") Background
       = ([rec_a; rec_b], None).
Proof. do 3 eexists. repeat split; vm_compute; reflexivity. Qed.

(** In lines mode no record with a field reads back, whatever the schema
    and the codec: its text opens with a brace and a newline, and the
    reader fails on that first line. *)
Section LinesMode.
Context `{FC : FloatCodec}.

Lemma sequence_length {A : Type} (l : list (option A)) (xs : list A) :
  sequence l = Some xs -> List.length xs = List.length l.
Proof.
  revert xs. induction l as [| [x |] l IH]; simpl; intros xs H; try discriminate.
  - injection H as <-. reflexivity.
  - destruct (sequence l) as [ys |]; [| discriminate].
    injection H as <-. simpl. rewrite (IH ys eq_refl). reflexivity.
Qed.

Lemma insert_by_key_length {A : Type} (x : string * A) (l : list (string * A)) :
  List.length (insert_by_key x l) = S (List.length l).
Proof.
  induction l as [| y l IH]; simpl; [reflexivity |].
  destruct (String.leb (fst x) (fst y)); simpl; [reflexivity | rewrite IH; reflexivity].
Qed.

Lemma sort_by_key_length {A : Type} (l : list (string * A)) :
  List.length (sort_by_key l) = List.length l.
Proof.
  unfold sort_by_key. induction l as [| x l IH]; simpl; [reflexivity |].
  rewrite insert_by_key_length, IH. reflexivity.
Qed.

Lemma Encode_indent_opens (record : Record) (text : string) :
  record <> [] -> Encode_indent record = Some text ->
  exists rest, text = String "{" (String LF rest).
Proof.
  intros Hne. unfold Encode_indent. cbn [encode].
  set (members := sort_by_key _).
  destruct (sequence _) as [items |] eqn:E; [| discriminate].
  intros [= <-].
  apply sequence_length in E. rewrite length_map in E.
  unfold members in E. rewrite sort_by_key_length, length_map in E.
  destruct items as [| item items].
  - destruct record; [contradiction | discriminate E].
  - eexists. reflexivity.
Qed.

Lemma scan_lines_brace_line (f : nat) (rest : string) :
  scan_lines (S f) (String "{" (String LF rest))
  = (let (ls, e) := scan_lines f rest in ("{" :: ls, e)).
Proof. reflexivity. Qed.

Lemma readJSONLines_brace_line (j : JSONSource) (rest : string) :
  readJSONLines j (String "{" (String LF rest))
  = ([], Some "failed to unmarshal line 1: unexpected end of JSON input").
Proof.
  unfold readJSONLines, Scanner. rewrite scan_lines_brace_line.
  destruct (scan_lines _ rest) as [ls e]. reflexivity.
Qed.

Lemma file_Write_grows (w : File) (bytes : string) :
  exists more, file_data (fst (file_Write w bytes)) = file_data w +++ more.
Proof.
  unfold file_Write. destruct (file_closed w); simpl.
  - exists "". rewrite append_empty_r. reflexivity.
  - exists bytes. reflexivity.
Qed.

Lemma Write_loop_grows (records : list Record) :
  forall (j : JSONSource) (w : File) (ctx : Ctx) (i : nat),
    writer j = Some w ->
    mode (fst (Write_loop j w ctx i records)) = mode j
    /\ exists w' more,
         writer (fst (Write_loop j w ctx i records)) = Some w'
         /\ file_data w' = file_data w +++ more.
Proof.
  induction records as [| record rest IH]; intros j w ctx i Hw; cbn [Write_loop].
  - split; [reflexivity |]. exists w, "". rewrite append_empty_r. split; [exact Hw | reflexivity].
  - destruct (ctx i).
    { split; [reflexivity |]. exists w, "". rewrite append_empty_r. split; [exact Hw | reflexivity]. }
    assert (exists w1 e1 more1,
              (if String.eqb (mode j) "array" && (0 <? i)%nat
               then file_Write w ("," +++ nl) else (w, None)) = (w1, e1)
              /\ file_data w1 = file_data w +++ more1) as [w1 [e1 [more1 [-> H1]]]].
    { destruct (String.eqb (mode j) "array" && (0 <? i)%nat).
      - destruct (file_Write_grows w ("," +++ nl)) as [more Hm].
        destruct (file_Write w ("," +++ nl)) as [w1 e1]. exists w1, e1, more. split; [reflexivity | exact Hm].
      - exists w, None, "". rewrite append_empty_r. split; reflexivity. }
    destruct e1.
    { split; [reflexivity |]. exists w1, more1. split; [reflexivity | exact H1]. }
    destruct (validateRecord j record).
    { split; [reflexivity |]. exists w1, more1. split; [reflexivity | exact H1]. }
    destruct (Encode_indent record) as [text |].
    2:{ split; [reflexivity |]. exists w1, more1. split; [reflexivity | exact H1]. }
    destruct (file_Write_grows w1 text) as [more2 H2].
    destruct (file_Write w1 text) as [w2 [e2 |]]; simpl in H2.
    { split; [reflexivity |]. exists w2, (more1 +++ more2).
      split; [reflexivity |]. rewrite H2, H1, append_assoc. reflexivity. }
    destruct (IH (set_writer j w2 (isWritable j)) w2 ctx (S i) eq_refl) as [Hm [w' [more [Hw' Hd]]]].
    split; [exact Hm |]. exists w', (more1 +++ more2 +++ more).
    split; [exact Hw' |]. rewrite Hd, H2, H1, !append_assoc. reflexivity.
Qed.

Lemma lines_mode_first_record_breaks_reading (os : OS) (j : JSONSource) (ctx : Ctx)
    (record : Record) (rest : list Record) (text : string) :
  mode j = "lines" -> writer j = None ->
  os_MkdirAll os (filepath_Dir os (path j)) = None -> os_Create os (path j) = None ->
  ctx 0 = None ->
  record <> [] -> validateRecord j record = None -> Encode_indent record = Some text ->
  readJSONLines j (written (fst (Close (fst (Write os j ctx (record :: rest))))))
  = ([], Some "failed to unmarshal line 1: unexpected end of JSON input").
Proof.
  intros Hmode Hw Hmk Hcr Hctx Hne Hval Henc.
  destruct (Encode_indent_opens record text Hne Henc) as [body ->].
  unfold Write. rewrite Hw, Hmk, Hcr, Hmode. cbn [String.eqb Ascii.eqb Bool.eqb].
  cbn [Write_loop]. rewrite Hctx. cbn [mode set_writer]. rewrite Hmode.
  cbn [String.eqb Ascii.eqb Bool.eqb andb].
  change (validateRecord (set_writer j {| file_name := path j; file_data := "";
                                          file_closed := false |} true) record)
    with (validateRecord j record).
  rewrite Hval, Henc. cbn [file_Write file_closed file_data String.append isWritable set_writer].
  match goal with
  | |- context [Write_loop ?j1 ?w1 ctx 1 rest] =>
      destruct (Write_loop_grows rest j1 w1 ctx 1 eq_refl) as [Hm [w' [more [Hw' Hd]]]];
      set (j' := fst (Write_loop j1 w1 ctx 1 rest)) in *
  end.
  cbn [mode set_writer] in Hm.
  unfold Close. rewrite Hw', Hm, Hmode. cbn [String.eqb Ascii.eqb Bool.eqb].
  unfold file_Close. destruct (file_closed w'); unfold written; cbn [fst writer set_writer];
    rewrite Hd; cbn [file_data String.append]; apply readJSONLines_brace_line.
Qed.

End LinesMode.

Lemma lines_mode_first_record_breaks_reading_example :
  readJSONLines (FC := IntFloats) (source_of "lines")
    (written (fst (Close (fst (Write (os_of []) (source_of "lines") Background [rec_hi; rec_a])))))
  = ([], Some "failed to unmarshal line 1: unexpected end of JSON input").
Proof.
  apply (lines_mode_first_record_breaks_reading (os_of []) (source_of "lines") Background
           rec_hi [rec_a] (txt "{~  'text': 'hi'~}~"));
    try reflexivity.
  discriminate.
Qed.

(** In array mode the comma goes by the index in the call: the bytes of
    two calls and a [Close] are the bracket, the records of the first call
    with commas between them, the records of the second call with commas
    between them and none before the first, and the closing bracket. *)
Section ArrayMode.
Context `{FC : FloatCodec}.

Lemma Write_loop_array_bytes (records : list Record) :
  forall (texts : list string) (j : JSONSource) (w : File) (ctx : Ctx) (i : nat),
    mode j = "array" -> writer j = Some w -> file_closed w = false ->
    (forall k, ctx k = None) ->
    Forall (fun record => validateRecord j record = None) records ->
    map Encode_indent records = map Some texts ->
    exists j' w',
      Write_loop j w ctx i records = (j', None)
      /\ mode j' = "array" /\ schema j' = schema j
      /\ writer j' = Some w' /\ file_closed w' = false
      /\ file_data w' = file_data w +++ framed i texts.
Proof.
  induction records as [| record rest IH]; intros texts j w ctx i Hmode Hw Hopen Hctx Hval Henc.
  - destruct texts; [| discriminate Henc]. exists j, w. simpl.
    rewrite append_empty_r. repeat split; assumption.
  - destruct texts as [| text texts]; [discriminate Henc |].
    injection Henc as Ht Hts. inversion Hval as [| ? ? Hv Hvs]; subst.
    cbn [Write_loop framed]. rewrite Hctx, Hmode, Hv, Ht.
    cbn [String.eqb Ascii.eqb Bool.eqb andb].
    destruct (0 <? i)%nat.
    + unfold file_Write at 1. rewrite Hopen. cbn [file_Write file_closed file_data].
      match goal with
      | |- context [Write_loop ?j1 ?w1 ctx (S i) rest] =>
          destruct (IH texts j1 w1 ctx (S i)) as [j' [w' [Hl [Hm [Hs [Hw' [Hc Hd]]]]]]];
            try assumption; try reflexivity
      end.
      exists j', w'. rewrite Hl. repeat split; try assumption.
      rewrite Hd. cbn [file_data]. rewrite !append_assoc. reflexivity.
    + unfold file_Write at 1. rewrite Hopen. cbn [file_Write file_closed file_data].
      match goal with
      | |- context [Write_loop ?j1 ?w1 ctx (S i) rest] =>
          destruct (IH texts j1 w1 ctx (S i)) as [j' [w' [Hl [Hm [Hs [Hw' [Hc Hd]]]]]]];
            try assumption; try reflexivity
      end.
      exists j', w'. rewrite Hl. repeat split; try assumption.
      rewrite Hd. cbn [file_data String.append]. rewrite !append_assoc. reflexivity.
Qed.

Lemma array_mode_two_calls_bytes (os : OS) (j : JSONSource) (ctx : Ctx)
    (first second : list Record) (texts1 texts2 : list string) :
  mode j = "array" -> writer j = None ->
  os_MkdirAll os (filepath_Dir os (path j)) = None -> os_Create os (path j) = None ->
  (forall k, ctx k = None) ->
  Forall (fun record => validateRecord j record = None) (first ++ second) ->
  map Encode_indent first = map Some texts1 ->
  map Encode_indent second = map Some texts2 ->
  exists j1 j2 j3,
    Write os j ctx first = (j1, None)
    /\ Write os j1 ctx second = (j2, None)
    /\ Close j2 = (j3, None)
    /\ written j3 = "[" +++ nl +++ framed 0 texts1 +++ framed 0 texts2 +++ nl +++ "]".
Proof.
  intros Hmode Hw Hmk Hcr Hctx Hval Henc1 Henc2.
  apply Forall_app in Hval. destruct Hval as [Hval1 Hval2].
  unfold Write at 1. rewrite Hw, Hmk, Hcr, Hmode.
  cbn [String.eqb Ascii.eqb Bool.eqb file_Write file_closed file_data String.append].
  match goal with
  | |- context [Write_loop ?ja ?wa ctx 0 first] =>
      destruct (Write_loop_array_bytes first texts1 ja wa ctx 0)
        as [j1 [w1 [Hl1 [Hm1 [Hs1 [Hw1 [Hc1 Hd1]]]]]]]; try assumption; try reflexivity
  end.
  exists j1. rewrite Hl1.
  unfold Write. rewrite Hw1.
  destruct (Write_loop_array_bytes second texts2 j1 w1 ctx 0)
    as [j2 [w2 [Hl2 [Hm2 [Hs2 [Hw2 [Hc2 Hd2]]]]]]]; try assumption.
  { cbn [schema set_writer] in Hs1. unfold validateRecord in *. rewrite Hs1. exact Hval2. }
  exists j2. rewrite Hl2.
  unfold Close. rewrite Hw2, Hm2.
  cbn [String.eqb Ascii.eqb Bool.eqb]. unfold file_Write, file_Close. rewrite Hc2.
  cbn [file_closed file_data]. eexists. repeat split.
  unfold written. cbn [writer set_writer file_data].
  rewrite Hd2, Hd1. cbn [file_data String.append]. rewrite !append_assoc. reflexivity.
Qed.

End ArrayMode.

(** ** The tests of the package, on the embedding *)

(** [TestJSONSource_ReadArray] *)
Example test_ReadArray :
  Read (FC := IntFloats) (os_of [("/tmp/test.json", array_test_data)])
       (test_source "/tmp/test.json" "array" sentiment_schema) Background
  = ([[("predicted_sentiment", VString "positive"); ("text", VString "This is positive")];
      [("predicted_sentiment", VString "negative"); ("text", VString "This is negative")]],
     None).
Proof. vm_compute. reflexivity. Qed.

(** [TestJSONSource_ReadLines] *)
Example test_ReadLines :
  Read (FC := IntFloats) (os_of [("/tmp/test.jsonl", lines_test_data)])
       (test_source "/tmp/test.jsonl" "lines" sentiment_schema) Background
  = ([[("text", VString "Line 1"); ("predicted_sentiment", VString "positive")];
      [("text", VString "Line 2"); ("predicted_sentiment", VString "negative")];
      [("text", VString "Line 3"); ("predicted_sentiment", VString "neutral")]],
     None).
Proof. vm_compute. reflexivity. Qed.

(** [TestJSONSource_SchemaValidation] *)
Example test_SchemaValidation :
  Read (FC := IntFloats) (os_of [("/tmp/test.json", invalid_test_data)])
       (test_source "/tmp/test.json" "array" sentiment_schema) Background
  = ([], Some "failed to read file /tmp/test.json: record 0 validation failed: missing required field: predicted_sentiment").
Proof. vm_compute. reflexivity. Qed.

(** [TestJSONSource_Write]: the file written unmarshals to the two records. *)
Example test_Write :
  Unmarshal (FC := IntFloats)
            (written (write_all (test_source "/tmp/output.json" "array" result_schema)
                                [write_test_records]))
  = inr (VSlice [VMap [("result", VString "positive"); ("text", VString "Test 1")];
                 VMap [("result", VString "negative"); ("text", VString "Test 2")]]).
Proof. vm_compute. reflexivity. Qed.

(** [TestJSONSource_TypeValidation], case by case. *)
Example test_TypeValidation (FC : FloatCodec) (f : float64) :
  validateFieldType (VString "hello") "string" = None
  /\ validateFieldType (VInt 123) "string" = Some "expected string, got int"
  /\ validateFieldType (VFloat64 f) "number" = None
  /\ validateFieldType (VInt 42) "number" = None
  /\ validateFieldType (VString "not a number") "number" = Some "expected number, got string"
  /\ validateFieldType (VBool true) "boolean" = None
  /\ validateFieldType (VString "true") "boolean" = Some "expected boolean, got string"
  /\ validateFieldType (VSlice [VInt 1; VInt 2; VInt 3]) "array" = None
  /\ validateFieldType (VString "not an array") "array" = Some "expected array, got string"
  /\ validateFieldType (VMap [("key", VString "value")]) "object" = None
  /\ validateFieldType (VString "not an object") "object" = Some "expected object, got string".
Proof. repeat split. Qed.

(** Storing an object into an [interface{}] and into a map variable
    convert the members alike. *)
Lemma to_value_object `{FC : FloatCodec} (m : list (string * json)) :
  to_value (JObject m)
  = match store_members m [] with
    | inr members => inr (VMap members)
    | inl e => inl e
    end.
Proof.
  cbn [to_value]. generalize (@nil (string * value)).
  induction m as [| [k t] r IH]; intros acc; cbn [store_members]; [reflexivity |].
  destruct (to_value t) as [e | v]; [reflexivity | apply IH].
Qed.

(** ** The library functions, on small inputs *)

(** [strings.TrimSpace] cuts the white space of Unicode off both ends, and
    stops at bytes that are no white space. *)
Example TrimSpace_unicode :
  TrimSpace nbsp_object = txt "{'a':true}"
  /\ TrimSpace (String "009" (String "011" " x  y " +++ nl)) = "x  y"
  /\ TrimSpace (String (ascii_of_nat 160) "x" +++ str (ascii_of_nat 194))
     = String (ascii_of_nat 160) "x" +++ str (ascii_of_nat 194).
Proof. vm_compute. repeat split. Qed.

(** A text between white space of Unicode is decoded by [parseResponse]. *)
Example parseResponse_unicode_space :
  option_map (fun out => lookup "parsed" (fst out))
    (match parseResponse (FC := IntFloats)
             [("candidates",
               VSlice [VMap [("content",
                              VMap [("parts", VSlice [VMap [("text", VString nbsp_object)]])])]])]
     with inr out => Some out | inl _ => None end)
  = Some (Some (VMap [("a", VBool true)])).
Proof. vm_compute. reflexivity. Qed.

(** Strings that are not ASCII: valid UTF-8 is copied both ways, the line
    separators are escaped by the encoder, and a byte that starts no valid
    sequence becomes U+FFFD both ways. *)
Example strings_utf8 :
  escape_string (String (ascii_of_nat 195) (String (ascii_of_nat 169) "x"))
  = String (ascii_of_nat 195) (String (ascii_of_nat 169) "x")
  /\ escape_string (String (ascii_of_nat 226) (String (ascii_of_nat 128) (str (ascii_of_nat 168))))
     = "\" +++ "u2028"
  /\ escape_string (String (ascii_of_nat 255) "x") = "\" +++ "ufffdx"
  /\ escape_string (String (ascii_of_nat 226) (str (ascii_of_nat 128)))
     = "\" +++ "ufffd" +++ "\" +++ "ufffd"
  /\ parse_string (String (ascii_of_nat 195) (String (ascii_of_nat 169) (txt "x' ")))
     = POk (String (ascii_of_nat 195) (String (ascii_of_nat 169) "x")) " "
  /\ parse_string (String (ascii_of_nat 255) (txt "x'"))
     = POk (utf8 replacement_char +++ "x") ""
  /\ parse_string (String (ascii_of_nat 237) (String (ascii_of_nat 160) (String (ascii_of_nat 128) (txt "'"))))
     = POk (utf8 replacement_char +++ utf8 replacement_char +++ utf8 replacement_char) "".
Proof. vm_compute. repeat split. Qed.

(** The byte a syntax error shows. *)
Example quoteChar_forms :
  quoteChar "o" = "'o'"
  /\ quoteChar "'" = "'\''"
  /\ quoteChar DQ = "'" +++ dq +++ "'"
  /\ quoteChar "\" = "'\\'"
  /\ quoteChar LF = "'\n'"
  /\ quoteChar "001" = "'\x01'"
  /\ quoteChar (ascii_of_nat 127) = "'\x7f'"
  /\ quoteChar (ascii_of_nat 160) = "'\" +++ "u00a0'"
  /\ quoteChar (ascii_of_nat 233)
     = "'" +++ String (ascii_of_nat 195) (str (ascii_of_nat 169)) +++ "'".
Proof. vm_compute. repeat split. Qed.

(** The syntax of a text is checked before a number is converted, and the
    elements of an array document are converted record by record. *)
Example decoding_order :
  Unmarshal (FC := IntFloats) (txt "{'a': 1e999, 'b': }")
  = inl "invalid character '}' looking for beginning of value"
  /\ Unmarshal (FC := IntFloats) (txt "{'a': 1e999, 'b': 2}")
     = inl "json: cannot unmarshal number 1e999 into Go value of type float64"
  /\ readJSONArray (FC := IntFloats) (source_of "array") (txt "[{'label': 'x'}, {'text': 1e999}]")
     = ([], Some "record 0 validation failed: missing required field: text")
  /\ readJSONArray (FC := IntFloats) (source_of "array") (txt "[{'text': 'a'}, {'text': 1e999}]")
     = ([], Some "failed to unmarshal record 1: json: cannot unmarshal number 1e999 into Go value of type float64").
Proof. vm_compute. repeat split. Qed.

(** * Further properties of the sources *)

Section ReadProperties.
Context `{FC : FloatCodec}.

Lemma Read_loop_all_read (os : OS) (j : JSONSource) (ctx : Ctx) (files : list string)
    (contents : list (list Record)) :
  (forall i, ctx i = None) ->
  Forall2 (fun file records => readFile os j file = (records, None)) files contents ->
  forall i acc, Read_loop os j ctx i files acc = (acc ++ concat contents, None).
Proof.
  intros Hctx. induction 1 as [| file records files contents Hfile _ IH]; intros i acc; simpl.
  - rewrite app_nil_r. reflexivity.
  - rewrite Hctx, Hfile, IH, app_assoc. reflexivity.
Qed.

(** X1: with a live context, when every resolved file reads without error
    [Read] returns the records of the files one after the other, in the
    order of resolution and in each file's order. *)
Theorem Read_concatenates (os : OS) (j : JSONSource) (ctx : Ctx) (files : list string)
    (contents : list (list Record)) :
  findFiles os j = inr files -> files <> [] ->
  (forall i, ctx i = None) ->
  Forall2 (fun file records => readFile os j file = (records, None)) files contents ->
  Read os j ctx = (concat contents, None).
Proof.
  intros Hfind Hne Hctx Hall. unfold Read. rewrite Hfind.
  destruct files as [| f files]; [contradiction |]. cbn [List.length Nat.eqb].
  apply (Read_loop_all_read os j ctx (f :: files) contents Hctx Hall 0 []).
Qed.

Lemma Read_loop_app_from (os : OS) (j : JSONSource) (ctx : Ctx) (done : list string)
    (contents : list (list Record)) (rest : list string) :
  Forall2 (fun file records => readFile os j file = (records, None)) done contents ->
  forall i acc,
    (forall k, k < List.length done -> ctx (i + k) = None) ->
    Read_loop os j ctx i (done ++ rest) acc
    = Read_loop os j ctx (i + List.length done) rest (acc ++ concat contents).
Proof.
  induction 1 as [| file records done contents Hfile _ IH]; intros i acc Hk; simpl.
  - rewrite Nat.add_0_r, app_nil_r. reflexivity.
  - pose proof (Hk 0 ltac:(simpl; lia)) as H0. rewrite Nat.add_0_r in H0.
    rewrite H0, Hfile, IH.
    + rewrite app_assoc. f_equal. lia.
    + intros k Hlt. replace (S i + k) with (i + S k) by lia. apply Hk. simpl. lia.
Qed.

Lemma Read_loop_app (os : OS) (j : JSONSource) (ctx : Ctx) (done : list string)
    (contents : list (list Record)) (rest : list string) :
  (forall i, i < List.length done -> ctx i = None) ->
  Forall2 (fun file records => readFile os j file = (records, None)) done contents ->
  forall acc,
    Read_loop os j ctx 0 (done ++ rest) acc
    = Read_loop os j ctx (List.length done) rest (acc ++ concat contents).
Proof.
  intros Hctx Hall acc.
  apply (Read_loop_app_from os j ctx done contents rest Hall 0 acc).
  intros k Hk. apply Hctx. exact Hk.
Qed.

(** X2: when a file fails to read, [Read] returns no record at all, also
    none of the files read before it, and an error that names the file. *)
Theorem Read_fails_with_first_bad_file (os : OS) (j : JSONSource) (ctx : Ctx)
    (good : list string) (contents : list (list Record)) (bad : string) (rest : list string)
    (partial : list Record) (err : error) :
  findFiles os j = inr (good ++ bad :: rest) ->
  (forall i, i <= List.length good -> ctx i = None) ->
  Forall2 (fun file records => readFile os j file = (records, None)) good contents ->
  readFile os j bad = (partial, Some err) ->
  Read os j ctx = ([], Some ("failed to read file " +++ bad +++ ": " +++ err)).
Proof.
  intros Hfind Hctx Hgood Hbad. unfold Read. rewrite Hfind.
  destruct (List.length (good ++ bad :: rest) =? 0)%nat eqn:E.
  { apply Nat.eqb_eq in E. rewrite length_app in E. simpl in E. lia. }
  rewrite (Read_loop_app os j ctx good contents (bad :: rest))
    by (try assumption; intros i Hi; apply Hctx; lia).
  simpl. rewrite Hctx by lia. rewrite Hbad. reflexivity.
Qed.

(** X3: when the context is done at the poll before a file, [Read] stops
    there and returns the error of the context together with the records
    of the files read so far. *)
Theorem Read_cancelled_keeps_records (os : OS) (j : JSONSource) (ctx : Ctx)
    (done : list string) (contents : list (list Record)) (next : string) (rest : list string)
    (err : error) :
  findFiles os j = inr (done ++ next :: rest) ->
  (forall i, i < List.length done -> ctx i = None) ->
  ctx (List.length done) = Some err ->
  Forall2 (fun file records => readFile os j file = (records, None)) done contents ->
  Read os j ctx = (concat contents, Some err).
Proof.
  intros Hfind Hctx Hdone Hall. unfold Read. rewrite Hfind.
  destruct (List.length (done ++ next :: rest) =? 0)%nat eqn:E.
  { apply Nat.eqb_eq in E. rewrite length_app in E. simpl in E. lia. }
  rewrite (Read_loop_app os j ctx done contents (next :: rest)) by assumption.
  simpl. rewrite Hdone. reflexivity.
Qed.

Lemma readJSONArray_loop_valid (j : JSONSource) (raws : list RawMessage) :
  forall i acc,
    Forall (fun record => validateRecord j record = None) acc ->
    Forall (fun record => validateRecord j record = None)
           (fst (readJSONArray_loop j i raws acc)).
Proof.
  induction raws as [| raw raws IH]; intros i acc Hacc; simpl; [exact Hacc |].
  destruct (as_Record raw) as [err | record]; [constructor |].
  destruct (validateRecord j record) eqn:E; [constructor |].
  apply IH. apply Forall_app. split; [exact Hacc | repeat constructor; exact E].
Qed.

Lemma readJSONLines_loop_valid (j : JSONSource) (lines : list string) :
  forall n acc,
    Forall (fun record => validateRecord j record = None) acc ->
    Forall (fun record => validateRecord j record = None)
           (fst (readJSONLines_loop j n lines acc)).
Proof.
  induction lines as [| line lines IH]; intros n acc Hacc; simpl; [exact Hacc |].
  destruct (String.length line =? 0)%nat; [apply IH; exact Hacc |].
  destruct (Unmarshal_Record line) as [err | record]; [constructor |].
  destruct (validateRecord j record) eqn:E; [constructor |].
  apply IH. apply Forall_app. split; [exact Hacc | repeat constructor; exact E].
Qed.

Lemma readFile_valid (os : OS) (j : JSONSource) (file : string) :
  Forall (fun record => validateRecord j record = None) (fst (readFile os j file)).
Proof.
  unfold readFile. destruct (os_Open os file) as [err | data]; [constructor |].
  destruct (String.eqb (mode j) "array").
  - unfold readJSONArray. destruct (Decode_RawMessages data) as [err | raws]; [constructor |].
    apply readJSONArray_loop_valid. constructor.
  - unfold readJSONLines. destruct (Scanner data) as [lines scanErr].
    pose proof (readJSONLines_loop_valid j lines 0 [] (Forall_nil _)) as H.
    destruct (readJSONLines_loop j 0 lines []) as [records [err |]]; [constructor |].
    destruct scanErr; [constructor | exact H].
Qed.

Lemma Read_loop_valid (os : OS) (j : JSONSource) (ctx : Ctx) (files : list string) :
  forall i acc,
    Forall (fun record => validateRecord j record = None) acc ->
    Forall (fun record => validateRecord j record = None)
           (fst (Read_loop os j ctx i files acc)).
Proof.
  induction files as [| file files IH]; intros i acc Hacc; simpl; [exact Hacc |].
  destruct (ctx i); [exact Hacc |].
  pose proof (readFile_valid os j file) as Hfile.
  destruct (readFile os j file) as [records [err |]]; [constructor |].
  apply IH. apply Forall_app. split; assumption.
Qed.

(** X4: every record [Read] returns passes the validation of the source's
    schema, whatever the files hold and whether or not an error or a
    cancellation comes with the records. *)
Theorem Read_returns_valid_records (os : OS) (j : JSONSource) (ctx : Ctx) :
  Forall (fun record => validateRecord j record = None) (fst (Read os j ctx)).
Proof.
  unfold Read. destruct (findFiles os j) as [err | files]; [constructor |].
  destruct (List.length files =? 0)%nat; [constructor |].
  apply Read_loop_valid. constructor.
Qed.

(** X5: when the path is not taken as a plain file, [findFiles] returns
    the matches of the pattern that are files, in the order of the
    matches: directories and matches that cannot be examined are left
    out, without an error. *)
Theorem findFiles_keeps_regular_matches (os : OS) (j : JSONSource) (matches : list string) :
  filepath_IsAbs os (path j) && negb (containsWildcard os (path j)) = false ->
  filepath_Glob os (path j) = inr matches ->
  exists files,
    findFiles os j = inr files
    /\ files = filter (fun m => match os_Stat os m with inr false => true | _ => false end) matches
    /\ forall f, In f files <-> In f matches /\ os_Stat os f = inr false.
Proof.
  intros Hbranch Hglob. unfold findFiles. rewrite Hbranch, Hglob.
  assert (forall m, (match os_Stat os m with inl _ => false | inr isDir => negb isDir end)
                    = (match os_Stat os m with inr false => true | _ => false end)) as Heq
      by (intros m; destruct (os_Stat os m) as [e | []]; reflexivity).
  eexists. split; [reflexivity |]. split.
  - apply filter_ext. exact Heq.
  - intros f. rewrite filter_In. split; intros [Hin Hst]; split; try exact Hin.
    + destruct (os_Stat os f) as [e | []]; try discriminate Hst. reflexivity.
    + rewrite Hst. reflexivity.
Qed.

End ReadProperties.

Section WriteProperties.
Context `{FC : FloatCodec}.

Lemma Write_loop_success (records : list Record) :
  forall (j : JSONSource) (w : File) (ctx : Ctx) (i : nat) (j' : JSONSource),
    Write_loop j w ctx i records = (j', None) ->
    Forall (fun record => validateRecord j record = None /\ Encode_indent record <> None) records
    /\ forall k, k < List.length records -> ctx (i + k) = None.
Proof.
  induction records as [| record rest IH]; intros j w ctx i j' H.
  - split; [constructor | simpl; intros k Hk; lia].
  - cbn [Write_loop] in H. destruct (ctx i) eqn:Hctx; [discriminate H |].
    destruct (if String.eqb (mode j) "array" && (0 <? i)%nat
              then file_Write w ("," +++ nl) else (w, None)) as [w1 [e1 |]]; [discriminate H |].
    destruct (validateRecord j record) eqn:Hval; [discriminate H |].
    destruct (Encode_indent record) as [text |] eqn:Henc; [| discriminate H].
    destruct (file_Write w1 text) as [w2 [e2 |]]; [discriminate H |].
    apply IH in H. destruct H as [Hrest Hpoll]. split.
    + constructor; [split; [exact Hval | rewrite Henc; discriminate] | exact Hrest].
    + intros [| k] Hk; [rewrite Nat.add_0_r; exact Hctx |].
      replace (i + S k) with (S i + k) by lia. apply Hpoll. simpl in Hk. lia.
Qed.

(** X6: a [Write] call that returns no error was given only records that
    pass the validation of the schema and can be encoded, and met a live
    context at the poll before each of them: a batch with one invalid
    record never succeeds. *)
Theorem Write_succeeds_only_on_valid_records (os : OS) (j : JSONSource) (ctx : Ctx)
    (records : list Record) (j' : JSONSource) :
  Write os j ctx records = (j', None) ->
  Forall (fun record => validateRecord j record = None /\ Encode_indent record <> None) records
  /\ forall k, k < List.length records -> ctx k = None.
Proof.
  unfold Write. intros H.
  assert (forall j0 w0, schema j0 = schema j -> Write_loop j0 w0 ctx 0 records = (j', None) ->
            Forall (fun record => validateRecord j record = None /\ Encode_indent record <> None) records
            /\ forall k, k < List.length records -> ctx k = None) as Hloop.
  { intros j0 w0 Hs Hl. apply Write_loop_success in Hl. unfold validateRecord in *.
    rewrite Hs in Hl. exact Hl. }
  destruct (writer j) as [w |]; [exact (Hloop j w eq_refl H) |].
  destruct (os_MkdirAll os _); [discriminate H |].
  destruct (os_Create os _); [discriminate H |].
  destruct (String.eqb (mode j) "array").
  - destruct (file_Write _ _) as [w1 [e1 |]]; [discriminate H |].
    eapply Hloop; [| exact H]. reflexivity.
  - eapply Hloop; [| exact H]. reflexivity.
Qed.

Lemma Write_loop_app (good : list Record) :
  forall (j : JSONSource) (w : File) (ctx : Ctx) (i : nat) (j1 : JSONSource) (more : list Record),
    writer j = Some w ->
    Write_loop j w ctx i good = (j1, None) ->
    exists w1, writer j1 = Some w1
               /\ Write_loop j w ctx i (good ++ more)
                  = Write_loop j1 w1 ctx (i + List.length good) more.
Proof.
  induction good as [| record rest IH]; intros j w ctx i j1 more Hw H.
  - injection H as <-. exists w. rewrite Nat.add_0_r. split; [exact Hw | reflexivity].
  - cbn [Write_loop app] in *. destruct (ctx i); [discriminate H |].
    destruct (if String.eqb (mode j) "array" && (0 <? i)%nat
              then file_Write w ("," +++ nl) else (w, None)) as [w1 [e1 |]]; [discriminate H |].
    destruct (validateRecord j record); [discriminate H |].
    destruct (Encode_indent record) as [text |]; [| discriminate H].
    destruct (file_Write w1 text) as [w2 [e2 |]]; [discriminate H |].
    destruct (IH (set_writer j w2 (isWritable j)) w2 ctx (S i) j1 more eq_refl H) as [w' [Hw' Heq]].
    exists w'. split; [exact Hw' |]. rewrite Heq. f_equal. simpl. lia.
Qed.

(** X7: in array mode the separator of a record is written before the
    record is validated.  A first [Write] call whose record at index n
    fails validation returns the validation error, and leaves in the file
    the bracket, the n records before it and, when n > 0, the comma that
    was to precede the refused record. *)
Theorem Write_array_stops_at_invalid_record (os : OS) (j : JSONSource) (ctx : Ctx)
    (good : list Record) (bad : Record) (rest : list Record) (texts : list string) (err : error) :
  mode j = "array" -> writer j = None ->
  os_MkdirAll os (filepath_Dir os (path j)) = None -> os_Create os (path j) = None ->
  (forall k, ctx k = None) ->
  Forall (fun record => validateRecord j record = None) good ->
  map Encode_indent good = map Some texts ->
  validateRecord j bad = Some err ->
  exists j',
    Write os j ctx (good ++ bad :: rest) = (j', Some ("record validation failed: " +++ err))
    /\ written j' = "[" +++ nl +++ framed 0 texts
                    +++ (if (0 <? List.length good)%nat then "," +++ nl else "").
Proof.
  intros Hmode Hw Hmk Hcr Hctx Hval Henc Hbad.
  unfold Write. rewrite Hw, Hmk, Hcr, Hmode.
  cbn [String.eqb Ascii.eqb Bool.eqb file_Write file_closed file_data String.append].
  match goal with
  | |- context [Write_loop ?ja ?wa ctx 0 _] =>
      destruct (Write_loop_array_bytes good texts ja wa ctx 0)
        as [j1 [w1 [Hl1 [Hm1 [Hs1 [Hw1 [Hc1 Hd1]]]]]]]; try assumption; try reflexivity;
      destruct (Write_loop_app good ja wa ctx 0 j1 (bad :: rest) eq_refl Hl1) as [w1' [Hw1' ->]]
  end.
  rewrite Hw1 in Hw1'. injection Hw1' as <-.
  cbn [Write_loop Nat.add]. rewrite Hctx, Hm1.
  cbn [String.eqb Ascii.eqb Bool.eqb andb].
  assert (validateRecord j1 bad = Some err) as Hbad1.
  { unfold validateRecord in *. rewrite Hs1. exact Hbad. }
  rewrite Hbad1. unfold file_Write. rewrite Hc1.
  destruct (0 <? List.length good)%nat; eexists; (split; [reflexivity |]);
    unfold written; cbn [writer set_writer file_data]; rewrite Hd1;
    cbn [file_data String.append]; rewrite ?append_assoc, ?append_empty_r; reflexivity.
Qed.

Lemma framed_positive (texts : list string) :
  forall i, framed (S i) texts = framed 1 texts.
Proof.
  induction texts as [| t ts IH]; intros i; simpl; [reflexivity |].
  rewrite (IH (S i)), (IH 1). reflexivity.
Qed.

Lemma framed_join_cons (ts : list string) :
  forall t, t +++ framed 1 ts = join ("," +++ nl) (t :: ts).
Proof.
  induction ts as [| u us IH]; intros t.
  - simpl. rewrite append_empty_r. reflexivity.
  - change (join ("," +++ nl) (t :: u :: us)) with (t +++ ("," +++ nl) +++ join ("," +++ nl) (u :: us)).
    rewrite <- IH. change (framed 1 (u :: us)) with (("," +++ nl) +++ u +++ framed 2 us).
    rewrite (framed_positive us 1), !append_assoc. reflexivity.
Qed.

Lemma framed_join (texts : list string) :
  framed 0 texts = join ("," +++ nl) texts.
Proof.
  destruct texts as [| t ts]; [reflexivity |].
  change (framed 0 (t :: ts)) with (t +++ framed 1 ts). apply framed_join_cons.
Qed.

(** X8: in array mode one [Write] call of valid records followed by
    [Close] leaves in the file an opening bracket and a newline, the
    encoded records joined by a comma and a newline, and a newline and
    the closing bracket. *)
Theorem array_mode_one_call_bytes (os : OS) (j : JSONSource) (ctx : Ctx)
    (records : list Record) (texts : list string) :
  mode j = "array" -> writer j = None ->
  os_MkdirAll os (filepath_Dir os (path j)) = None -> os_Create os (path j) = None ->
  (forall k, ctx k = None) ->
  Forall (fun record => validateRecord j record = None) records ->
  map Encode_indent records = map Some texts ->
  exists j1 j2,
    Write os j ctx records = (j1, None)
    /\ Close j1 = (j2, None)
    /\ written j2 = "[" +++ nl +++ join ("," +++ nl) texts +++ nl +++ "]".
Proof.
  intros Hmode Hw Hmk Hcr Hctx Hval Henc.
  unfold Write. rewrite Hw, Hmk, Hcr, Hmode.
  cbn [String.eqb Ascii.eqb Bool.eqb file_Write file_closed file_data String.append].
  match goal with
  | |- context [Write_loop ?ja ?wa ctx 0 records] =>
      destruct (Write_loop_array_bytes records texts ja wa ctx 0)
        as [j1 [w1 [Hl1 [Hm1 [Hs1 [Hw1 [Hc1 Hd1]]]]]]]; try assumption; try reflexivity
  end.
  exists j1. rewrite Hl1. unfold Close. rewrite Hw1, Hm1.
  cbn [String.eqb Ascii.eqb Bool.eqb]. unfold file_Write, file_Close. rewrite Hc1.
  cbn [file_closed file_data]. eexists. repeat split.
  unfold written. cbn [writer set_writer file_data].
  rewrite Hd1, framed_join. cbn [file_data String.append]. rewrite !append_assoc. reflexivity.
Qed.

(** X9: after a [Close] that succeeded the source takes no more output: a
    second [Close] returns an error, and so does a [Write] of a batch whose
    first record is valid; neither changes the bytes of the file. *)
Theorem closed_source_refuses_output (j : JSONSource) (w : File) :
  writer j = Some w -> file_closed w = false ->
  exists j1,
    Close j = (j1, None)
    /\ (exists e, snd (Close j1) = Some e)
    /\ written (fst (Close j1)) = written j1
    /\ forall (os : OS) (ctx : Ctx) (record : Record) (rest : list Record),
         ctx 0 = None -> validateRecord j record = None -> Encode_indent record <> None ->
         (exists e, snd (Write os j1 ctx (record :: rest)) = Some e)
         /\ written (fst (Write os j1 ctx (record :: rest))) = written j1.
Proof.
  intros Hw Hopen. unfold Close at 1. rewrite Hw.
  assert (forall w1 : File, file_closed w1 = false ->
            let j1 := set_writer j {| file_name := file_name w1; file_data := file_data w1;
                                      file_closed := true |} (isWritable j) in
            (exists e, snd (Close j1) = Some e)
            /\ written (fst (Close j1)) = written j1
            /\ forall (os : OS) (ctx : Ctx) (record : Record) (rest : list Record),
                 ctx 0 = None -> validateRecord j record = None -> Encode_indent record <> None ->
                 (exists e, snd (Write os j1 ctx (record :: rest)) = Some e)
                 /\ written (fst (Write os j1 ctx (record :: rest))) = written j1) as Hclosed.
  { intros w1 _ j1. split; [| split].
    - unfold Close, j1. cbn [writer set_writer mode]. destruct (String.eqb (mode j) "array");
        cbn [file_Write file_Close file_closed]; eexists; reflexivity.
    - unfold Close, j1. cbn [writer set_writer mode]. destruct (String.eqb (mode j) "array");
        reflexivity.
    - intros os ctx record rest Hctx Hval Henc.
      unfold Write, j1. cbn [writer set_writer Write_loop]. rewrite Hctx.
      cbn [mode set_writer Nat.ltb Nat.leb andb]. rewrite Bool.andb_false_r.
      change (validateRecord (set_writer j _ (isWritable j)) record) with (validateRecord j record).
      rewrite Hval. destruct (Encode_indent record) as [text |]; [| contradiction].
      cbn [file_Write file_closed]. split; [eexists; reflexivity | reflexivity]. }
  destruct (String.eqb (mode j) "array").
  - unfold file_Write, file_Close. rewrite Hopen. cbn [file_closed file_data].
    eexists. split; [reflexivity |].
    apply (Hclosed {| file_name := file_name w; file_data := file_data w +++ nl +++ "]";
                      file_closed := false |} eq_refl).
  - unfold file_Close. rewrite Hopen. eexists. split; [reflexivity |].
    apply (Hclosed w Hopen).
Qed.

Lemma readJSONLines_loop_blank (j : JSONSource) (blanks : list string) :
  Forall (fun line => line = "") blanks ->
  forall n lines acc,
    readJSONLines_loop j n (blanks ++ lines) acc
    = readJSONLines_loop j (n + List.length blanks) lines acc.
Proof.
  induction 1 as [| b blanks -> _ IH]; intros n lines acc; simpl.
  - rewrite Nat.add_0_r. reflexivity.
  - rewrite IH. f_equal. lia.
Qed.

(** X10: [readJSONLines] skips the empty lines without an error and still
    counts them: the number in the error of a line that does not decode is
    the number of the line in the file, empty lines included. *)
Theorem readJSONLines_counts_blank_lines (j : JSONSource) (n : nat) (blanks : list string)
    (line : string) (rest : list string) (acc : list Record) (err : error) :
  Forall (fun l => l = "") blanks ->
  line <> "" -> Unmarshal_Record line = inl err ->
  readJSONLines_loop j n (blanks ++ line :: rest) acc
  = ([], Some ("failed to unmarshal line " +++ itoa (Z.of_nat (n + List.length blanks + 1))
               +++ ": " +++ err))
  /\ forall lines, readJSONLines_loop j n (blanks ++ lines) acc
                   = readJSONLines_loop j (n + List.length blanks) lines acc.
Proof.
  intros Hblank Hline Herr. split; [| intros lines; apply readJSONLines_loop_blank; exact Hblank].
  rewrite readJSONLines_loop_blank by exact Hblank. cbn [readJSONLines_loop].
  destruct line as [| c line]; [contradiction |]. cbn [String.length Nat.eqb].
  rewrite Herr. replace (S (n + List.length blanks)) with (n + List.length blanks + 1) by lia.
  reflexivity.
Qed.

End WriteProperties.

(** * Further properties of the evaluator *)

Section EvaluatorProperties.
Context `{FC : FloatCodec}.


Lemma Evaluate_sent (g : GeminiEvaluator) (w : World) (record : Record) (prompt : string) :
  sent (snd (Evaluate g w record prompt)) = sent w
  \/ exists body,
       Marshal (VMap (buildRequestBody g (applyPromptTemplate prompt record))) = Some body
       /\ sent (snd (Evaluate g w record prompt))
          = sent w ++ [{| req_url := "https://generativelanguage.googleapis.com/v1beta/models/"
                                     +++ model g +++ ":generateContent?key=" +++ apiKey g;
                          req_body := body |}].
Proof.
  unfold Evaluate, makeAPICall.
  destruct (Marshal _) as [body |]; [| left; reflexivity].
  destruct (http_NewRequest _ _); [left; reflexivity |].
  right. exists body. split; [reflexivity |].
  destruct (http_Do _ _ _) as [err | resp]; [reflexivity |].
  destruct (negb _); destruct (Decode_map _); try reflexivity.
  destruct (parseResponse _) as [err | [output metadata]]; reflexivity.
Qed.

Lemma parseResponse_inr (response output metadata : list (string * value)) :
  parseResponse response = inr (output, metadata) ->
  exists candidate candidates content part parts text,
    lookup "candidates" response = Some (VSlice (VMap candidate :: candidates))
    /\ lookup "content" candidate = Some (VMap content)
    /\ lookup "parts" content = Some (VSlice (VMap part :: parts))
    /\ lookup "text" part = Some (VString text)
    /\ lookup "response" output = Some (VString text).
Proof.
  unfold parseResponse. intros Hp.
  destruct (lookup "candidates" response) as [[| | | | | | | | [| [| | | | | | | | | candidate |] candidates] | |] |]
    eqn:Hc; try discriminate Hp.
  destruct (lookup "content" candidate) as [[| | | | | | | | | content |] |] eqn:Hcontent;
    try discriminate Hp.
  destruct (lookup "parts" content) as [[| | | | | | | | [| [| | | | | | | | | part |] parts] | |] |]
    eqn:Hparts; try discriminate Hp.
  destruct (lookup "text" part) as [[| text | | | | | | | | |] |] eqn:Htext; try discriminate Hp.
  injection Hp as <- _.
  exists candidate, candidates, content, part, parts, text.
  repeat split; try assumption.
  destruct (HasPrefix (TrimSpace text) "{" || HasPrefix (TrimSpace text) "[");
    [destruct (Unmarshal (TrimSpace text)) |]; reflexivity.
Qed.

(** X12: an evaluation sends at most one request, to the endpoint of the
    configured model with the key, carrying the encoded body of the
    rendered prompt; and it succeeds only when that request was sent and
    answered with status 200 and a body that decodes to an object whose
    first candidate holds a first part with a text, and then the result
    holds the record, no error, what [parseResponse] makes of that object,
    and that very text under "response". *)
Theorem Evaluate_one_request (g : GeminiEvaluator) (w : World) (record : Record) (prompt : string) :
  let out := Evaluate g w record prompt in
  let url := "https://generativelanguage.googleapis.com/v1beta/models/"
             +++ model g +++ ":generateContent?key=" +++ apiKey g in
  (sent (snd out) = sent w
   \/ exists body,
        Marshal (VMap (buildRequestBody g (applyPromptTemplate prompt record))) = Some body
        /\ sent (snd out) = sent w ++ [{| req_url := url; req_body := body |}])
  /\ (snd (fst out) = None ->
      exists body resp response candidate candidates content part parts text,
        Marshal (VMap (buildRequestBody g (applyPromptTemplate prompt record))) = Some body
        /\ sent (snd out) = sent w ++ [{| req_url := url; req_body := body |}]
        /\ http_Do (net w) (sent w) {| req_url := url; req_body := body |} = inr resp
        /\ StatusCode resp = 200%Z
        /\ Decode_map (Body resp) = inr response
        /\ lookup "candidates" response = Some (VSlice (VMap candidate :: candidates))
        /\ lookup "content" candidate = Some (VMap content)
        /\ lookup "parts" content = Some (VSlice (VMap part :: parts))
        /\ lookup "text" part = Some (VString text)
        /\ parseResponse response
           = inr (Output (fst (fst out)), Metadata (fst (fst out)))
        /\ Input (fst (fst out)) = record
        /\ Error (fst (fst out)) = None
        /\ lookup "response" (Output (fst (fst out))) = Some (VString text)).
Proof.
  intros out url. split; [apply Evaluate_sent |].
  unfold out, url, Evaluate, makeAPICall.
  destruct (Marshal _) as [body |]; [| discriminate].
  destruct (http_NewRequest _ _); [discriminate |].
  destruct (http_Do _ _ _) as [err | resp] eqn:Hdo; [discriminate |].
  destruct (StatusCode resp =? 200)%Z eqn:Hst; cbn [negb];
    destruct (Decode_map _) as [err | response] eqn:Hdec; try discriminate.
  destruct (parseResponse response) as [err | [output metadata]] eqn:Hp; [discriminate |].
  intros _. apply Z.eqb_eq in Hst. cbn [fst snd sent Input Error Output Metadata].
  destruct (parseResponse_inr response output metadata Hp)
    as [candidate [candidates [content [part [parts [text [H1 [H2 [H3 [H4 H5]]]]]]]]]].
  exists body, resp, response, candidate, candidates, content, part, parts, text.
  repeat split; assumption || reflexivity.
Qed.

Lemma world_after_sent (g : GeminiEvaluator) (prompt : string) (records : list Record) :
  forall w, exists more,
    sent (world_after g prompt w records) = sent w ++ more
    /\ List.length more <= List.length records
    /\ Forall (fun req => req_url req
                          = "https://generativelanguage.googleapis.com/v1beta/models/"
                            +++ model g +++ ":generateContent?key=" +++ apiKey g) more.
Proof.
  induction records as [| record rest IH]; intros w; cbn [world_after].
  - exists []. rewrite app_nil_r. repeat split; [simpl; lia | constructor].
  - destruct (IH (snd (Evaluate g w record prompt))) as [more [Hs [Hl Hu]]].
    destruct (Evaluate_sent g w record prompt) as [H | [body [_ H]]]; rewrite H in Hs.
    + exists more. repeat split; [exact Hs | simpl; lia | exact Hu].
    + eexists (_ :: more). rewrite <- app_assoc in Hs. repeat split;
        [exact Hs | simpl; lia | constructor; [reflexivity | exact Hu]].
Qed.

(** X13: a batch evaluation keeps the requests sent before it, adds at
    most one request per record, all to the endpoint of the configured
    model, and leaves the network as it was. *)
Theorem BatchEvaluate_requests (g : GeminiEvaluator) (w : World) (records : list Record)
    (prompt : string) :
  exists more,
    sent (snd (BatchEvaluate g w records prompt)) = sent w ++ more
    /\ List.length more <= List.length records
    /\ Forall (fun req => req_url req
                          = "https://generativelanguage.googleapis.com/v1beta/models/"
                            +++ model g +++ ":generateContent?key=" +++ apiKey g) more
    /\ net (snd (BatchEvaluate g w records prompt)) = net w.
Proof.
  rewrite BatchEvaluate_evals. cbn [snd].
  destruct (world_after_sent g prompt records w) as [more [Hs [Hl Hu]]].
  exists more. repeat split; try assumption. apply world_after_net.
Qed.

(** X14: the request body holds the prompt as the text of the one part of
    the one content, and nothing else but a generation configuration, which
    is there exactly when the parameters hold a temperature or max_tokens
    and then holds these two, the latter as maxOutputTokens: no other
    parameter reaches the request. *)
Theorem buildRequestBody_shape (g : GeminiEvaluator) (prompt : string) :
  let body := buildRequestBody g prompt in
  lookup "contents" body
  = Some (VSlice [VMap [("parts", VSlice [VMap [("text", VString prompt)]])]])
  /\ (forall k, In k (keys body) -> k = "contents" \/ k = "generationConfig")
  /\ match lookup "generationConfig" body with
     | None => lookup "temperature" (params g) = None /\ lookup "max_tokens" (params g) = None
     | Some (VMap generationConfig) =>
         (lookup "temperature" (params g) <> None \/ lookup "max_tokens" (params g) <> None)
         /\ lookup "temperature" generationConfig = lookup "temperature" (params g)
         /\ lookup "maxOutputTokens" generationConfig = lookup "max_tokens" (params g)
         /\ forall k, In k (keys generationConfig) ->
                      k = "temperature" \/ k = "maxOutputTokens"
     | Some _ => False
     end.
Proof.
  intros body. unfold body, buildRequestBody.
  destruct (lookup "temperature" (params g)) as [temp |],
           (lookup "max_tokens" (params g)) as [maxTokens |]; cbn.
  all: split; [reflexivity |]; split; [intros k; intuition (subst; auto) |].
  all: try (split; reflexivity).
  all: split; [first [left; discriminate | right; discriminate] |].
  all: split; [reflexivity |]; split; [reflexivity |].
  all: intros k; intuition (subst; auto).
Qed.

End EvaluatorProperties.

(** * Properties of the configuration and the factories *)

Section ConfigurationProperties.
Context `{FC : FloatCodec}.

Lemma contains_In (slice : list string) (item : string) :
  contains slice item = true <-> In item slice.
Proof.
  induction slice as [| s rest IH]; simpl; [split; [discriminate | contradiction] |].
  destruct (String.eqb s item) eqn:E.
  - apply String.eqb_eq in E. split; auto.
  - apply String.eqb_neq in E. rewrite IH. split; [auto | intros [H | H]; [contradiction | exact H]].
Qed.

Lemma contains_negb (slice : list string) (item : string) :
  negb (contains slice item) = false -> In item slice.
Proof.
  intros H. apply contains_In. destruct (contains slice item); [reflexivity | discriminate H].
Qed.

Lemma eqb_empty_false (s : string) : String.eqb s "" = false -> s <> "".
Proof. intros H. apply String.eqb_neq. exact H. Qed.

Lemma validateSchema_loop_sound (prefix : string) (fields : list FieldConfig) :
  forall i, validateSchema_loop prefix i fields = None ->
            Forall (fun field => Name field <> ""
                                 /\ In (Type_ field) ["string"; "number"; "boolean"; "array"; "object"])
                   fields.
Proof.
  induction fields as [| field rest IH]; intros i H; [constructor |].
  cbn [validateSchema_loop] in H.
  destruct (String.eqb (Name field) "") eqn:En; [discriminate H |].
  destruct (String.eqb (Type_ field) "") eqn:Et; [discriminate H |].
  destruct (negb (contains _ (Type_ field))) eqn:Ec; [discriminate H |].
  constructor; [| apply (IH (S i) H)].
  split; [apply eqb_empty_false; exact En | apply contains_negb; exact Ec].
Qed.

Lemma validateSchema_sound (schema : SchemaConfig) (prefix : string) :
  validateSchema schema prefix = None ->
  Fields schema <> []
  /\ Forall (fun field => Name field <> ""
                          /\ In (Type_ field) ["string"; "number"; "boolean"; "array"; "object"])
            (Fields schema).
Proof.
  unfold validateSchema. destruct (Fields schema) as [| field rest] eqn:E; [discriminate |].
  cbn [List.length Nat.eqb]. intros H. split; [discriminate |].
  apply (validateSchema_loop_sound prefix _ 0 H).
Qed.

Lemma validateFieldType_supported (v : value) (T : string) :
  In T ["string"; "number"; "boolean"; "array"; "object"] ->
  (validateFieldType v T = None
   \/ validateFieldType v T = Some ("expected " +++ T +++ ", got " +++ Sprint_T v))
  /\ validateFieldType v T <> Some ("unsupported type: " +++ T).
Proof.
  cbn [In]. intros [<- | [<- | [<- | [<- | [<- | []]]]]]; (split; [| destruct v; discriminate]);
    destruct v; first [left; reflexivity | right; reflexivity].
Qed.

Lemma validateFields_errors (fields : list FieldConfig) (record : Record) (err : error) :
  Forall (fun field => In (Type_ field) ["string"; "number"; "boolean"; "array"; "object"])
         fields ->
  validateFields fields record = Some err ->
  exists field,
    In field fields
    /\ ((lookup (Name field) record = None
         /\ err = "missing required field: " +++ Name field)
        \/ exists v, lookup (Name field) record = Some v
                     /\ err = "field " +++ Name field +++ ": expected " +++ Type_ field
                              +++ ", got " +++ Sprint_T v).
Proof.
  induction 1 as [| field rest Ht _ IH]; cbn [validateFields]; [discriminate |].
  destruct (lookup (Name field) record) as [v |] eqn:Hl.
  - destruct (validateFieldType_supported v (Type_ field) Ht) as [[Hv | Hv] _]; rewrite Hv.
    + intros H. destruct (IH H) as [field' [Hin Hf]].
      exists field'. split; [right; exact Hin | exact Hf].
    + intros [= <-]. exists field. split; [left; reflexivity |].
      right. exists v. split; [exact Hl | reflexivity].
  - intros [= <-]. exists field. split; [left; reflexivity |]. left. split; [exact Hl | reflexivity].
Qed.

(** X15: in a schema the validator accepts there is a field, and every
    field has a name and one of the five types [validateFieldType] knows.
    Against such a schema [validateFieldType] answers nothing or 'expected
    <type>, got <dynamic type>', never 'unsupported type', and
    [validateRecord] fails only with 'missing required field: <name>' or
    'field <name>: expected <type>, got <dynamic type>'. *)
Theorem validateSchema_types_supported (declared : SchemaConfig) (prefix : string) :
  validateSchema declared prefix = None ->
  Fields declared <> []
  /\ Forall (fun field =>
               Name field <> ""
               /\ In (Type_ field) ["string"; "number"; "boolean"; "array"; "object"]
               /\ forall v,
                    (validateFieldType v (Type_ field) = None
                     \/ validateFieldType v (Type_ field)
                        = Some ("expected " +++ Type_ field +++ ", got " +++ Sprint_T v))
                    /\ validateFieldType v (Type_ field)
                       <> Some ("unsupported type: " +++ Type_ field))
            (Fields declared)
  /\ forall (j : JSONSource) (record : Record) (err : error),
       schema j = declared ->
       validateRecord j record = Some err ->
       exists field,
         In field (Fields declared)
         /\ ((lookup (Name field) record = None
              /\ err = "missing required field: " +++ Name field)
             \/ exists v, lookup (Name field) record = Some v
                          /\ err = "field " +++ Name field +++ ": expected " +++ Type_ field
                                   +++ ", got " +++ Sprint_T v).
Proof.
  intros H. apply validateSchema_sound in H. destruct H as [Hne Hall].
  split; [exact Hne |]. split.
  - eapply Forall_impl; [| exact Hall]. intros field [Hn Ht].
    split; [exact Hn |]. split; [exact Ht |].
    intros v. apply validateFieldType_supported. exact Ht.
  - intros j record err <-. apply validateFields_errors.
    eapply Forall_impl; [| exact Hall]. intros field [_ Ht]. exact Ht.
Qed.

Lemma validateInputs_sound (inputs : list InputConfig) :
  forall i, validateInputs i inputs = None ->
            Forall (fun input =>
                      InputID input <> ""
                      /\ In (InputFormat input) ["json"; "csv"; "parquet"]
                      /\ lookup "path" (InputConfig_Config input) <> None
                      /\ exists prefix, validateSchema (InputSchema input) prefix = None) inputs.
Proof.
  induction inputs as [| input rest IH]; intros i H; [constructor |].
  cbn [validateInputs] in H. destruct (validateInput input i) eqn:E; [discriminate H |].
  constructor; [| apply (IH (S i) H)].
  unfold validateInput in E.
  destruct (String.eqb (InputID input) "") eqn:Ei; [discriminate E |].
  destruct (String.eqb (InputFormat input) "") eqn:Ef; [discriminate E |].
  destruct (negb (contains _ (InputFormat input))) eqn:Ec; [discriminate E |].
  destruct (List.length (InputConfig_Config input) =? 0)%nat; [discriminate E |].
  destruct (lookup "path" (InputConfig_Config input)) eqn:Ep; [| discriminate E].
  repeat split; [apply eqb_empty_false; exact Ei | apply contains_negb; exact Ec | discriminate |].
  eexists. exact E.
Qed.

Lemma validateOutputs_sound (outputs : list OutputConfig) :
  forall i, validateOutputs i outputs = None ->
            Forall (fun output =>
                      OutputID output <> ""
                      /\ In (OutputFormat output) ["json"; "csv"; "parquet"]
                      /\ lookup "path" (OutputConfig_Config output) <> None
                      /\ exists prefix, validateSchema (OutputSchema output) prefix = None) outputs.
Proof.
  induction outputs as [| output rest IH]; intros i H; [constructor |].
  cbn [validateOutputs] in H. destruct (validateOutput output i) eqn:E; [discriminate H |].
  constructor; [| apply (IH (S i) H)].
  unfold validateOutput in E.
  destruct (String.eqb (OutputID output) "") eqn:Ei; [discriminate E |].
  destruct (String.eqb (OutputFormat output) "") eqn:Ef; [discriminate E |].
  destruct (negb (contains _ (OutputFormat output))) eqn:Ec; [discriminate E |].
  destruct (List.length (OutputConfig_Config output) =? 0)%nat; [discriminate E |].
  destruct (lookup "path" (OutputConfig_Config output)) eqn:Ep; [| discriminate E].
  repeat split; [apply eqb_empty_false; exact Ei | apply contains_negb; exact Ec | discriminate |].
  eexists. exact E.
Qed.

Lemma validateEvaluation_sound (eval : EvaluationConfig) :
  validateEvaluation eval = None ->
  In (Provider eval) ["openai"; "anthropic"; "gemini"; "bedrock"]
  /\ Model eval <> "" /\ APIKeyEnv (Auth eval) <> ""
  /\ In (Strategy eval) ["classification"; "extraction"; "generation"]
  /\ Contains (Prompt eval) "{{" = true.
Proof.
  unfold validateEvaluation.
  destruct (String.eqb (Provider eval) "") eqn:Ep; [discriminate |].
  destruct (negb (contains _ (Provider eval))) eqn:Ecp; [discriminate |].
  destruct (String.eqb (Model eval) "") eqn:Em; [discriminate |].
  destruct (String.eqb (APIKeyEnv (Auth eval)) "") eqn:Ea; [discriminate |].
  destruct (String.eqb (Strategy eval) "") eqn:Es; [discriminate |].
  destruct (negb (contains _ (Strategy eval))) eqn:Ecs; [discriminate |].
  destruct (String.eqb (Prompt eval) "") eqn:Epr; [discriminate |].
  destruct (Contains (Prompt eval) "{{") eqn:Ec; [| discriminate].
  intros _. repeat split; try reflexivity;
    first [apply eqb_empty_false; assumption | apply contains_negb; assumption].
Qed.

Lemma validateControls_sound (controls : ControlsConfig) :
  validateControls controls = None ->
  (1 <= Concurrency controls)%Z /\ In (OnError controls) ["retry"; "skip"; "fail"].
Proof.
  unfold validateControls.
  destruct (Concurrency controls <=? 0)%Z eqn:Ec; [discriminate |].
  destruct (String.eqb (OnError controls) "") eqn:Eo; [discriminate |].
  destruct (negb (contains _ (OnError controls))) eqn:Ecs; [discriminate |].
  intros _. apply Z.leb_gt in Ec. split; [lia | apply contains_negb; exact Ecs].
Qed.

Lemma Validate_parts (config : Config) :
  Validate (Some config) = None ->
  validateExperiment (Experiment config) = None
  /\ Inputs config <> [] /\ validateInputs 0 (Inputs config) = None
  /\ Outputs config <> [] /\ validateOutputs 0 (Outputs config) = None
  /\ validateEvaluation (Evaluation config) = None
  /\ validateControls (Controls config) = None.
Proof.
  unfold Validate.
  destruct (validateExperiment _); [discriminate |].
  destruct (Inputs config) as [| input inputs] eqn:Ei; [discriminate |].
  cbn [List.length Nat.eqb].
  destruct (validateInputs 0 _); [discriminate |].
  destruct (Outputs config) as [| output outputs] eqn:Eo; [discriminate |].
  cbn [List.length Nat.eqb].
  destruct (validateOutputs 0 _); [discriminate |].
  destruct (validateEvaluation _); [discriminate |].
  intros H. repeat split; try exact H; discriminate.
Qed.

(** X16: what a configuration that passes [Validate] is known to hold:
    a named and versioned experiment; at least one input and one output,
    each with an id, one of the formats json, csv and parquet, a path entry
    and a schema of at least one field with supported types; a provider
    among openai, anthropic, gemini and bedrock, a model, the name of the
    key variable, a known strategy and a prompt that holds two opening
    braces; a concurrency of at least 1 and an on-error mode among retry,
    skip and fail. *)
Theorem Validate_sound (config : Config) :
  Validate (Some config) = None ->
  (ExperimentName (Experiment config) <> "" /\ ExperimentVersion (Experiment config) <> "")
  /\ (Inputs config <> []
      /\ Forall (fun input =>
                   InputID input <> ""
                   /\ In (InputFormat input) ["json"; "csv"; "parquet"]
                   /\ lookup "path" (InputConfig_Config input) <> None
                   /\ Fields (InputSchema input) <> []
                   /\ Forall (fun field => Name field <> "" /\ kind_of_name (Type_ field) <> None)
                             (Fields (InputSchema input)))
                (Inputs config))
  /\ (Outputs config <> []
      /\ Forall (fun output =>
                   OutputID output <> ""
                   /\ In (OutputFormat output) ["json"; "csv"; "parquet"]
                   /\ lookup "path" (OutputConfig_Config output) <> None
                   /\ Fields (OutputSchema output) <> []
                   /\ Forall (fun field => Name field <> "" /\ kind_of_name (Type_ field) <> None)
                             (Fields (OutputSchema output)))
                (Outputs config))
  /\ (In (Provider (Evaluation config)) ["openai"; "anthropic"; "gemini"; "bedrock"]
      /\ Model (Evaluation config) <> ""
      /\ APIKeyEnv (Auth (Evaluation config)) <> ""
      /\ In (Strategy (Evaluation config)) ["classification"; "extraction"; "generation"]
      /\ Contains (Prompt (Evaluation config)) "{{" = true)
  /\ ((1 <= Concurrency (Controls config))%Z
      /\ In (OnError (Controls config)) ["retry"; "skip"; "fail"]).
Proof.
  intros H. apply Validate_parts in H.
  destruct H as [Hexp [Hi [Hinputs [Ho [Houtputs [Heval Hcontrols]]]]]].
  assert (forall schema prefix, validateSchema schema prefix = None ->
            Fields schema <> []
            /\ Forall (fun field => Name field <> "" /\ kind_of_name (Type_ field) <> None)
                      (Fields schema)) as Hschema.
  { intros schema prefix Hs. apply validateSchema_sound in Hs. destruct Hs as [Hne Hall].
    split; [exact Hne |]. eapply Forall_impl; [| exact Hall].
    intros field [Hn Ht]. split; [exact Hn |]. cbn [In] in Ht.
    destruct Ht as [<- | [<- | [<- | [<- | [<- | []]]]]]; discriminate. }
  split; [| split; [| split; [| split]]].
  - unfold validateExperiment in Hexp.
    destruct (String.eqb (ExperimentName _) "") eqn:En; [discriminate Hexp |].
    destruct (String.eqb (ExperimentVersion _) "") eqn:Ev; [discriminate Hexp |].
    split; apply eqb_empty_false; assumption.
  - split; [exact Hi |]. apply validateInputs_sound in Hinputs.
    eapply Forall_impl; [| exact Hinputs].
    intros input [H1 [H2 [H3 [prefix H4]]]]. apply Hschema in H4. tauto.
  - split; [exact Ho |]. apply validateOutputs_sound in Houtputs.
    eapply Forall_impl; [| exact Houtputs].
    intros output [H1 [H2 [H3 [prefix H4]]]]. apply Hschema in H4. tauto.
  - apply validateEvaluation_sound. exact Heval.
  - apply validateControls_sound. exact Hcontrols.
Qed.

(** X17: the validator accepts more than the factories make.  In a
    configuration that passes [Validate], an input or an output whose
    format is not json is refused by [CreateSource] as not yet implemented,
    and a provider other than gemini is refused by [CreateEvaluator] as not
    yet implemented, whatever the environment holds. *)
Theorem validated_config_not_implemented (config : Config) :
  Validate (Some config) = None ->
  (forall input, In input (Inputs config) -> InputFormat input <> "json" ->
     In (CreateSource (InputConfig_Config input) (InputFormat input) (InputSchema input))
        [inl "CSV source not yet implemented"; inl "Parquet source not yet implemented"])
  /\ (forall output, In output (Outputs config) -> OutputFormat output <> "json" ->
        In (CreateSource (OutputConfig_Config output) (OutputFormat output) (OutputSchema output))
           [inl "CSV source not yet implemented"; inl "Parquet source not yet implemented"])
  /\ (Provider (Evaluation config) <> "gemini" ->
      forall getenv,
        In (CreateEvaluator getenv (Provider (Evaluation config)) (Evaluation config))
           [inl "OpenAI evaluator not yet implemented";
            inl "Anthropic evaluator not yet implemented";
            inl "Bedrock evaluator not yet implemented"]).
Proof.
  intros H. apply Validate_parts in H.
  destruct H as [_ [_ [Hinputs [_ [Houtputs [Heval _]]]]]].
  split; [| split].
  - intros input Hin Hfmt. apply validateInputs_sound in Hinputs.
    rewrite Forall_forall in Hinputs. destruct (Hinputs input Hin) as [_ [Hf _]].
    cbn [In] in Hf. destruct Hf as [Hf | [Hf | [Hf | []]]]; rewrite <- Hf in *;
      [contradiction Hfmt; reflexivity | left; reflexivity | right; left; reflexivity].
  - intros output Hin Hfmt. apply validateOutputs_sound in Houtputs.
    rewrite Forall_forall in Houtputs. destruct (Houtputs output Hin) as [_ [Hf _]].
    cbn [In] in Hf. destruct Hf as [Hf | [Hf | [Hf | []]]]; rewrite <- Hf in *;
      [contradiction Hfmt; reflexivity | left; reflexivity | right; left; reflexivity].
  - intros Hp getenv. apply validateEvaluation_sound in Heval. destruct Heval as [Hf _].
    cbn [In] in Hf. destruct Hf as [Hf | [Hf | [Hf | [Hf | []]]]]; rewrite <- Hf in *;
      [left; reflexivity | right; left; reflexivity | contradiction Hp; reflexivity
      | right; right; left; reflexivity].
Qed.

(** X18: [CreateEvaluator] makes an evaluator exactly for the provider
    gemini with a key variable that is set and not empty, and the evaluator
    then holds the value of that variable, the model and the parameters of
    the configuration. *)
Theorem CreateEvaluator_succeeds_iff (getenv : string -> string) (provider : string)
    (cfg : EvaluationConfig) (g : GeminiEvaluator) :
  CreateEvaluator getenv provider cfg = inr g
  <-> provider = "gemini"
      /\ getenv (APIKeyEnv (Auth cfg)) <> ""
      /\ g = {| apiKey := getenv (APIKeyEnv (Auth cfg)); model := Model cfg; params := Params cfg |}.
Proof.
  unfold CreateEvaluator, NewGeminiEvaluator. split.
  - destruct (String.eqb provider "gemini") eqn:Ep.
    + apply String.eqb_eq in Ep.
      destruct (String.eqb (getenv _) "") eqn:Ek; [discriminate |].
      intros [= <-]. repeat split; [exact Ep | apply eqb_empty_false; exact Ek].
    + destruct (String.eqb provider "openai"); [discriminate |].
      destruct (String.eqb provider "anthropic"); [discriminate |].
      destruct (String.eqb provider "bedrock"); discriminate.
  - intros [-> [Hk ->]]. cbn [String.eqb Ascii.eqb Bool.eqb].
    apply String.eqb_neq in Hk. rewrite Hk. reflexivity.
Qed.

End ConfigurationProperties.

(** * Writing and reading back *)

Lemma escape_string_ascii (c : ascii) (r : string) :
  (code c <? 128)%nat = true ->
  exists e,
    escape_string (String c r) = e +++ escape_string r
    /\ 0 < String.length e
    /\ forall f tail, parse_chars (S f) (e +++ tail) = pcons (str c) (parse_chars f tail).
Proof.
  intros Hc.
  destruct c as [[] [] [] [] [] [] [] []]; try discriminate Hc.
  all: eexists; split; [reflexivity |]; split; [vm_compute; lia |]; intros f tail; reflexivity.
Qed.

Section RoundTrip.
Context `{FC : FloatCodec}.

Lemma length_append (a b : string) :
  String.length (a +++ b) = String.length a + String.length b.
Proof. induction a as [| c a IH]; simpl; [reflexivity | rewrite IH; reflexivity]. Qed.

Lemma parse_chars_escape (s : string) :
  ascii_text s = true ->
  forall f tail,
    String.length (escape_string s) < f ->
    parse_chars f (escape_string s +++ dq +++ tail) = POk s tail.
Proof.
  induction s as [| c r IH]; intros Hs f tail Hf.
  - destruct f; [simpl in Hf; lia |]. reflexivity.
  - cbn [ascii_text] in Hs. apply andb_true_iff in Hs. destruct Hs as [Hc Hr].
    destruct (escape_string_ascii c r Hc) as [e [He [Hlen Hstep]]].
    rewrite He in *. rewrite append_assoc.
    destruct f as [| f]; [lia |]. rewrite Hstep.
    rewrite IH; [reflexivity | exact Hr |].
    rewrite length_append in Hf. lia.
Qed.

Lemma parse_string_quote (s tail : string) :
  ascii_text s = true ->
  parse_string (escape_string s +++ dq +++ tail) = POk s tail.
Proof.
  intros Hs. unfold parse_string. apply parse_chars_escape; [exact Hs |].
  rewrite length_append. lia.
Qed.

Lemma quote_append (s tail : string) :
  quote s +++ tail = String DQ (escape_string s +++ dq +++ tail).
Proof. unfold quote, dq, str. cbn [String.append]. rewrite append_assoc. reflexivity. Qed.

Lemma parse_fuel_monotone (f : nat) :
  (forall s, parse_value f s <> PFuel -> forall k, parse_value (f + k) s = parse_value f s)
  /\ (forall s acc, parse_elements f s acc <> PFuel ->
                    forall k, parse_elements (f + k) s acc = parse_elements f s acc)
  /\ (forall s acc, parse_members f s acc <> PFuel ->
                    forall k, parse_members (f + k) s acc = parse_members f s acc).
Proof.
  induction f as [| f [IHv [IHe IHm]]]; [repeat split; intros; exfalso; auto |].
  split; [| split].
  - intros s H k. cbn [parse_value Nat.add] in *.
    destruct (skip_space s) as [| c r]; [reflexivity |].
    destruct (Ascii.eqb c "{").
    { destruct (skip_space r) as [| c' r']; [reflexivity |].
      destruct (Ascii.eqb c' "}"); [reflexivity | apply IHm; exact H]. }
    destruct (Ascii.eqb c "[").
    { destruct (skip_space r) as [| c' r']; [reflexivity |].
      destruct (Ascii.eqb c' "]"); [reflexivity | apply IHe; exact H]. }
    reflexivity.
  - intros s acc H k. cbn [parse_elements Nat.add] in *.
    destruct (parse_value f s) as [v r | | |] eqn:E; cbn [pbind] in H.
    + rewrite IHv, E by (rewrite E; discriminate). cbn [pbind].
      destruct (skip_space r) as [| c r']; [reflexivity |].
      destruct (Ascii.eqb c ","); [apply IHe; exact H | reflexivity].
    + rewrite IHv, E by (rewrite E; discriminate). reflexivity.
    + rewrite IHv, E by (rewrite E; discriminate). reflexivity.
    + contradiction.
  - intros s acc H k. cbn [parse_members Nat.add] in *.
    destruct (skip_space s) as [| c r]; [reflexivity |].
    destruct (Ascii.eqb c DQ); [| reflexivity].
    destruct (parse_string r) as [key r1 | | |]; cbn [pbind] in *; try reflexivity.
    destruct (skip_space r1) as [| c1 r2]; [reflexivity |].
    destruct (Ascii.eqb c1 ":"); [| reflexivity].
    destruct (parse_value f r2) as [v r3 | | |] eqn:E; cbn [pbind] in H.
    + rewrite IHv, E by (rewrite E; discriminate). cbn [pbind].
      destruct (skip_space r3) as [| c3 r4]; [reflexivity |].
      destruct (Ascii.eqb c3 ","); [apply IHm; exact H | reflexivity].
    + rewrite IHv, E by (rewrite E; discriminate). reflexivity.
    + rewrite IHv, E by (rewrite E; discriminate). reflexivity.
    + contradiction.
Qed.

Lemma parse_json_enough (data : string) (f : nat) (v : json) (rest : string) :
  parse_value f data = POk v rest -> parse_json data = POk v rest.
Proof.
  intros H. unfold parse_json. set (F := S (2 * String.length data)).
  destruct (Nat.le_ge_cases f F) as [Hle | Hge].
  - replace F with (f + (F - f)) by lia.
    rewrite (proj1 (parse_fuel_monotone f)) by (rewrite H; discriminate). exact H.
  - rewrite <- H. replace f with (F + (f - F)) by lia.
    symmetry. apply (proj1 (parse_fuel_monotone F)). apply parse_json_total.
Qed.


Lemma insert_by_key_map {A B : Type} (g : A -> B) (x : string * A) (l : list (string * A)) :
  insert_by_key (fst x, g (snd x)) (map (fun kv => (fst kv, g (snd kv))) l)
  = map (fun kv => (fst kv, g (snd kv))) (insert_by_key x l).
Proof.
  induction l as [| y l IH]; simpl; [reflexivity |].
  destruct (String.leb (fst x) (fst y)); simpl; [reflexivity | rewrite IH; reflexivity].
Qed.

Lemma sort_by_key_map {A B : Type} (g : A -> B) (l : list (string * A)) :
  sort_by_key (map (fun kv => (fst kv, g (snd kv))) l)
  = map (fun kv => (fst kv, g (snd kv))) (sort_by_key l).
Proof.
  unfold sort_by_key. induction l as [| x l IH]; simpl; [reflexivity |].
  rewrite IH. apply (insert_by_key_map g x).
Qed.

Lemma insert_by_key_Permutation {A : Type} (x : string * A) (l : list (string * A)) :
  Permutation (insert_by_key x l) (x :: l).
Proof.
  induction l as [| y l IH]; simpl; [reflexivity |].
  destruct (String.leb (fst x) (fst y)); [reflexivity |].
  rewrite IH. apply perm_swap.
Qed.

Lemma sort_by_key_Permutation {A : Type} (l : list (string * A)) :
  Permutation (sort_by_key l) l.
Proof.
  unfold sort_by_key. induction l as [| x l IH]; simpl; [reflexivity |].
  rewrite insert_by_key_Permutation. constructor. exact IH.
Qed.

Lemma sequence_map_Some {A B : Type} (f : A -> option B) (g : A -> B) (l : list A) :
  Forall (fun x => f x = Some (g x)) l -> sequence (map f l) = Some (map g l).
Proof.
  induction 1 as [| x l Hx _ IH]; simpl; [reflexivity |]. rewrite Hx, IH. reflexivity.
Qed.

Lemma text_entry_sorted (record : Record) :
  forallb text_entry record = true -> Forall (fun kv => text_entry kv = true) (sort_by_key record).
Proof.
  intros H. rewrite forallb_forall in H. apply Forall_forall. intros kv Hin. apply H.
  eapply Permutation_in; [apply sort_by_key_Permutation | exact Hin].
Qed.

Lemma encode_text_record (record : Record) :
  forallb text_entry record = true ->
  encode (Some 0) (VMap record)
  = Some (bracket (Some 0) "{" "}"
            (map (fun kv => quote (fst kv) +++ ": "
                            +++ match snd kv with VString s => quote s | _ => "" end)
                 (sort_by_key record))).
Proof.
  intros H. apply text_entry_sorted in H. cbn [encode].
  rewrite (sort_by_key_map (encode (deeper (Some 0))) record), map_map.
  rewrite (sequence_map_Some _ (fun kv => quote (fst kv) +++ ": "
                                          +++ match snd kv with VString s => quote s | _ => "" end));
    [reflexivity |].
  eapply Forall_impl; [| exact H]. intros [k v] Hkv. unfold text_entry in Hkv.
  apply andb_true_iff in Hkv. destruct Hkv as [_ Hv]. cbn [fst snd] in *.
  destruct v; try discriminate Hv. reflexivity.
Qed.

Lemma map_set_new (k : string) (v : value) (m : list (string * value)) :
  ~ In k (keys m) -> map_set k v m = m ++ [(k, v)].
Proof.
  induction m as [| [k' w] r IH]; simpl; intros H; [reflexivity |].
  destruct (String.eqb k' k) eqn:E.
  - apply String.eqb_eq in E. exfalso. apply H. left. exact E.
  - rewrite IH; [reflexivity |]. intros Hin. apply H. right. exact Hin.
Qed.

Lemma fold_map_set_new (l : list (string * value)) :
  forall acc, NoDup (keys (acc ++ l)) ->
              fold_left (fun acc kv => map_set (fst kv) (snd kv) acc) l acc = acc ++ l.
Proof.
  induction l as [| [k v] l IH]; intros acc Hnd; simpl; [rewrite app_nil_r; reflexivity |].
  assert (~ In k (keys acc)) as Hk.
  { unfold keys in *. rewrite map_app in Hnd. simpl in Hnd.
    apply NoDup_remove_2 in Hnd. intros Hin. apply Hnd. apply in_or_app. left. exact Hin. }
  rewrite map_set_new by exact Hk. rewrite IH; rewrite <- app_assoc; [reflexivity | exact Hnd].
Qed.

(** One member of an indented object, read by [parse_members]. *)
Lemma parse_members_step (k s rest : string) (f : nat) (acc : list (string * json)) :
  ascii_text k = true -> ascii_text s = true ->
  parse_members (S (S f)) (nl +++ "  " +++ quote k +++ ": " +++ quote s +++ rest) acc
  = match skip_space rest with
    | EmptyString => PEnd
    | String c r =>
        if Ascii.eqb c "," then parse_members (S f) r (acc ++ [(k, JString s)])
        else if Ascii.eqb c "}" then POk (JObject (acc ++ [(k, JString s)])) r
        else PErr (invalid c "after object key:value pair")
    end.
Proof.
  intros Hk Hs. rewrite quote_append.
  change (": " +++ quote s +++ rest) with (String ":" (String " " (quote s +++ rest))).
  rewrite quote_append.
  cbn [parse_members String.append nl str skip_space is_space Ascii.eqb Bool.eqb orb andb LF CR TAB DQ].
  rewrite parse_string_quote by exact Hk.
  cbn [pbind skip_space is_space Ascii.eqb Bool.eqb orb andb LF CR TAB DQ parse_value].
  rewrite parse_string_quote by exact Hs. reflexivity.
Qed.

Lemma parse_members_text (sorted : list (string * value)) :
  Forall (fun kv => text_entry kv = true) sorted -> sorted <> [] ->
  forall f acc tail,
    List.length sorted < f ->
    parse_members f
      (nl +++ "  "
       +++ join ("," +++ nl +++ "  ")
             (map (fun kv => quote (fst kv) +++ ": "
                             +++ match snd kv with VString s => quote s | _ => "" end) sorted)
       +++ nl +++ "}" +++ tail) acc
    = POk (JObject (acc ++ map entry_tree sorted)) tail.
Proof.
  induction 1 as [| [k v] rest Hkv Hrest IH]; intros Hne f acc tail Hf; [contradiction |].
  unfold text_entry in Hkv. apply andb_true_iff in Hkv. cbn [fst snd] in Hkv.
  destruct Hkv as [Hk Hv]. destruct v as [| s | | | | | | | | |]; try discriminate Hv.
  destruct f as [| [| f]]; [simpl in Hf; lia | simpl in Hf; lia |].
  destruct rest as [| y rest].
  - cbn [map join fst snd]. rewrite !append_assoc.
    rewrite parse_members_step by assumption. reflexivity.
  - change (map ?g ((k, VString s) :: y :: rest)) with (g (k, VString s) :: map g (y :: rest)).
    change (join ?sep (?x :: map ?g (y :: rest)))
      with (x +++ sep +++ join sep (map g (y :: rest))).
    cbn [fst snd]. rewrite !append_assoc.
    rewrite parse_members_step by assumption.
    cbn [String.append skip_space is_space Ascii.eqb Bool.eqb orb andb LF CR TAB].
    etransitivity; [apply IH; [discriminate | simpl in *; lia] |].
    rewrite <- app_assoc. reflexivity.
Qed.

Lemma store_members_text (sorted : list (string * value)) :
  Forall (fun kv => text_entry kv = true) sorted ->
  forall acc,
    store_members (map entry_tree sorted) acc
    = inr (fold_left (fun acc kv => map_set (fst kv) (snd kv) acc) sorted acc).
Proof.
  induction 1 as [| [k v] rest Hkv _ IH]; intros acc; [reflexivity |].
  unfold text_entry in Hkv. apply andb_true_iff in Hkv. cbn [fst snd] in Hkv.
  destruct Hkv as [_ Hv]. destruct v as [| s | | | | | | | | |]; try discriminate Hv.
  cbn [map entry_tree fst snd store_members to_value fold_left]. apply IH.
Qed.

Lemma bracket_items (items : list string) :
  items <> [] ->
  bracket (Some 0) "{" "}" items
  = "{" +++ nl +++ "  " +++ join ("," +++ nl +++ "  ") items +++ nl +++ "}".
Proof. destruct items; [contradiction | reflexivity]. Qed.

Lemma parse_value_object (f : nat) (r r' : string) (c' : ascii) :
  skip_space r = String c' r' -> Ascii.eqb c' "}" = false ->
  parse_value (S f) (nl +++ "{" +++ r) = parse_members f r [].
Proof.
  intros H H'. cbn [parse_value String.append nl str skip_space is_space Ascii.eqb Bool.eqb orb andb LF CR TAB].
  rewrite H, H'. reflexivity.
Qed.

Lemma parse_value_array (f : nat) (r r' : string) (c' : ascii) :
  skip_space r = String c' r' -> Ascii.eqb c' "]" = false ->
  parse_value (S f) ("[" +++ r) = parse_elements f r [].
Proof.
  intros H H'. cbn [parse_value String.append skip_space is_space Ascii.eqb Bool.eqb orb andb LF CR TAB].
  rewrite H, H'. reflexivity.
Qed.

Lemma sort_by_key_nil {A : Type} (l : list (string * A)) : sort_by_key l = [] -> l = [].
Proof.
  intros H. apply (f_equal (@List.length _)) in H. rewrite sort_by_key_length in H.
  destruct l; [reflexivity | discriminate H].
Qed.

Lemma parse_value_text_record (record : Record) (t tail : string) (f : nat) :
  forallb text_entry record = true ->
  encode (Some 0) (VMap record) = Some t ->
  List.length record + 1 < f ->
  parse_value f (nl +++ t +++ tail) = POk (record_tree record) tail.
Proof.
  intros Htext Henc Hf. rewrite encode_text_record in Henc by exact Htext.
  injection Henc as <-. unfold record_tree.
  pose proof (text_entry_sorted record Htext) as Hsorted.
  assert (List.length (sort_by_key record) = List.length record) as Hlen
      by apply sort_by_key_length.
  destruct (sort_by_key record) as [| [k v] rest] eqn:E.
  - destruct f; [lia |]. reflexivity.
  - rewrite bracket_items by discriminate. rewrite !append_assoc.
    destruct f as [| f]; [lia |].
    pose proof Hsorted as Hkv. apply Forall_inv in Hkv. unfold text_entry in Hkv.
    apply andb_true_iff in Hkv. cbn [fst snd] in Hkv. destruct Hkv as [_ Hv].
    destruct v as [| s | | | | | | | | |]; try discriminate Hv.
    match goal with
    | |- parse_value _ (nl +++ "{" +++ ?r) = _ =>
        assert (exists r', skip_space r = String DQ r') as [r' Hr']
            by (destruct rest; eexists; reflexivity);
        rewrite (parse_value_object f r r' DQ Hr' eq_refl)
    end.
    rewrite parse_members_text; try assumption; [| discriminate | simpl in *; lia].
    reflexivity.
Qed.

Lemma as_Record_text_record (record : Record) :
  text_record record -> as_Record (record_tree record) = inr (sort_by_key record).
Proof.
  intros [Hnd Htext]. unfold as_Record, record_tree.
  rewrite store_members_text by (apply text_entry_sorted; exact Htext).
  rewrite (fold_map_set_new _ []); [reflexivity |].
  eapply Permutation_NoDup; [| exact Hnd]. unfold keys. apply Permutation_map.
  symmetry. apply sort_by_key_Permutation.
Qed.

Lemma parse_elements_records (records : list Record) :
  Forall text_record records -> records <> [] ->
  forall texts, map Encode_indent records = map Some texts ->
  forall f acc tail,
    (forall record, In record records -> List.length record + 1 < f) ->
    parse_elements (List.length records + f)
      (nl +++ join ("," +++ nl) texts +++ nl +++ "]" +++ tail) acc
    = POk (JArray (acc ++ map record_tree records)) tail.
Proof.
  induction 1 as [| record rest [Hnd Htext] Hrest IH]; intros Hne texts Henc f acc tail Hf;
    [contradiction |].
  destruct texts as [| t texts]; [discriminate Henc |]. injection Henc as Ht Hts.
  unfold Encode_indent in Ht.
  destruct (encode (Some 0) (VMap record)) as [t0 |] eqn:E; [| discriminate Ht].
  injection Ht as <-.
  assert (forall tail', parse_value (List.length rest + f) (nl +++ t0 +++ tail')
                        = POk (record_tree record) tail') as Hv.
  { intros tail'. apply parse_value_text_record; try assumption.
    pose proof (Hf record (or_introl eq_refl)). lia. }
  cbn [List.length Nat.add parse_elements].
  destruct rest as [| record' rest].
  - destruct texts; [| discriminate Hts]. cbn [join]. rewrite !append_assoc, Hv. reflexivity.
  - destruct texts as [| t' texts]; [discriminate Hts |].
    change (join ?sep ((t0 +++ nl) :: t' :: texts))
      with ((t0 +++ nl) +++ sep +++ join sep (t' :: texts)).
    rewrite !append_assoc, Hv.
    cbn [pbind String.append nl str skip_space is_space Ascii.eqb Bool.eqb orb andb LF CR TAB].
    etransitivity;
      [apply (IH ltac:(discriminate) (t' :: texts) Hts f (acc ++ [record_tree record]) tail);
       intros r Hr; apply Hf; right; exact Hr |].
    cbn [map]. rewrite <- app_assoc. reflexivity.
Qed.

Lemma length_in_concat {A : Type} (l : list A) (ls : list (list A)) :
  In l ls -> List.length l <= List.length (concat ls).
Proof.
  induction ls as [| x ls IH]; simpl; [contradiction |]. rewrite length_app.
  intros [-> | H]; [lia | apply IH in H; lia].
Qed.

Lemma bracket_opens (items : list string) :
  exists rest, bracket (Some 0) "{" "}" items = String "{" rest.
Proof. destruct items; eexists; reflexivity. Qed.

(** The file of one [Write] call and a [Close] decodes to the records,
    the keys of each in the order of the encoder. *)
Lemma parse_json_records (records : list Record) (texts : list string) :
  Forall text_record records ->
  map Encode_indent records = map Some texts ->
  parse_json ("[" +++ nl +++ join ("," +++ nl) texts +++ nl +++ "]")
  = POk (JArray (map record_tree records)) "".
Proof.
  intros Htext Henc. destruct records as [| record rest].
  { destruct texts; [reflexivity | discriminate Henc]. }
  apply (parse_json_enough _ (S (List.length (record :: rest)
                                 + (2 + List.length (concat (record :: rest)))))).
  assert (exists r', skip_space (nl +++ join ("," +++ nl) texts +++ nl +++ "]") = String "{" r')
    as [r' Hr'].
  { destruct texts as [| t texts]; [discriminate Henc |]. injection Henc as Ht _.
    unfold Encode_indent in Ht.
    destruct (encode (Some 0) (VMap record)) as [t0 |] eqn:E; [| discriminate Ht].
    injection Ht as <-. inversion Htext as [| ? ? [_ Hrec] _]; subst.
    rewrite encode_text_record in E by exact Hrec. injection E as <-.
    match goal with
    | |- context [bracket (Some 0) "{" "}" ?items] => destruct (bracket_opens items) as [b ->]
    end.
    destruct texts; eexists; reflexivity. }
  rewrite (parse_value_array _ _ r' "{" Hr' eq_refl).
  rewrite <- (append_empty_r "]").
  rewrite (parse_elements_records (record :: rest) Htext ltac:(discriminate) texts Henc _ [] "").
  - reflexivity.
  - intros r Hr. apply length_in_concat in Hr. lia.
Qed.

Lemma validateFields_lookup (fields : list FieldConfig) (r r' : Record) :
  (forall k, lookup k r' = lookup k r) -> validateFields fields r' = validateFields fields r.
Proof.
  intros H. induction fields as [| field rest IH]; simpl; [reflexivity |].
  rewrite H, IH. reflexivity.
Qed.

Lemma lookup_sort_by_key (record : Record) (k : string) :
  NoDup (keys record) -> lookup k (sort_by_key record) = lookup k record.
Proof.
  intros Hnd. symmetry. apply lookup_Permutation; [| exact Hnd].
  symmetry. apply sort_by_key_Permutation.
Qed.

Lemma readJSONArray_loop_records (j : JSONSource) (records : list Record) :
  Forall text_record records ->
  Forall (fun record => validateRecord j record = None) records ->
  forall i acc,
    readJSONArray_loop j i (map record_tree records) acc
    = (acc ++ map sort_by_key records, None).
Proof.
  induction 1 as [| record rest Htext _ IH]; intros Hval i acc; cbn [map readJSONArray_loop].
  - rewrite app_nil_r. reflexivity.
  - inversion Hval as [| ? ? Hv Hvs]; subst.
    rewrite (as_Record_text_record record Htext).
    assert (validateRecord j (sort_by_key record) = None) as ->.
    { unfold validateRecord. rewrite (validateFields_lookup _ record); [exact Hv |].
      intros k. apply lookup_sort_by_key. apply Htext. }
    rewrite (IH Hvs), <- app_assoc. reflexivity.
Qed.

(** X19: in array mode what one [Write] call and a [Close] leave in the
    file is read back by [Read] as the records written, in their order,
    each with its entries in the order of the keys and with the same value
    under every key, when the records hold strings of bytes below 0x80
    under distinct keys of such bytes. *)
Theorem array_mode_round_trip (os os' : OS) (j : JSONSource) (ctx ctx' : Ctx)
    (records : list Record) (file : string) :
  mode j = "array" -> writer j = None ->
  os_MkdirAll os (filepath_Dir os (path j)) = None -> os_Create os (path j) = None ->
  (forall k, ctx k = None) ->
  Forall (fun record => validateRecord j record = None) records ->
  Forall text_record records ->
  findFiles os' j = inr [file] -> ctx' 0 = None ->
  exists j1 j2,
    Write os j ctx records = (j1, None)
    /\ Close j1 = (j2, None)
    /\ (os_Open os' file = inr (written j2) ->
        Read os' j ctx' = (map sort_by_key records, None))
    /\ Forall (fun record => forall k, lookup k (sort_by_key record) = lookup k record) records.
Proof.
  intros Hmode Hw Hmk Hcr Hctx Hval Htext Hfind Hctx'.
  assert (exists texts, map Encode_indent records = map Some texts) as [texts Henc].
  { clear Hval. induction Htext as [| record rest [_ Hrec] _ [texts IH]]; [exists []; reflexivity |].
    eexists (_ :: texts). cbn [map]. f_equal; [| exact IH].
    unfold Encode_indent. rewrite encode_text_record by exact Hrec. reflexivity. }
  unfold Write. rewrite Hw, Hmk, Hcr, Hmode.
  cbn [String.eqb Ascii.eqb Bool.eqb file_Write file_closed file_data String.append].
  match goal with
  | |- context [Write_loop ?ja ?wa ctx 0 records] =>
      destruct (Write_loop_array_bytes records texts ja wa ctx 0)
        as [j1 [w1 [Hl1 [Hm1 [Hs1 [Hw1 [Hc1 Hd1]]]]]]]; try assumption; try reflexivity
  end.
  exists j1. rewrite Hl1. unfold Close. rewrite Hw1, Hm1.
  cbn [String.eqb Ascii.eqb Bool.eqb]. unfold file_Write, file_Close. rewrite Hc1.
  cbn [file_closed file_data]. eexists. split; [reflexivity |]. split; [reflexivity |]. split.
  - match goal with
    | |- os_Open os' file = inr ?data -> _ =>
        assert (data = "[" +++ nl +++ join ("," +++ nl) texts +++ nl +++ "]") as ->
    end.
    { unfold written. cbn [writer set_writer file_data].
      rewrite Hd1, framed_join. cbn [file_data]. rewrite !append_assoc. reflexivity. }
    intros Hopen. unfold Read. rewrite Hfind. cbn [List.length Nat.eqb Read_loop].
    rewrite Hctx'. unfold readFile. rewrite Hopen, Hmode. cbn [String.eqb Ascii.eqb Bool.eqb].
    unfold readJSONArray, Decode_RawMessages, scan_stream.
    rewrite (parse_json_records records texts Htext Henc).
    rewrite readJSONArray_loop_records by assumption. reflexivity.
  - eapply Forall_impl; [| exact Htext]. intros record [Hnd _] k.
    apply lookup_sort_by_key. exact Hnd.
Qed.

End RoundTrip.

(** * Long lines *)

Section LongLines.
Context `{FC : FloatCodec}.

Lemma cut_line_append (l rest : string) :
  contains_char l LF = false -> cut_line (l +++ nl +++ rest) = (l, Some rest).
Proof.
  induction l as [| c l IH]; intros H; [reflexivity |].
  cbn [contains_char] in H. apply orb_false_iff in H. destruct H as [Hc Hl].
  cbn [String.append cut_line]. rewrite Hc, (IH Hl). reflexivity.
Qed.

Lemma cut_line_last (l : string) :
  contains_char l LF = false -> cut_line l = (l, None).
Proof.
  induction l as [| c l IH]; intros H; [reflexivity |].
  cbn [contains_char] in H. apply orb_false_iff in H. destruct H as [Hc Hl].
  cbn [cut_line]. rewrite Hc, (IH Hl). reflexivity.
Qed.

Lemma scan_lines_long (f : nat) (long after : string) :
  contains_char long LF = false ->
  (MaxScanTokenSize <= N.of_nat (String.length long))%N ->
  after = "" \/ (exists r, after = nl +++ r) ->
  scan_lines (S f) (long +++ after) = ([], Some "bufio.Scanner: token too long").
Proof.
  intros Hlf Hlen Hafter. cbn [scan_lines].
  assert (exists tail, cut_line (long +++ after) = (long, tail)) as [tail Hcut].
  { destruct Hafter as [-> | [r ->]].
    - rewrite append_empty_r. eexists. apply cut_line_last. exact Hlf.
    - eexists. apply cut_line_append. exact Hlf. }
  destruct (long +++ after) as [| c data] eqn:E.
  { destruct long; [| discriminate E]. unfold MaxScanTokenSize in Hlen. simpl in Hlen. lia. }
  rewrite Hcut. apply N.leb_le in Hlen. rewrite Hlen. reflexivity.
Qed.

Lemma scan_lines_short (f : nat) (l rest : string) :
  contains_char l LF = false ->
  (N.of_nat (String.length l) < MaxScanTokenSize)%N ->
  scan_lines (S f) (l +++ nl +++ rest)
  = (let (ls, e) := scan_lines f rest in (dropCR l :: ls, e)).
Proof.
  intros Hlf Hlen. cbn [scan_lines]. rewrite (cut_line_append l rest Hlf).
  apply N.leb_gt in Hlen. rewrite Hlen.
  destruct (l +++ nl +++ rest) eqn:E; [destruct l; discriminate E | reflexivity].
Qed.

Lemma scan_lines_before_long (before : list string) (long after : string) :
  Forall (fun l => contains_char l LF = false
                   /\ (N.of_nat (String.length l) < MaxScanTokenSize)%N) before ->
  contains_char long LF = false ->
  (MaxScanTokenSize <= N.of_nat (String.length long))%N ->
  after = "" \/ (exists r, after = nl +++ r) ->
  forall f,
    List.length before < f ->
    scan_lines f (String.concat "" (map (fun l => l +++ nl) before) +++ long +++ after)
    = (map dropCR before, Some "bufio.Scanner: token too long").
Proof.
  intros Hbefore Hlf Hlen Hafter.
  induction Hbefore as [| l before [Hl Hs] _ IH]; intros f Hf.
  - destruct f; [simpl in Hf; lia |]. exact (scan_lines_long f long after Hlf Hlen Hafter).
  - destruct f as [| f]; [simpl in Hf; lia |].
    cbn [map]. rewrite concat_cons. cbn [String.append]. rewrite !append_assoc.
    rewrite scan_lines_short by assumption.
    rewrite IH by (simpl in Hf; lia). reflexivity.
Qed.

(** X20: a line of 64 KiB or more cannot be read in lines mode.  When the
    lines before it read without error, [readJSONLines] returns no record
    and the error of the scanner, 'token too long', whatever the line and
    what follows it hold. *)
Theorem readJSONLines_long_line (j : JSONSource) (before : list string) (long after : string) :
  Forall (fun l => contains_char l LF = false
                   /\ (N.of_nat (String.length l) < MaxScanTokenSize)%N) before ->
  contains_char long LF = false ->
  (MaxScanTokenSize <= N.of_nat (String.length long))%N ->
  after = "" \/ (exists r, after = nl +++ r) ->
  snd (readJSONLines_loop j 0 (map dropCR before) []) = None ->
  readJSONLines j (String.concat "" (map (fun l => l +++ nl) before) +++ long +++ after)
  = ([], Some "error reading file: bufio.Scanner: token too long").
Proof.
  intros Hbefore Hlf Hlen Hafter Hread. unfold readJSONLines, Scanner.
  rewrite (scan_lines_before_long before long after Hbefore Hlf Hlen Hafter).
  - destruct (readJSONLines_loop j 0 (map dropCR before) []) as [records [err |]];
      [discriminate Hread | reflexivity].
  - set (data := String.concat "" _ +++ long +++ after).
    assert (List.length before <= String.length (String.concat "" (map (fun l => l +++ nl) before)))
      as Hle.
    { clear. induction before as [| l before IH]; [simpl; lia |].
      cbn [map]. rewrite concat_cons. cbn [String.append List.length].
      rewrite !length_append. simpl. lia. }
    unfold data. rewrite length_append. lia.
Qed.

End LongLines.

(** ** The further properties on concrete inputs *)

Lemma Read_concatenates_witness :
  Read (FC := IntFloats) data_os pattern_source Background = ([rec_a; rec_b], None).
Proof.
  apply (Read_concatenates (FC := IntFloats) data_os pattern_source Background
           ["data/a.json"; "data/b.json"] [[rec_a]; [rec_b]]).
  - reflexivity.
  - discriminate.
  - reflexivity.
  - repeat constructor.
Defined.

Lemma Read_fails_with_first_bad_file_witness :
  Read (FC := IntFloats) broken_os pattern_source Background
  = ([], Some "failed to read file data/c.json: failed to decode JSON array: invalid character 'o' looking for beginning of value").
Proof.
  apply (Read_fails_with_first_bad_file (FC := IntFloats) broken_os pattern_source Background
           ["data/a.json"] [[rec_a]] "data/c.json" ["data/b.json"] []
           "failed to decode JSON array: invalid character 'o' looking for beginning of value").
  - reflexivity.
  - reflexivity.
  - repeat constructor.
  - reflexivity.
Defined.

Lemma Read_cancelled_keeps_records_witness :
  Read (FC := IntFloats) data_os pattern_source cancelled_after_one
  = ([rec_a], Some "context canceled").
Proof.
  apply (Read_cancelled_keeps_records (FC := IntFloats) data_os pattern_source cancelled_after_one
           ["data/a.json"] [[rec_a]] "data/b.json" [] "context canceled").
  - reflexivity.
  - intros i Hi. simpl in Hi. destruct i; [reflexivity | lia].
  - reflexivity.
  - repeat constructor.
Defined.

Lemma findFiles_keeps_regular_matches_witness :
  exists files,
    findFiles mixed_os pattern_source = inr files
    /\ files = filter (fun m => match os_Stat mixed_os m with inr false => true | _ => false end)
                      ["data/a.json"; "data/sub"; "data/gone.json"]
    /\ forall f, In f files
                 <-> In f ["data/a.json"; "data/sub"; "data/gone.json"]
                     /\ os_Stat mixed_os f = inr false.
Proof.
  apply (findFiles_keeps_regular_matches mixed_os pattern_source
           ["data/a.json"; "data/sub"; "data/gone.json"]); reflexivity.
Defined.

Lemma Write_succeeds_only_on_valid_records_witness :
  Forall (fun record => validateRecord (source_of "array") record = None
                        /\ Encode_indent (FC := IntFloats) record <> None) [rec_a; rec_b]
  /\ forall k, k < List.length [rec_a; rec_b] -> Background k = None.
Proof.
  apply (Write_succeeds_only_on_valid_records (FC := IntFloats) (os_of []) (source_of "array")
           Background [rec_a; rec_b]
           (fst (Write (FC := IntFloats) (os_of []) (source_of "array") Background [rec_a; rec_b]))).
  reflexivity.
Defined.

Lemma Write_array_stops_at_invalid_record_witness :
  exists j',
    Write (FC := IntFloats) (os_of []) (source_of "array") Background
          ([rec_a] ++ rec_unlabelled :: [rec_b])
    = (j', Some "record validation failed: missing required field: text")
    /\ written j' = "[" +++ nl +++ framed 0 [a_text] +++ "," +++ nl.
Proof.
  apply (Write_array_stops_at_invalid_record (FC := IntFloats) (os_of []) (source_of "array")
           Background [rec_a] rec_unlabelled [rec_b] [a_text] "missing required field: text");
    try reflexivity.
  repeat constructor.
Defined.

Lemma array_mode_one_call_bytes_witness :
  exists j1 j2,
    Write (FC := IntFloats) (os_of []) (source_of "array") Background [rec_a; rec_b] = (j1, None)
    /\ Close j1 = (j2, None)
    /\ written j2 = "[" +++ nl +++ join ("," +++ nl) [a_text; b_text] +++ nl +++ "]".
Proof.
  apply (array_mode_one_call_bytes (FC := IntFloats) (os_of []) (source_of "array") Background
           [rec_a; rec_b] [a_text; b_text]); try reflexivity.
  repeat constructor.
Defined.

Lemma closed_source_refuses_output_witness :
  exists j1,
    Close open_source = (j1, None)
    /\ (exists e, snd (Close j1) = Some e)
    /\ written (fst (Close j1)) = written j1
    /\ forall (os : OS) (ctx : Ctx) (record : Record (FC := IntFloats)) (rest : list Record),
         ctx 0 = None -> validateRecord open_source record = None ->
         Encode_indent record <> None ->
         (exists e, snd (Write os j1 ctx (record :: rest)) = Some e)
         /\ written (fst (Write os j1 ctx (record :: rest))) = written j1.
Proof.
  apply (closed_source_refuses_output (FC := IntFloats) open_source
           {| file_name := out_path; file_data := "[" +++ nl; file_closed := false |});
    reflexivity.
Defined.

Lemma readJSONLines_counts_blank_lines_witness :
  readJSONLines_loop (FC := IntFloats) (source_of "lines") 0 ([""; ""] ++ "oops" :: []) []
  = ([], Some "failed to unmarshal line 3: invalid character 'o' looking for beginning of value").
Proof.
  apply (proj1 (readJSONLines_counts_blank_lines (FC := IntFloats) (source_of "lines") 0 [""; ""]
                  "oops" [] [] "invalid character 'o' looking for beginning of value"
                  ltac:(repeat constructor) ltac:(discriminate) eq_refl)).
Defined.


Lemma validateSchema_types_supported_witness :
  exists field,
    In field (Fields text_schema)
    /\ ((lookup (Name field) rec_unlabelled = None
         /\ "missing required field: text" = "missing required field: " +++ Name field)
        \/ exists v, lookup (Name field) rec_unlabelled = Some v
                     /\ "missing required field: text"
                        = "field " +++ Name field +++ ": expected " +++ Type_ field
                          +++ ", got " +++ Sprint_T v).
Proof.
  apply (proj2 (proj2 (validateSchema_types_supported (FC := IntFloats) text_schema "input[0]"
                         eq_refl))
               (source_of "array") rec_unlabelled "missing required field: text");
    reflexivity.
Defined.

Lemma Validate_sound_witness :
  (1 <= Concurrency (Controls csv_config))%Z
  /\ In (OnError (Controls csv_config)) ["retry"; "skip"; "fail"].
Proof.
  apply (Validate_sound (FC := IntFloats) csv_config). reflexivity.
Defined.

Lemma validated_config_not_implemented_witness :
  Validate (Some csv_config) = None
  /\ forall getenv,
       In (CreateEvaluator getenv (Provider (Evaluation csv_config)) (Evaluation csv_config))
          [inl "OpenAI evaluator not yet implemented";
           inl "Anthropic evaluator not yet implemented";
           inl "Bedrock evaluator not yet implemented"].
Proof.
  split; [reflexivity |].
  apply (validated_config_not_implemented (FC := IntFloats) csv_config); [reflexivity | discriminate].
Defined.

Lemma array_mode_round_trip_witness :
  exists j1 j2,
    Write (FC := IntFloats) (os_of []) (source_of "array") Background [rec_a; rec_b] = (j1, None)
    /\ Close j1 = (j2, None)
    /\ (os_Open round_os out_path = inr (written j2) ->
        Read round_os (source_of "array") Background = (map sort_by_key [rec_a; rec_b], None))
    /\ Forall (fun record => forall k, lookup k (sort_by_key record) = lookup k record)
              [rec_a; rec_b].
Proof.
  apply (array_mode_round_trip (FC := IntFloats) (os_of []) round_os (source_of "array")
           Background Background [rec_a; rec_b] out_path); try reflexivity.
  - repeat constructor.
  - repeat constructor; intros [].
Defined.

Lemma readJSONLines_long_line_witness :
  readJSONLines (FC := IntFloats) (source_of "lines")
    (String.concat "" (map (fun l => l +++ nl) [txt "{'text': 'a'}"]) +++ long_line +++ "")
  = ([], Some "error reading file: bufio.Scanner: token too long").
Proof.
  apply (readJSONLines_long_line (FC := IntFloats) (source_of "lines") [txt "{'text': 'a'}"]
           long_line "").
  - repeat constructor.
  - vm_compute. reflexivity.
  - vm_compute. discriminate.
  - left. reflexivity.
  - vm_compute. reflexivity.
Defined.
